(** * Request mediation layer of the healthcare platform: a shallow embedding

    The TypeScript sources embedded here are

    - [packages/shared/src/middleware/auditLog.ts]  (sanitizeBody,
      createAuditLog, withAuditLog),
    - [packages/shared/src/middleware/handler.ts]   (the error classes and
      withErrorHandler, withSecurityHeaders, validateRequest),
    - [packages/shared/src/middleware/auth.ts]      (authenticate,
      authorize),
    - [packages/shared/src/utils/middleware.ts]     (compose,
      sanitizeSensitiveData),
    - [packages/shared/src/utils/roles.ts]          (isStaffRole,
      isClientRole, validateUserRoleAndType),
    - the shared encryption service                  (encryptPHI, decryptPHI,
      maskSensitiveData),
    - the shared database client                     (formatParameters and
      the statements of insert, update and delete),
    - [packages/services/patient-service]            (withAuth, the pipeline
      [handler] and its [patientSchema], convertToAppSyncHandler, baseHandler,
      getPatient, updatePatient),
    - [packages/services/medical-record-service]     (handler,
      getMedicalRecord, logAccessEvent, logHipaaEvent) and the appointment
      service (handler, getAppointment),
    - the resolver of auth-service                   (the dispatch of the
      [login] case).

    Asynchronous functions are embedded in direct style: every [await] is a
    sequencing point of a state-passing function, a rejected promise is the
    [Threw] outcome.  External capabilities (the DynamoDB table, the SQL
    database, KMS, the AES-GCM primitive of the runtime) are explicit parts
    of the state or explicit parameters. *)

From Stdlib Require Import ZArith String Ascii List Bool Lia.
From stdpp Require Import base option list strings gmap pretty.

Set Warnings "-register-all".

Local Open Scope string_scope.
Local Open Scope Z_scope.

(* ================================================================== *)
(** * JavaScript strings *)
(* ================================================================== *)

Module JsString.

(** Strings are sequences of characters; [String.length] plays the role of
    the [length] property. *)

Definition to_lower_ascii (c : ascii) : ascii :=
  let n := nat_of_ascii c in
  if (Nat.leb 65 n && Nat.leb n 90)%bool then ascii_of_nat (n + 32) else c.

(** [String.prototype.toLowerCase] on the ASCII letters. *)
Fixpoint toLowerCase (s : string) : string :=
  match s with
  | EmptyString => EmptyString
  | String c r => String (to_lower_ascii c) (toLowerCase r)
  end.

Definition clamp (len x : Z) : Z := Z.max 0 (Z.min x len).

(** [s.substring(a, b)]: both indices are clamped to [0 .. length] and
    swapped when out of order. *)
Definition substring2 (s : string) (a b : Z) : string :=
  let len := Z.of_nat (String.length s) in
  let a' := clamp len a in
  let b' := clamp len b in
  let lo := Z.min a' b' in
  let hi := Z.max a' b' in
  String.substring (Z.to_nat lo) (Z.to_nat (hi - lo)) s.

(** [s.substring(a)]: the end index defaults to the length. *)
Definition substring1 (s : string) (a : Z) : string :=
  substring2 s a (Z.of_nat (String.length s)).

Fixpoint stars (n : nat) : string :=
  match n with
  | O => EmptyString
  | S k => String "*" (stars k)
  end.

(** ['*'.repeat(n)] for a count that is not negative. *)
Definition repeat_star (n : Z) : string := stars (Z.to_nat n).

(** [Array.prototype.includes] on an array of strings. *)
Definition includes (l : list string) (x : string) : bool :=
  existsb (String.eqb x) l.

End JsString.

(* ================================================================== *)
(** * The PHI cipher: masking *)
(* ================================================================== *)

Module Mask.
Import JsString.

(** [maskSensitiveData(data, visibleChars = 4)] of the encryption service.
    [!data] holds of the empty string. *)
Definition maskSensitiveData (data : string) (visibleChars : Z) : string :=
  let len := Z.of_nat (String.length data) in
  if (String.eqb data "" || (len <=? visibleChars * 2))%bool then "****"
  else
    let start := substring2 data 0 visibleChars in
    let end_ := substring1 data (len - visibleChars) in
    let masked := repeat_star (Z.max (len - visibleChars * 2) 4) in
    start ++ masked ++ end_.

Definition maskSensitiveData_default (data : string) : string :=
  maskSensitiveData data 4.

End Mask.

(* ================================================================== *)
(** * JSON values and the audit-log redaction *)
(* ================================================================== *)

Module Json.

(** What [JSON.parse] returns.  An object is the list of its own
    properties in insertion order; numbers are the integers, which is all
    that truthiness needs of them. *)
Inductive json : Type :=
| JNull
| JBool (b : bool)
| JNum (n : Z)
| JStr (s : string)
| JArr (items : list json)
| JObj (fields : list (string * json)).

(** Truthiness, as tested by [if (x)] and [!x]. *)
Definition truthy (v : json) : bool :=
  match v with
  | JNull => false
  | JBool b => b
  | JNum n => negb (n =? 0)
  | JStr s => negb (String.eqb s "")
  | JArr _ | JObj _ => true
  end.

(** [o[k]]: [None] is [undefined]. *)
Fixpoint get_field (fields : list (string * json)) (k : string) : option json :=
  match fields with
  | [] => None
  | (k', v) :: rest => if String.eqb k' k then Some v else get_field rest k
  end.

(** [o[k] = v]: an existing property keeps its position, a new one is
    appended. *)
Fixpoint set_field (fields : list (string * json)) (k : string) (v : json)
  : list (string * json) :=
  match fields with
  | [] => [(k, v)]
  | (k', v') :: rest =>
      if String.eqb k' k then (k', v) :: rest else (k', v') :: set_field rest k v
  end.

Definition REDACTED : string := "***REDACTED***".

End Json.

Module AuditRedaction.
Import JsString Json.

(** The [sensitiveFields] array of [sanitizeBody] in auditLog.ts. *)
Definition sensitiveFields : list string :=
  ["password"; "token"; "refreshToken"; "ssn";
   "creditCard"; "bankAccount"; "secret"; "apiKey"].

(** One turn of the loop: [if (sanitized[field]) sanitized[field] = marker].
    On an array or a primitive the property read of any of the names is
    [undefined]. *)
Definition redact_field (sanitized : json) (field : string) : json :=
  match sanitized with
  | JObj fields =>
      match get_field fields field with
      | Some v => if truthy v then JObj (set_field fields field (JStr REDACTED))
                  else sanitized
      | None => sanitized
      end
  | _ => sanitized
  end.

(** [sanitizeBody(body)].  [JSON.parse(JSON.stringify(body))] is a deep copy,
    the same value. *)
Definition sanitizeBody (body : json) : json :=
  if negb (truthy body) then body
  else fold_left redact_field sensitiveFields body.

(** The redaction the specification asks of a persisted snapshot: the nine
    names, compared without regard to case, at every depth. *)
Definition denylist : list string :=
  ["password"; "token"; "refreshToken"; "ssn"; "secret";
   "apiKey"; "creditCard"; "bankAccount"; "authorization"].

Definition denylisted (k : string) : bool :=
  existsb (fun d => String.eqb (toLowerCase k) (toLowerCase d)) denylist.

Definition is_marker (v : json) : bool :=
  match v with
  | JStr s => String.eqb s REDACTED
  | _ => false
  end.

Fixpoint fully_redacted (v : json) : bool :=
  match v with
  | JArr items => forallb fully_redacted items
  | JObj fields =>
      forallb (fun kv => if denylisted (fst kv) then is_marker (snd kv)
                         else fully_redacted (snd kv)) fields
  | _ => true
  end.

(** The string [needle] occurs as a string value somewhere in [v]. *)
Fixpoint contains_string (needle : string) (v : json) : bool :=
  match v with
  | JStr s => String.eqb s needle
  | JArr items => existsb (contains_string needle) items
  | JObj fields => existsb (fun kv => contains_string needle (snd kv)) fields
  | _ => false
  end.

End AuditRedaction.

(* ================================================================== *)
(** * Objects on the heap and [sanitizeSensitiveData] *)
(* ================================================================== *)

Module Store.
Import JsString.

Definition loc := positive.

(** A JavaScript value: a primitive or a reference to an object. *)
Inductive value : Type :=
| VUndefined
| VNull
| VBool (b : bool)
| VNum (n : Z)
| VStr (s : string)
| VRef (l : loc).

(** An array or a plain object.  Both are mutable; two references to the
    same location see each other's writes. *)
Inductive object : Type :=
| OArr (items : list value)
| OObj (fields : list (string * value)).

Abbreviation heap := (gmap loc object).

(** A property key: an array index or a name. *)
Inductive key : Type :=
| KIdx (i : nat)
| KName (s : string).

Definition truthy (v : value) : bool :=
  match v with
  | VUndefined | VNull => false
  | VBool b => b
  | VNum n => negb (n =? 0)
  | VStr s => negb (String.eqb s "")
  | VRef _ => true
  end.

(** [typeof v === 'object'] holds of [null] and of every reference. *)
Definition typeof_object (v : value) : bool :=
  match v with
  | VNull | VRef _ => true
  | _ => false
  end.

Fixpoint index_entries (i : nat) (items : list value) : list (key * value) :=
  match items with
  | [] => []
  | v :: rest => (KIdx i, v) :: index_entries (S i) rest
  end.

(** [Object.entries(o)]: a snapshot of the properties, taken once. *)
Definition entries (o : object) : list (key * value) :=
  match o with
  | OArr items => index_entries 0 items
  | OObj fields => map (fun kv => (KName (fst kv), snd kv)) fields
  end.

Fixpoint set_name (fields : list (string * value)) (k : string) (v : value)
  : list (string * value) :=
  match fields with
  | [] => [(k, v)]
  | (k', v') :: rest =>
      if String.eqb k' k then (k', v) :: rest else (k', v') :: set_name rest k v
  end.

(** [o[k] = v] on the object itself.  The keys come from [entries o], so an
    index is in range and a name is present. *)
Definition set_prop (o : object) (k : key) (v : value) : object :=
  match o, k with
  | OArr items, KIdx i => OArr (<[i := v]> items)
  | OObj fields, KName s => OObj (set_name fields s v)
  | _, _ => o
  end.

(** [sanitized[k] = v] where [sanitized] is the reference [l]. *)
Definition store (h : heap) (l : loc) (k : key) (v : value) : heap :=
  match h !! l with
  | Some o => <[l := set_prop o k v]> h
  | None => h
  end.

(** [[...data]] or [{...data}]: a new object with the same properties. *)
Definition shallow_copy (h : heap) (o : object) : loc * heap :=
  let l := fresh (dom h) in (l, <[l := o]> h).

(** The [sensitiveFields] array of [sanitizeSensitiveData]. *)
Definition sensitiveFields : list string :=
  ["password"; "ssn"; "creditCard"; "token"; "secret"; "authorization"].

(** [sensitiveFields.includes(key.toLowerCase())].  The key of an array
    entry is its index in decimal, which is none of the names. *)
Definition is_sensitive (k : key) : bool :=
  match k with
  | KName s => includes sensitiveFields (toLowerCase s)
  | KIdx _ => false
  end.

(** The [for] loop over the entries; [self] is the recursive call.  [None]
    is a thrown error, which leaves the loop at once. *)
Fixpoint sanitize_entries (self : heap -> value -> heap * option value)
    (sanitized : loc) (es : list (key * value)) (h : heap) : heap * option unit :=
  match es with
  | [] => (h, Some tt)
  | (k, v) :: rest =>
      if is_sensitive k then
        sanitize_entries self sanitized rest (store h sanitized k (VStr Json.REDACTED))
      else if typeof_object v then
        match self h v with
        | (h1, Some v') => sanitize_entries self sanitized rest (store h1 sanitized k v')
        | (h1, None) => (h1, None)
        end
      else sanitize_entries self sanitized rest h
  end.

(** [sanitizeSensitiveData(data)] of utils/middleware.ts, run on a heap.
    [depth] bounds the call stack: [None] is the [RangeError] of a stack
    that is exhausted (a cyclic input), and the heap is returned in either
    case. *)
Fixpoint sanitizeSensitiveData (depth : nat) (h : heap) (data : value)
  : heap * option value :=
  match depth with
  | O => (h, None)
  | S d =>
      if negb (truthy data) then (h, Some data)
      else
        match data with
        | VRef l =>
            match h !! l with
            | Some o =>
                let '(sanitized, h1) := shallow_copy h o in
                match sanitize_entries (sanitizeSensitiveData d) sanitized (entries o) h1 with
                | (h2, Some _) => (h2, Some (VRef sanitized))
                | (h2, None) => (h2, None)
                end
            | None => (h, None)
            end
        | _ => (h, Some data)
        end
  end.

End Store.

(* ================================================================== *)
(** * The PHI cipher: local authenticated encryption *)
(* ================================================================== *)

Module Cipher.

Abbreviation bytes := (list Byte.byte).

(** ** Hexadecimal text *)

Definition hex_digit (n : N) : ascii :=
  ascii_of_N (if (n <? 10)%N then n + 48 else n + 87)%N.

Definition hex_value (c : ascii) : option N :=
  let n := N_of_ascii c in
  if ((48 <=? n) && (n <=? 57))%N then Some (n - 48)%N
  else if ((97 <=? n) && (n <=? 102))%N then Some (n - 87)%N
  else if ((65 <=? n) && (n <=? 70))%N then Some (n - 55)%N
  else None.

Definition hex_of_byte (b : Byte.byte) : string :=
  let n := Byte.to_N b in
  String (hex_digit (n / 16)) (String (hex_digit (n mod 16)) EmptyString).

(** [buf.toString('hex')]. *)
Fixpoint toHex (bs : bytes) : string :=
  match bs with
  | [] => EmptyString
  | b :: rest => hex_of_byte b ++ toHex rest
  end.

(** [Buffer.from(s, 'hex')]: decoding stops at the first pair that is not
    two hexadecimal digits, and a last single character is dropped. *)
Fixpoint fromHex (s : string) : bytes :=
  match s with
  | String c1 (String c2 rest) =>
      match hex_value c1, hex_value c2 with
      | Some hi, Some lo =>
          match Byte.of_N (16 * hi + lo) with
          | Some b => b :: fromHex rest
          | None => []
          end
      | _, _ => []
      end
  | _ => []
  end.

(** ** [String.prototype.split] on a one-character separator *)

Fixpoint split (sep : ascii) (s : string) : list string :=
  match s with
  | EmptyString => [EmptyString]
  | String c rest =>
      if Ascii.eqb c sep then EmptyString :: split sep rest
      else match split sep rest with
           | [] => [String c EmptyString]
           | p :: ps => String c p :: ps
           end
  end.

Fixpoint occurs (sep : ascii) (s : string) : bool :=
  match s with
  | EmptyString => false
  | String c rest => Ascii.eqb c sep || occurs sep rest
  end.

Definition colon : ascii := ":"%char.

(** ** Strings and their UTF-8 text

    A string of the program is a sequence of 16-bit code units.  The
    plaintext crosses the cipher as UTF-8: [cipher.update(data, 'utf8', ...)]
    encodes it and [decipher.update(..., 'utf8')] with
    [decipher.final('utf8')] decodes what was decrypted. *)

Abbreviation text := (list N).

(** Every element is a code unit. *)
Definition is_string (s : text) : bool := forallb (fun u => u <? 0x10000)%N s.

(** The code units of a string whose units are all below 256. *)
Definition units (s : string) : text := map N_of_ascii (list_ascii_of_string s).

Definition byte_of_N (n : N) : Byte.byte :=
  match Byte.of_N n with
  | Some b => b
  | None => Byte.x00
  end.

Section Utf8.
Local Open Scope N_scope.

Definition is_high (u : N) : bool := (0xD800 <=? u) && (u <=? 0xDBFF).
Definition is_low (u : N) : bool := (0xDC00 <=? u) && (u <=? 0xDFFF).

(** U+FFFD, which stands for what cannot be encoded or decoded. *)
Definition REPLACEMENT : N := 0xFFFD.

Definition encode_scalar (c : N) : bytes :=
  if c <? 0x80 then [byte_of_N c]
  else if c <? 0x800 then
    [byte_of_N (0xC0 + c / 64); byte_of_N (0x80 + c mod 64)]
  else if c <? 0x10000 then
    [byte_of_N (0xE0 + c / 64 / 64); byte_of_N (0x80 + (c / 64) mod 64);
     byte_of_N (0x80 + c mod 64)]
  else
    [byte_of_N (0xF0 + c / 64 / 64 / 64); byte_of_N (0x80 + (c / 64 / 64) mod 64);
     byte_of_N (0x80 + (c / 64) mod 64); byte_of_N (0x80 + c mod 64)].

(** The UTF-8 text of a string: a high surrogate followed by a low one is
    one scalar value, and a surrogate that is not part of such a pair is
    written as U+FFFD. *)
Fixpoint utf8_encode (s : text) : bytes :=
  match s with
  | [] => []
  | u :: rest =>
      if is_high u then
        match rest with
        | l :: rest' =>
            if is_low l
            then (encode_scalar (0x10000 + (u - 0xD800) * 0x400 + (l - 0xDC00))
                  ++ utf8_encode rest')%list
            else (encode_scalar REPLACEMENT ++ utf8_encode rest)%list
        | [] => encode_scalar REPLACEMENT
        end
      else if is_low u then (encode_scalar REPLACEMENT ++ utf8_encode rest)%list
      else (encode_scalar u ++ utf8_encode rest)%list
  end.

(** The code units of a scalar value. *)
Definition code_units (c : N) : text :=
  if c <? 0x10000 then [c]
  else [0xD800 + (c - 0x10000) / 0x400; 0xDC00 + (c - 0x10000) mod 0x400].

(** What the first byte of a sequence announces: a scalar value by itself,
    or the number of bytes to come, the range of the next one and the bits
    read so far. *)
Inductive Lead : Type :=
| Emit (c : N)
| Need (needed : nat) (lower upper cp : N).

Definition lead (b : N) : Lead :=
  if b <=? 0x7F then Emit b
  else if (0xC2 <=? b) && (b <=? 0xDF) then Need 1 0x80 0xBF (b - 0xC0)
  else if (0xE0 <=? b) && (b <=? 0xEF) then
    Need 2 (if b =? 0xE0 then 0xA0 else 0x80) (if b =? 0xED then 0x9F else 0xBF)
         (b - 0xE0)
  else if (0xF0 <=? b) && (b <=? 0xF4) then
    Need 3 (if b =? 0xF0 then 0x90 else 0x80) (if b =? 0xF4 then 0x8F else 0xBF)
         (b - 0xF0)
  else Emit REPLACEMENT.

(** The decoder: a byte that cannot continue the sequence in progress ends
    it with U+FFFD and is read again as a first byte; a sequence cut off by
    the end of the input gives U+FFFD. *)
Fixpoint decode_from (state : option (nat * N * N * N)) (bs : bytes) : text :=
  match bs with
  | [] =>
      match state with
      | None => []
      | Some _ => [REPLACEMENT]
      end
  | byte :: rest =>
      let b := Byte.to_N byte in
      let restart :=
        match lead b with
        | Emit c => (code_units c ++ decode_from None rest)%list
        | Need needed lower upper cp => decode_from (Some (needed, lower, upper, cp)) rest
        end in
      match state with
      | None => restart
      | Some (needed, lower, upper, cp) =>
          if (lower <=? b) && (b <=? upper) then
            let cp' := cp * 64 + (b - 0x80) in
            match needed with
            | S (S n) => decode_from (Some (S n, 0x80, 0xBF, cp')) rest
            | _ => (code_units cp' ++ decode_from None rest)%list
            end
          else REPLACEMENT :: restart
      end
  end.

Definition utf8_decode (bs : bytes) : text := decode_from None bs.

(** No surrogate stands alone ([String.prototype.isWellFormed]). *)
Fixpoint well_formed (s : text) : bool :=
  match s with
  | [] => true
  | u :: rest =>
      if is_high u then
        match rest with
        | l :: rest' => is_low l && well_formed rest'
        | [] => false
        end
      else negb (is_low u) && (u <? 0x10000) && well_formed rest
  end.

(** [String.prototype.toWellFormed]: every surrogate that stands alone
    becomes U+FFFD. *)
Fixpoint toWellFormed (s : text) : text :=
  match s with
  | [] => []
  | u :: rest =>
      if is_high u then
        match rest with
        | l :: rest' =>
            if is_low l then u :: l :: toWellFormed rest'
            else REPLACEMENT :: toWellFormed rest
        | [] => [REPLACEMENT]
        end
      else if is_low u then REPLACEMENT :: toWellFormed rest
      else u :: toWellFormed rest
  end.

End Utf8.

(** ** The AES-256-GCM primitive of the runtime

    [crypto.createCipheriv('aes-256-gcm', key, iv)] and its decipher are the
    runtime's; the embedding takes what they compute as an interface. *)
Class AesGcm : Type := {
  (** the key and the IV are accepted by [createCipheriv] and
      [createDecipheriv] *)
  gcm_init_ok : bytes -> bytes -> bool;
  (** [update] (with [final]) under a key and an IV: the counter-mode
      transformation, the same in both directions *)
  gcm_crypt : bytes -> bytes -> bytes -> bytes;
  (** [getAuthTag()] after encryption: key, IV, ciphertext *)
  gcm_tag : bytes -> bytes -> bytes -> bytes;
  (** [final()] of the decipher finds the ciphertext authentic: key, IV,
      ciphertext, and the tag given to [setAuthTag] *)
  gcm_check : bytes -> bytes -> bytes -> bytes -> bool
}.

(** The lengths of a tag that [setAuthTag] accepts for GCM when the
    decipher was created without [authTagLength]: 4, 8 and 12 to 16
    bytes. *)
Definition isValidGcmTagLength (n : nat) : bool :=
  ((n =? 4) || (n =? 8) || ((12 <=? n) && (n <=? 16)))%nat.

(** What the embedding relies on: a 32-byte key with a 16-byte IV is
    accepted; decryption undoes encryption; the tag the cipher issues has
    16 bytes; and [final()] accepts a tag of a valid length exactly when it
    is the beginning of the tag that the cipher issues for this key, IV and
    ciphertext. *)
Class AesGcmLaws (G : AesGcm) : Prop := {
  gcm_init_256 : forall key iv,
    length key = 32%nat -> length iv = 16%nat -> gcm_init_ok key iv = true;
  gcm_crypt_inv : forall key iv data,
    gcm_crypt key iv (gcm_crypt key iv data) = data;
  gcm_tag_16 : forall key iv ct,
    length (gcm_tag key iv ct) = 16%nat;
  gcm_check_prefix : forall key iv ct tag,
    isValidGcmTagLength (length tag) = true ->
    (gcm_check key iv ct tag = true
     <-> tag = firstn (length tag) (gcm_tag key iv ct))
}.

Inductive CryptoFailure : Type :=
| InvalidArgument   (* a TypeError: [undefined] where a string is expected,
                       or hexadecimal text of odd length given to [update] *)
| InvalidKeyOrIv    (* thrown by createCipheriv / createDecipheriv *)
| InvalidAuthTag    (* thrown by setAuthTag: the length of the tag *)
| AuthenticationFailed.  (* thrown by final *)

Inductive result (A : Type) : Type :=
| Ok (a : A)
| Err (e : CryptoFailure).
Arguments Ok {A} a.
Arguments Err {A} e.

Section WithPrimitive.
Context {G : AesGcm}.

(** [encryptPHI(data, key)].  The first argument is the value of
    [crypto.randomBytes(16)] in this call. *)
Definition encryptPHI (iv : bytes) (data : text) (key : bytes) : result string :=
  if negb (gcm_init_ok key iv) then Err InvalidKeyOrIv
  else
    let encrypted := gcm_crypt key iv (utf8_encode data) in
    let authTag := gcm_tag key iv encrypted in
    Ok (toHex iv ++ ":" ++ toHex authTag ++ ":" ++ toHex encrypted).

(** [decryptPHI(encryptedData, key)].  The destructuring takes the first
    three fields of the split; a field that is missing is [undefined] and
    the first use of it throws.  [Buffer.from(..., 'hex')] reads the IV and
    the tag; [decipher.update(encrypted, 'hex', 'utf8')] refuses text of odd
    length and reads the rest in the same way.  What [update] has decrypted
    is returned only when [final] has accepted the tag. *)
Definition decryptPHI (encryptedData : string) (key : bytes) : result text :=
  let parts := split colon encryptedData in
  match nth_error parts 0, nth_error parts 1 with
  | Some ivHex, Some authTagHex =>
      let iv := fromHex ivHex in
      let authTag := fromHex authTagHex in
      if negb (gcm_init_ok key iv) then Err InvalidKeyOrIv
      else if negb (isValidGcmTagLength (length authTag)) then Err InvalidAuthTag
      else
        match nth_error parts 2 with
        | Some encrypted =>
            if Nat.odd (String.length encrypted) then Err InvalidArgument
            else
              let ct := fromHex encrypted in
              let decrypted := utf8_decode (gcm_crypt key iv ct) in
              if gcm_check key iv ct authTag then Ok decrypted
              else Err AuthenticationFailed
        | None => Err InvalidArgument
        end
  | _, _ => Err InvalidArgument
  end.

End WithPrimitive.

(** ** A stand-in primitive, to run the functions on concrete inputs

    The transformation reverses the data; the tag is the first 16 bytes of
    the ciphertext followed by the IV and zeros; a tag is accepted when it
    is the beginning of that one.  It has the four laws and no secrecy. *)

Fixpoint bytes_eqb (a b : bytes) : bool :=
  match a, b with
  | [], [] => true
  | x :: a', y :: b' => Byte.eqb x y && bytes_eqb a' b'
  | _, _ => false
  end.

Definition demo_tag (iv ct : bytes) : bytes :=
  firstn 16 (ct ++ iv ++ repeat Byte.x00 16)%list.

Definition demoGcm : AesGcm := {|
  gcm_init_ok key iv := (length key =? 32)%nat && negb (length iv =? 0)%nat;
  gcm_crypt key iv data := rev data;
  gcm_tag key iv ct := demo_tag iv ct;
  gcm_check key iv ct tag := bytes_eqb tag (firstn (length tag) (demo_tag iv ct))
|}.

Definition demo_key : bytes := repeat Byte.x2a 32.
Definition demo_iv : bytes := repeat Byte.x01 16.
Definition demo_iv' : bytes := repeat Byte.x02 16.

End Cipher.

(* ================================================================== *)
(** * Errors, events and the world of a Lambda invocation *)
(* ================================================================== *)

Module Lambda.
Import Json.

(** The class of a thrown value, as [instanceof] tells it.  The package
    has [AppError] and its subclasses twice.  [handler.ts] declares its own
    (lines 26-83), and the [instanceof] tests of [withErrorHandler] and
    [validateRequest] are against these.  [index.ts] (lines 18-25) exports,
    under the same names, the classes of the module [errors], and these
    are what a service imports from the package and throws. *)
Inductive ErrorClass : Type :=
| PlainError          (* new Error(message) *)
| SyntaxErrorC        (* thrown by JSON.parse *)
| AppErrorC           (* the classes of the module errors *)
| ValidationErrorC
| UnauthorizedErrorC
| ForbiddenErrorC
| NotFoundErrorC
| HandlerAppErrorC    (* the classes that handler.ts declares *)
| HandlerValidationErrorC
| HandlerUnauthorizedErrorC
| HandlerForbiddenErrorC
| HandlerNotFoundErrorC.

Record Thrown : Type := {
  err_class : ErrorClass;
  err_code : option string;
  err_message : string;
  err_statusCode : option Z
}.

Definition mkError (message : string) : Thrown :=
  {| err_class := PlainError; err_code := None;
     err_message := message; err_statusCode := None |}.
Definition mkSyntaxError : Thrown :=
  {| err_class := SyntaxErrorC; err_code := None;
     err_message := "Unexpected token in JSON"; err_statusCode := None |}.

(** Modelled from the spec: the module [errors] of the package is not
    among the sources.  Its [ValidationError] is taken with the code and
    the status of its namesake in [handler.ts]. *)
Definition mkValidationError (message : string) : Thrown :=
  {| err_class := ValidationErrorC; err_code := Some "VALIDATION_ERROR";
     err_message := message; err_statusCode := Some 400 |}.

(** Modelled from the spec: the module [errors] of the package is not
    among the sources.  Its [UnauthorizedError] is the authentication
    error of the spec, with status 401. *)
Definition mkUnauthorizedError (message : string) : Thrown :=
  {| err_class := UnauthorizedErrorC; err_code := Some "UNAUTHORIZED";
     err_message := message; err_statusCode := Some 401 |}.

(** The constructors of [handler.ts]:
    [new AppError(code, message, statusCode)] and its subclasses. *)
Definition mkHandlerAppError (code message : string) (status : Z) : Thrown :=
  {| err_class := HandlerAppErrorC; err_code := Some code;
     err_message := message; err_statusCode := Some status |}.
Definition mkHandlerValidationError (message : string) : Thrown :=
  {| err_class := HandlerValidationErrorC; err_code := Some "VALIDATION_ERROR";
     err_message := message; err_statusCode := Some 400 |}.
Definition mkHandlerForbiddenError (message : string) : Thrown :=
  {| err_class := HandlerForbiddenErrorC; err_code := Some "FORBIDDEN";
     err_message := message; err_statusCode := Some 403 |}.
Definition mkHandlerNotFoundError (message : string) : Thrown :=
  {| err_class := HandlerNotFoundErrorC; err_code := Some "NOT_FOUND";
     err_message := message; err_statusCode := Some 404 |}.

(** [error instanceof AppError] in [handler.ts]: the class that file
    declares and its subclasses.  An error of the module [errors] is not
    one of them. *)
Definition instanceof_AppError (e : Thrown) : bool :=
  match err_class e with
  | HandlerAppErrorC | HandlerValidationErrorC | HandlerUnauthorizedErrorC
  | HandlerForbiddenErrorC | HandlerNotFoundErrorC => true
  | _ => false
  end.

(** [error instanceof UnauthorizedError || error instanceof ForbiddenError]
    in [handler.ts] *)
Definition is_security_error (e : Thrown) : bool :=
  match err_class e with
  | HandlerUnauthorizedErrorC | HandlerForbiddenErrorC => true
  | _ => false
  end.

Inductive Outcome (A : Type) : Type :=
| Returned (a : A)
| Threw (e : Thrown).
Arguments Returned {A} a.
Arguments Threw {A} e.

(** A string that is handed to [JSON.parse]: either the text of a JSON
    value or some other text. *)
Inductive Text : Type :=
| Doc (j : json)      (* JSON.stringify(j) *)
| Raw (s : string).   (* not JSON *)

Definition text_truthy (t : Text) : bool :=
  match t with
  | Doc _ => true
  | Raw s => negb (String.eqb s "")
  end.

Definition JSON_parse (t : Text) : Outcome json :=
  match t with
  | Doc j => Returned j
  | Raw _ => Threw mkSyntaxError
  end.

Record Response : Type := {
  statusCode : Z;
  headers : list (string * string);
  body : option Text
}.

Record AuthContext : Type := {
  userId : string;
  email : string;
  role : string;
  userType : string
}.

Record Identity : Type := {
  cognitoIdentityId : option string;
  userArn : option string;
  sourceIp : string
}.

(** The fields of the event that the middlewares read or write.
    [request_authorization] is [event.request?.headers?.authorization]. *)
Record Event : Type := {
  httpMethod : string;
  path : string;
  ev_headers : list (string * string);
  ev_body : option Text;
  pathParameters_id : option string;
  identity : Identity;
  request_authorization : option string;
  authContext : option AuthContext
}.

Record Context : Type := {
  awsRequestId : string;
  remainingTimeInMillis : Z
}.

Inductive EntryId : Type :=
| Uuid (n : nat)              (* the n-th value of uuidv4() *)
| RequestId (s : string).     (* context.awsRequestId *)

Record AuditError : Type := {
  ae_message : string;
  ae_code : option string
}.

Record AuditLogEntry : Type := {
  id : EntryId;
  timestamp : Z;
  entry_userId : string;
  action : string;
  resource : string;
  resourceId : option string;
  method : string;
  endpoint : string;
  entry_statusCode : Z;
  ipAddress : string;
  userAgent : option string;
  requestBody : option json;
  responseBody : option json;
  phiAccessed : bool;
  error : option AuditError;
  duration : Z
}.

(** One call of [dynamoDB.put]: the item and whether the table took it. *)
Record Put : Type := {
  put_entry : AuditLogEntry;
  put_timestamp : Z;
  put_ttl : Z;
  put_accepted : bool
}.

(** The world of one invocation.  The event object is shared by all the
    layers of the pipeline, so it is part of the state.  [put_faults] is
    the fate of the coming calls of [dynamoDB.put], [true] for a call that
    rejects; [now] is the clock; [uuids] counts the calls of [uuidv4]. *)
Record World : Type := {
  event : Event;
  audit_puts : list Put;
  console : list string;
  put_faults : list bool;
  now : Z;
  uuids : nat
}.

Definition set_event (ev : Event) (w : World) : World :=
  {| event := ev; audit_puts := audit_puts w; console := console w;
     put_faults := put_faults w; now := now w; uuids := uuids w |}.

(** [event.body = b] and [event.authContext = a] on the shared event. *)
Definition with_body (b : option Text) (ev : Event) : Event :=
  {| httpMethod := httpMethod ev; path := path ev;
     ev_headers := ev_headers ev; ev_body := b;
     pathParameters_id := pathParameters_id ev;
     identity := identity ev;
     request_authorization := request_authorization ev;
     authContext := authContext ev |}.

Definition with_authContext (a : option AuthContext) (ev : Event) : Event :=
  {| httpMethod := httpMethod ev; path := path ev;
     ev_headers := ev_headers ev; ev_body := ev_body ev;
     pathParameters_id := pathParameters_id ev;
     identity := identity ev;
     request_authorization := request_authorization ev;
     authContext := a |}.

Definition console_error (line : string) (w : World) : World :=
  {| event := event w; audit_puts := audit_puts w;
     console := console w ++ [line];
     put_faults := put_faults w; now := now w; uuids := uuids w |}.

Definition take_uuid (w : World) : EntryId * World :=
  (Uuid (uuids w),
   {| event := event w; audit_puts := audit_puts w; console := console w;
      put_faults := put_faults w; now := now w; uuids := S (uuids w) |}).

Definition LambdaHandler : Type := Context -> World -> World * Outcome Response.
Definition Middleware : Type := LambdaHandler -> LambdaHandler.

(** [a || b] on strings that may be [null]: the empty string is falsy. *)
Definition or_else (a : option string) (b : string) : string :=
  match a with
  | Some s => if String.eqb s "" then b else s
  | None => b
  end.

Definition or_else_opt (a b : option string) : option string :=
  match a with
  | Some s => if String.eqb s "" then b else a
  | None => b
  end.

Fixpoint header (hs : list (string * string)) (name : string) : option string :=
  match hs with
  | [] => None
  | (k, v) :: rest => if String.eqb k name then Some v else header rest name
  end.

(** ** auditLog.ts *)

(** [createAuditLog(entry)]: the put is tried once; a rejection is caught,
    written to the console and not rethrown.  The function has no way to
    throw. *)
Definition createAuditLog (entry : AuditLogEntry) (w : World) : World :=
  let timestamp := now w in
  let ttl := now w / 1000 + 7 * 365 * 24 * 60 * 60 in
  let rejected := match put_faults w with b :: _ => b | [] => false end in
  let w1 :=
    {| event := event w;
       audit_puts := audit_puts w ++
         [{| put_entry := entry; put_timestamp := timestamp; put_ttl := ttl;
             put_accepted := negb rejected |}];
       console := console w;
       put_faults := tail (put_faults w);
       now := now w; uuids := uuids w |} in
  if rejected then console_error "Failed to create audit log:" w1 else w1.

Record AuditLogOptions : Type := {
  resourceType : string;
  opt_phiAccessed : option bool
}.

(** [x ? sanitizeBody(JSON.parse(x)) : undefined] *)
Definition snapshot (t : option Text) : Outcome (option json) :=
  match t with
  | Some t =>
      if text_truthy t then
        match JSON_parse t with
        | Returned j => Returned (Some (AuditRedaction.sanitizeBody j))
        | Threw e => Threw e
        end
      else Returned None
  | None => Returned None
  end.

(** The [finally] block of [withAuditLog], up to the call of
    [createAuditLog]: the entry, or the error that building it throws. *)
Definition auditEntry (options : AuditLogOptions) (startTime : Z)
    (out : Outcome Response) (w : World) : World * Outcome AuditLogEntry :=
  let ev := event w in
  let duration := now w - startTime in
  let response := match out with Returned r => Some r | Threw _ => None end in
  let error := match out with Threw e => Some e | Returned _ => None end in
  let '(uuid, w1) := take_uuid w in
  let status :=
    match error with
    | Some _ => 500
    | None =>
        match response with
        | Some r => if statusCode r =? 0 then 200 else statusCode r
        | None => 200
        end
    end in
  match snapshot (ev_body ev) with
  | Threw e => (w1, Threw e)
  | Returned reqBody =>
      match snapshot (match response with Some r => body r | None => None end) with
      | Threw e => (w1, Threw e)
      | Returned respBody =>
          (w1, Returned
            {| id := uuid;
               timestamp := now w;
               entry_userId :=
                 or_else (or_else_opt (cognitoIdentityId (identity ev))
                                      (userArn (identity ev))) "anonymous";
               action := httpMethod ev ++ " " ++ path ev;
               resource := resourceType options;
               resourceId := pathParameters_id ev;
               method := httpMethod ev;
               endpoint := path ev;
               entry_statusCode := status;
               ipAddress := sourceIp (identity ev);
               userAgent := header (ev_headers ev) "User-Agent";
               requestBody := reqBody;
               responseBody := respBody;
               phiAccessed :=
                 match opt_phiAccessed options with Some b => b | None => false end;
               error :=
                 match error with
                 | Some e => Some {| ae_message := err_message e; ae_code := err_code e |}
                 | None => None
                 end;
               duration := duration |})
      end
  end.

(** [withAuditLog(options)(handler)]: [try { return await handler } catch
    { throw } finally { ... await createAuditLog(auditEntry) }].  When the
    [finally] block completes, the outcome is the handler's; when it throws,
    the outcome is that error. *)
Definition withAuditLog (options : AuditLogOptions) : Middleware :=
  fun handler context w =>
    let startTime := now w in
    let '(w1, out) := handler context w in
    match auditEntry options startTime out w1 with
    | (w2, Returned entry) => (createAuditLog entry w2, out)
    | (w2, Threw e) => (w2, Threw e)
    end.

(** ** handler.ts *)

Definition error_body (code message : string) : Text :=
  Doc (JObj [("success", JBool false);
             ("error", JObj [("code", JStr code); ("message", JStr message)])]).

(** [AppError.prototype.toResponse]; the [details] of a validation error
    are left out of the body. *)
Definition toResponse (e : Thrown) : Response :=
  {| statusCode := match err_statusCode e with Some s => s | None => 500 end;
     headers :=
       [("Content-Type", "application/json");
        ("Cache-Control", "no-store, no-cache, must-revalidate, proxy-revalidate");
        ("Pragma", "no-cache"); ("Expires", "0");
        ("Surrogate-Control", "no-store")];
     body := Some (error_body (match err_code e with Some c => c | None => "" end)
                              (err_message e)) |}.

Definition LOGIN_FAILED : string := "LOGIN_FAILED".

(** The entry [withErrorHandler] writes for a security error. *)
Definition securityEntry (e : Thrown) (context : Context) (w : World)
  : AuditLogEntry :=
  let ev := event w in
  {| id := RequestId (awsRequestId context);
     timestamp := now w;
     entry_userId := or_else (cognitoIdentityId (identity ev)) "anonymous";
     action := LOGIN_FAILED;
     resource := path ev;
     resourceId := pathParameters_id ev;
     method := httpMethod ev;
     endpoint := path ev;
     entry_statusCode := match err_statusCode e with Some s => s | None => 500 end;
     ipAddress := or_else (Some (sourceIp (identity ev))) "unknown";
     userAgent := Some (or_else (header (ev_headers ev) "User-Agent") "unknown");
     requestBody := None;
     responseBody := None;
     phiAccessed := false;
     error := Some {| ae_message := err_message e; ae_code := err_code e |};
     duration := now w - remainingTimeInMillis context |}.

(** [withErrorHandler(handler)] *)
Definition withErrorHandler : Middleware :=
  fun handler context w =>
    match handler context w with
    | (w1, Returned result) => (w1, Returned result)
    | (w1, Threw error) =>
        let w2 := console_error "Error:" w1 in
        let w3 :=
          if is_security_error error
          then createAuditLog (securityEntry error context w2) w2
          else w2 in
        if instanceof_AppError error then (w3, Returned (toResponse error))
        else (w3, Returned (toResponse
               (mkHandlerAppError "INTERNAL_SERVER_ERROR"
                                  "An unexpected error occurred" 500)))
    end.

Fixpoint set_header (hs : list (string * string)) (k v : string)
  : list (string * string) :=
  match hs with
  | [] => [(k, v)]
  | (k', v') :: rest =>
      if String.eqb k' k then (k', v) :: rest else (k', v') :: set_header rest k v
  end.

Definition securityHeaders : list (string * string) :=
  [("Strict-Transport-Security", "max-age=31536000; includeSubDomains; preload");
   ("Content-Security-Policy", "default-src 'self'");
   ("X-Content-Type-Options", "nosniff");
   ("X-Frame-Options", "DENY");
   ("X-XSS-Protection", "1; mode=block");
   ("Referrer-Policy", "strict-origin-when-cross-origin");
   ("Cache-Control", "no-store, no-cache, must-revalidate, proxy-revalidate");
   ("Pragma", "no-cache"); ("Expires", "0");
   ("Surrogate-Control", "no-store")].

(** [withSecurityHeaders(handler)]: no [try]; an error passes through. *)
Definition withSecurityHeaders : Middleware :=
  fun handler context w =>
    match handler context w with
    | (w1, Returned response) =>
        (w1, Returned
               {| statusCode := statusCode response;
                  headers := fold_left (fun hs kv => set_header hs (fst kv) (snd kv))
                                       securityHeaders (headers response);
                  body := body response |})
    | (w1, Threw e) => (w1, Threw e)
    end.

(** The [schema] argument of [validateRequest], which is typed [any].  A
    Joi schema has a [validate] method, which gives the validated value or
    a validation error; on an object without one the call
    [schema.validate(...)] throws a [TypeError]. *)
Inductive Schema : Type :=
| Validator (validate : json -> option json)
| NoValidate.

(** [event.body ? JSON.parse(event.body) : {}] *)
Definition requestData (ev : Event) : Outcome json :=
  match ev_body ev with
  | Some t => if text_truthy t then JSON_parse t else Returned (JObj [])
  | None => Returned (JObj [])
  end.

(** [validateRequest(schema)(handler)].  The validated value is written
    back to [event.body].  The handler is returned without [await], so its
    rejection is not seen by the [catch] of this layer.  The [catch]
    rethrows a [ValidationError] of [handler.ts] and turns everything else,
    the [SyntaxError] of [JSON.parse] and the [TypeError] of a missing
    [validate] among them, into ['Invalid request body']. *)
Definition validateRequest (schema : Schema) : Middleware :=
  fun handler context w =>
    match requestData (event w) with
    | Threw _ => (w, Threw (mkHandlerValidationError "Invalid request body"))
    | Returned data =>
        match schema with
        | NoValidate => (w, Threw (mkHandlerValidationError "Invalid request body"))
        | Validator validate =>
            match validate data with
            | None => (w, Threw (mkHandlerValidationError "Validation failed"))
            | Some value =>
                handler context
                  (set_event (with_body (Some (Doc value)) (event w)) w)
            end
        end
    end.

(** ** utils/middleware.ts *)

(** [compose(...middlewares)(handler)]: [reduceRight], the first middleware
    outermost. *)
Definition compose (middlewares : list Middleware) : Middleware :=
  fun handler => fold_right (fun middleware acc => middleware acc) handler middlewares.

(** ** middleware/auth.ts *)

(** What the token verifier of the identity provider answers: the claims
    of a token it accepts. *)
Record Claims : Type := {
  claim_sub : string;
  claim_email : option string;
  claim_role : option string;
  claim_userType : option string
}.
Definition Verifier : Type := string -> option Claims.

(** [authenticate(token)] *)
Definition authenticate (verify : Verifier) (token : string) : Outcome AuthContext :=
  match verify token with
  | Some payload =>
      Returned {| userId := claim_sub payload;
                  email := or_else (claim_email payload) "";
                  role := or_else (claim_role payload) "patient";
                  userType := or_else (claim_userType payload) "client" |}
  | None => Threw (mkError "Invalid or expired token")
  end.

(** [authorize(allowedRoles)(context)] *)
Definition authorize (allowedRoles : list string) (context : AuthContext)
  : Outcome unit :=
  if JsString.includes allowedRoles (role context) then Returned tt
  else Threw (mkError "Insufficient permissions").

End Lambda.

(* ================================================================== *)
(** * The database, KMS and the effects of a resolver *)
(* ================================================================== *)

Module Backend.
Import Json Lambda.

Record PatientRow : Type := {
  pat_id : string;
  pat_user_id : option string;
  pat_mrn : string;
  pat_ssn : option string;               (* demographics.ssn, as stored *)
  pat_insurance : option string;
  pat_preferredLanguage : option string;
  pat_updatedBy : option string
}.

Record MedicalRecordRow : Type := {
  mr_id : string;
  mr_patient_id : string;
  mr_provider_id : string;
  mr_record_type : string;
  mr_date : string;
  mr_title : string;
  mr_content_encrypted : option string;
  mr_icd10_codes : option Text;
  mr_cpt_codes : option Text;
  mr_medications : option Text;
  mr_lab_results : option Text;
  mr_created_at : string;
  mr_updated_at : string
}.

Record AppointmentRow : Type := {
  ap_id : string;
  ap_patient_id : string;
  ap_provider_id : string;
  ap_appointment_date : string;
  ap_duration : Z;
  ap_type : string;
  ap_status : string;
  ap_reason : option string;
  ap_notes : option string;
  ap_location : option string;
  ap_is_virtual : bool;
  ap_reminder_sent : bool;
  ap_created_at : string;
  ap_updated_at : string
}.

Record AccessLogRow : Type := {
  al_id : nat;
  al_medical_record_id : string;
  al_user_id : string;
  al_action : string;
  al_timestamp : Z
}.

Record AuditLogRow : Type := {
  au_id : nat;
  au_user_id : string;
  au_action : string;
  au_resource : string;
  au_resource_id : option string;
  au_phi_accessed : bool;
  au_timestamp : Z
}.

(** A row of [medical_records] or [appointments] with the columns the
    [LEFT JOIN patients p] adds ([NULL] when there is no such patient). *)
Record Joined (Row : Type) : Type := {
  joined_row : Row;
  joined_mrn : option string;
  patient_user_id : option string
}.
Arguments joined_row {Row} _.
Arguments joined_mrn {Row} _.
Arguments patient_user_id {Row} _.

(** The statements the embedded functions send. *)
Inductive Query : Type :=
| SelectRecord (recordId : string)
    (* SELECT mr.*, p.mrn, p.user_id as patient_user_id, ...
       FROM medical_records mr LEFT JOIN patients p ... WHERE mr.id = :recordId *)
| SelectAppointment (appointmentId : string)
    (* SELECT a.*, p.mrn, p.user_id as patient_user_id, ...
       FROM appointments a LEFT JOIN patients p ... WHERE a.id = :appointmentId *)
| SelectPatientByUser (userId : string)
    (* SELECT * FROM patients WHERE user_id = $1 *)
| SelectPatientById (patientId : string).
    (* SELECT * FROM patients WHERE id = $1 *)

(** What a statement's select list asks for. *)
Inductive Columns : Type :=
| AllColumns       (* mr.*, a.* or *: the whole row, protected columns included *)
| OwnerIdOnly.     (* the owner's identifier and nothing else *)

Definition columns_of (q : Query) : Columns :=
  match q with
  | SelectRecord _ => AllColumns
  | SelectAppointment _ => AllColumns
  | SelectPatientByUser _ => AllColumns
  | SelectPatientById _ => AllColumns
  end.

Inductive DbOp : Type :=
| OpQuery
| OpInsert (table : string)
| OpUpdate (table : string).

(** What a resolver does to the outside, in order.  [Decided] is not an
    effect of the code: it marks the place of the authorization test and
    records its result. *)
Inductive Effect : Type :=
| Queried (q : Query) (found : bool)
| Decrypted (ciphertext : string)
| Encrypted (plaintext : string)
| Inserted (table : string)
| Updated (table : string) (rowId : string)
| Decided (allowed : bool).

Record World : Type := {
  patients : list PatientRow;
  medical_records : list MedicalRecordRow;
  appointments : list AppointmentRow;
  access_logs : list AccessLogRow;     (* medical_record_access_logs *)
  audit_logs : list AuditLogRow;
  db_fault : DbOp -> bool;             (* the statement is rejected *)
  kms_decrypt : string -> option string;
  kms_encrypt : string -> option string;
  trace : list Effect;
  clock : Z;
  fresh_uuid : nat
}.

Definition log_effect (e : Effect) (w : World) : World :=
  {| patients := patients w; medical_records := medical_records w;
     appointments := appointments w; access_logs := access_logs w;
     audit_logs := audit_logs w; db_fault := db_fault w;
     kms_decrypt := kms_decrypt w; kms_encrypt := kms_encrypt w;
     trace := trace w ++ [e]; clock := clock w; fresh_uuid := fresh_uuid w |}.

Definition dbError : Thrown := mkError "Database query error".
Definition kmsError : Thrown := mkError "KMS request failed".

Definition find_patient (w : World) (patientId : string) : option PatientRow :=
  find (fun p => String.eqb (pat_id p) patientId) (patients w).

Definition join_patient {Row : Type} (w : World) (patientId : string) (r : Row)
  : Joined Row :=
  match find_patient w patientId with
  | Some p => {| joined_row := r; joined_mrn := Some (pat_mrn p);
                 patient_user_id := pat_user_id p |}
  | None => {| joined_row := r; joined_mrn := None; patient_user_id := None |}
  end.

(** [db.queryOne] for the joined record query. *)
Definition queryRecord (recordId : string) (w : World)
  : World * Outcome (option (Joined MedicalRecordRow)) :=
  if db_fault w OpQuery
  then (log_effect (Queried (SelectRecord recordId) false) w, Threw dbError)
  else
    match find (fun r => String.eqb (mr_id r) recordId) (medical_records w) with
    | Some r => (log_effect (Queried (SelectRecord recordId) true) w,
                 Returned (Some (join_patient w (mr_patient_id r) r)))
    | None => (log_effect (Queried (SelectRecord recordId) false) w, Returned None)
    end.

(** [db.queryOne] for the joined appointment query. *)
Definition queryAppointment (appointmentId : string) (w : World)
  : World * Outcome (option (Joined AppointmentRow)) :=
  if db_fault w OpQuery
  then (log_effect (Queried (SelectAppointment appointmentId) false) w, Threw dbError)
  else
    match find (fun a => String.eqb (ap_id a) appointmentId) (appointments w) with
    | Some a => (log_effect (Queried (SelectAppointment appointmentId) true) w,
                 Returned (Some (join_patient w (ap_patient_id a) a)))
    | None => (log_effect (Queried (SelectAppointment appointmentId) false) w,
               Returned None)
    end.

(** [db.queryOne] on the patients table. *)
Definition queryPatient (q : Query) (w : World) : World * Outcome (option PatientRow) :=
  if db_fault w OpQuery then (log_effect (Queried q false) w, Threw dbError)
  else
    let hit :=
      match q with
      | SelectPatientByUser u =>
          find (fun p => match pat_user_id p with
                         | Some u' => String.eqb u' u
                         | None => false
                         end) (patients w)
      | SelectPatientById i => find_patient w i
      | _ => None
      end in
    (log_effect (Queried q (match hit with Some _ => true | None => false end)) w,
     Returned hit).

(** [encryption.decryptWithKMS] *)
Definition decryptWithKMS (ciphertext : string) (w : World) : World * Outcome string :=
  let w1 := log_effect (Decrypted ciphertext) w in
  match kms_decrypt w ciphertext with
  | Some plaintext => (w1, Returned plaintext)
  | None => (w1, Threw kmsError)
  end.

(** [encryption.encryptWithKMS] *)
Definition encryptWithKMS (plaintext : string) (w : World) : World * Outcome string :=
  let w1 := log_effect (Encrypted plaintext) w in
  match kms_encrypt w plaintext with
  | Some ciphertext => (w1, Returned ciphertext)
  | None => (w1, Threw kmsError)
  end.

(** [db.insert('medical_record_access_logs', ...)] *)
Definition insertAccessLog (recordId userId action : string) (w : World)
  : World * Outcome unit :=
  let w1 := log_effect (Inserted "medical_record_access_logs") w in
  if db_fault w (OpInsert "medical_record_access_logs") then (w1, Threw dbError)
  else
    ({| patients := patients w1; medical_records := medical_records w1;
        appointments := appointments w1;
        access_logs := access_logs w1 ++
          [{| al_id := fresh_uuid w1; al_medical_record_id := recordId;
              al_user_id := userId; al_action := action;
              al_timestamp := clock w1 |}];
        audit_logs := audit_logs w1; db_fault := db_fault w1;
        kms_decrypt := kms_decrypt w1; kms_encrypt := kms_encrypt w1;
        trace := trace w1; clock := clock w1;
        fresh_uuid := S (fresh_uuid w1) |}, Returned tt).

(** [db.insert('audit_logs', ...)] *)
Definition insertAuditLog (userId action resource : string)
    (resourceId : option string) (phi : bool) (w : World) : World * Outcome unit :=
  let w1 := log_effect (Inserted "audit_logs") w in
  if db_fault w (OpInsert "audit_logs") then (w1, Threw dbError)
  else
    ({| patients := patients w1; medical_records := medical_records w1;
        appointments := appointments w1; access_logs := access_logs w1;
        audit_logs := audit_logs w1 ++
          [{| au_id := fresh_uuid w1; au_user_id := userId; au_action := action;
              au_resource := resource; au_resource_id := resourceId;
              au_phi_accessed := phi; au_timestamp := clock w1 |}];
        db_fault := db_fault w1;
        kms_decrypt := kms_decrypt w1; kms_encrypt := kms_encrypt w1;
        trace := trace w1; clock := clock w1;
        fresh_uuid := S (fresh_uuid w1) |}, Returned tt).

(** The identity of an AppSync call: [sub] and the role claim. *)
Record CognitoIdentity : Type := {
  sub : string;
  custom_role : option string
}.

Definition role_is (r : option string) (name : string) : bool :=
  match r with
  | Some s => String.eqb s name
  | None => false
  end.

(** [a !== userId] for a column that may be [NULL]. *)
Definition differs (column : option string) (userId : string) : bool :=
  match column with
  | Some s => negb (String.eqb s userId)
  | None => true
  end.

Definition nonempty (s : option string) : option string :=
  match s with
  | Some x => if String.eqb x "" then None else Some x
  | None => None
  end.

End Backend.

(* ================================================================== *)
(** * Resolvers: sequencing *)
(* ================================================================== *)

Module Resolver.
Import Lambda Backend.

(** An asynchronous function over the backend: it changes the world and
    returns or throws. *)
Definition M (A : Type) : Type := World -> World * Outcome A.

Definition ret {A : Type} (a : A) : M A := fun w => (w, Returned a).
Definition throw {A : Type} (e : Thrown) : M A := fun w => (w, Threw e).

(** [await m] followed by the rest of the function; an error ends it. *)
Definition bind {A B : Type} (m : M A) (k : A -> M B) : M B :=
  fun w =>
    match m w with
    | (w1, Returned a) => k a w1
    | (w1, Threw e) => (w1, Threw e)
    end.

(** The mark of the authorization test. *)
Definition decided (allowed : bool) : M unit :=
  fun w => (log_effect (Decided allowed) w, Returned tt).

Definition lift {A : Type} (o : Outcome A) : M A := fun w => (w, o).

End Resolver.

Declare Scope resolver_scope.
Delimit Scope resolver_scope with resolver.
Notation "x <- m ;; k" := (Resolver.bind m (fun x => k))
  (at level 100, m at next level, right associativity) : resolver_scope.
Notation "m ;;; k" := (Resolver.bind m (fun _ => k))
  (at level 100, k at level 200, right associativity) : resolver_scope.

(* ================================================================== *)
(** * medical-record-service *)
(* ================================================================== *)

Module MedicalRecordService.
Import Json Lambda Backend Resolver.
Local Open Scope resolver_scope.

Record MedicalRecord : Type := {
  id : string;
  patientId : string;
  providerId : string;
  recordType : string;
  date : string;
  title : string;
  content : string;
  icd10Codes : json;
  cptCodes : json;
  medications : json;
  labResults : json;
  createdAt : string;
  updatedAt : string
}.

(** [column ? JSON.parse(column) : []] *)
Definition parse_or_empty (column : option Text) : Outcome json :=
  match column with
  | Some t => if text_truthy t then JSON_parse t else Returned (JArr [])
  | None => Returned (JArr [])
  end.

(** [formatMedicalRecord(record)], [record.content] being the second
    argument. *)
Definition formatMedicalRecord (record : Joined MedicalRecordRow)
    (content : option string) : M MedicalRecord :=
  let r := joined_row record in
  icd <- lift (parse_or_empty (mr_icd10_codes r)) ;;
  cpt <- lift (parse_or_empty (mr_cpt_codes r)) ;;
  med <- lift (parse_or_empty (mr_medications r)) ;;
  lab <- lift (parse_or_empty (mr_lab_results r)) ;;
  ret {| id := mr_id r;
         patientId := mr_patient_id r;
         providerId := mr_provider_id r;
         recordType := mr_record_type r;
         date := mr_date r;
         title := mr_title r;
         content := or_else content "[Encrypted]";
         icd10Codes := icd; cptCodes := cpt; medications := med; labResults := lab;
         createdAt := mr_created_at r;
         updatedAt := mr_updated_at r |}.

(** [logAccessEvent(data)]: the insert is awaited with no [try]. *)
Definition logAccessEvent (userId recordId action : string) : M unit :=
  insertAccessLog recordId userId action.

(** [logHipaaEvent(data)]: the insert is awaited with no [try]. *)
Definition logHipaaEvent (userId action resource : string)
    (resourceId : option string) (phiAccessed : bool) : M unit :=
  insertAuditLog userId action resource resourceId phiAccessed.

Definition NOT_FOUND_MESSAGE : string := "Medical record not found".
Definition DENIED_MESSAGE : string := "Access denied to medical record".

(** [getMedicalRecord(id, identity)] *)
Definition getMedicalRecord (id : string) (identity : CognitoIdentity)
  : M MedicalRecord :=
  let userId := sub identity in
  let userRole := custom_role identity in
  record <- queryRecord id ;;
  match record with
  | None => throw (mkError NOT_FOUND_MESSAGE)
  | Some record =>
      let denied :=
        role_is userRole "PATIENT" && differs (patient_user_id record) userId in
      decided (negb denied) ;;;
      if denied then throw (mkError DENIED_MESSAGE)
      else
        content <-
          match nonempty (mr_content_encrypted (joined_row record)) with
          | Some ciphertext =>
              plaintext <- decryptWithKMS ciphertext ;; ret (Some plaintext)
          | None => ret None
          end ;;
        logAccessEvent userId id "ACCESSED" ;;;
        logHipaaEvent userId "MEDICAL_RECORD_ACCESSED" "medical_record"
                      (Some id) true ;;;
        formatMedicalRecord record content
  end.

End MedicalRecordService.

(* ================================================================== *)
(** * appointment-service *)
(* ================================================================== *)

Module AppointmentService.
Import Json Lambda Backend Resolver.
Local Open Scope resolver_scope.

Record Appointment : Type := {
  id : string;
  patientId : string;
  providerId : string;
  appointmentDate : string;
  duration : Z;
  type : string;
  status : string;
  reason : option string;
  notes : option string;
  location : option string;
  isVirtual : bool;
  reminderSent : bool;
  createdAt : string;
  updatedAt : string
}.

(** [formatAppointment(appointment)] *)
Definition formatAppointment (appointment : Joined AppointmentRow) : Appointment :=
  let a := joined_row appointment in
  {| id := ap_id a;
     patientId := ap_patient_id a;
     providerId := ap_provider_id a;
     appointmentDate := ap_appointment_date a;
     duration := ap_duration a;
     type := ap_type a;
     status := ap_status a;
     reason := ap_reason a;
     notes := ap_notes a;
     location := ap_location a;
     isVirtual := ap_is_virtual a;
     reminderSent := ap_reminder_sent a;
     createdAt := ap_created_at a;
     updatedAt := ap_updated_at a |}.

(** [logHipaaEvent(data)] of this service: the same insert, no [try]. *)
Definition logHipaaEvent (userId action resource : string)
    (resourceId : option string) (phiAccessed : bool) : M unit :=
  insertAuditLog userId action resource resourceId phiAccessed.

Definition NOT_FOUND_MESSAGE : string := "Appointment not found".
Definition DENIED_MESSAGE : string := "Access denied to appointment".

(** [getAppointment(id, identity)]; the role is read as
    [identity['custom:role']]. *)
Definition getAppointment (id : string) (identity : CognitoIdentity)
  : M Appointment :=
  let userId := sub identity in
  let userRole := custom_role identity in
  appointment <- queryAppointment id ;;
  match appointment with
  | None => throw (mkError NOT_FOUND_MESSAGE)
  | Some appointment =>
      let denied :=
        role_is userRole "PATIENT" && differs (patient_user_id appointment) userId in
      decided (negb denied) ;;;
      if denied then throw (mkError DENIED_MESSAGE)
      else
        logHipaaEvent userId "APPOINTMENT_ACCESSED" "appointment" (Some id) true ;;;
        ret (formatAppointment appointment)
  end.

End AppointmentService.

(* ================================================================== *)
(** * patient-service *)
(* ================================================================== *)

Module PatientService.
Import Json Lambda Backend Resolver.
Local Open Scope resolver_scope.

(** ** lambda.ts: the pipeline *)

Definition VIEW_ROLES : list string := ["ADMIN"; "DOCTOR"; "NURSE"; "PATIENT"; "GUARDIAN"].
Definition MODIFY_ROLES : list string := ["ADMIN"; "DOCTOR"].

(** [withAuth]: the token is [event.request?.headers?.authorization]. *)
Definition withAuth (verify : Verifier) : Middleware :=
  fun handler context w =>
    match nonempty (request_authorization (Lambda.event w)) with
    | None => (w, Threw (mkUnauthorizedError "No authentication token provided"))
    | Some token =>
        match authenticate verify token with
        | Threw e => (w, Threw e)
        | Returned authContext =>
            handler context
              (set_event (with_authContext (Some authContext) (Lambda.event w)) w)
        end
    end.

Definition auditOptions : AuditLogOptions :=
  {| resourceType := "PATIENT"; opt_phiAccessed := Some true |}.

(** [validation.ts], lines 79-83: [patientSchema] is a plain object that
    holds the Joi schemas of three operations under their names.  It has
    no [validate] method of its own. *)
Definition patientSchema : Schema := NoValidate.

(** [compose(withErrorHandler, withSecurityHeaders, withAuth,
    withAuditLog({...}), validateRequest(schema))].  The source passes
    [patientSchema] to the last layer; the layers are composed here for any
    schema, and [handler] below is the pipeline of the source. *)
Definition withMiddleware (verify : Verifier) (schema : Schema) : Middleware :=
  compose [withErrorHandler; withSecurityHeaders; withAuth verify;
           withAuditLog auditOptions; validateRequest schema].

(** [handler = withMiddleware(adaptedHandler)], the export of the
    service. *)
Definition handler (verify : Verifier) (adaptedHandler : LambdaHandler)
  : LambdaHandler :=
  withMiddleware verify patientSchema adaptedHandler.

(** ** functions: getPatient and updatePatient *)

Record FunctionIdentity : Type := {
  fi_sub : string;
  fi_role : string;       (* claims['custom:role'] *)
  fi_userType : string
}.

Definition toFunctionIdentity (authContext : AuthContext) : FunctionIdentity :=
  {| fi_sub := userId authContext;
     fi_role := role authContext;
     fi_userType := userType authContext |}.

(** [decryptSensitiveData(patient)] *)
Definition decryptSensitiveData (patient : PatientRow) : M PatientRow :=
  match nonempty (pat_ssn patient) with
  | Some ciphertext =>
      ssn <- decryptWithKMS ciphertext ;;
      ret {| pat_id := pat_id patient; pat_user_id := pat_user_id patient;
             pat_mrn := pat_mrn patient; pat_ssn := Some ssn;
             pat_insurance := pat_insurance patient;
             pat_preferredLanguage := pat_preferredLanguage patient;
             pat_updatedBy := pat_updatedBy patient |}
  | None => ret patient
  end.

Definition UNAUTHORIZED : Thrown := mkError "Unauthorized".

(** [getPatient(id, identity)]; [None] is [null]. *)
Definition getPatient (id : string) (identity : FunctionIdentity)
  : M (option PatientRow) :=
  let userId := fi_sub identity in
  let role := fi_role identity in
  query <-
    (if String.eqb role "PATIENT" then ret (SelectPatientByUser userId)
     else if JsString.includes ["PROVIDER"; "ADMIN"; "NURSE"] role
          then ret (SelectPatientById id)
          else throw UNAUTHORIZED) ;;
  result <- queryPatient query ;;
  match result with
  | None => ret None
  | Some patient => decrypted <- decryptSensitiveData patient ;; ret (Some decrypted)
  end.

(** The fields of [UpdatePatientInput] the function reads.  The outer
    option of [in_demographics] is the presence of the object, the inner one
    its [ssn]. *)
Record UpdatePatientInput : Type := {
  in_demographics : option (option string);
  in_insurance : option string;
  in_preferredLanguage : option string
}.

Record PatientUpdates : Type := {
  up_updatedBy : string;
  up_demographics : option (option string);
  up_insurance : option string;
  up_preferredLanguage : option string
}.

Definition apply_updates (u : PatientUpdates) (p : PatientRow) : PatientRow :=
  {| pat_id := pat_id p; pat_user_id := pat_user_id p; pat_mrn := pat_mrn p;
     pat_ssn := match up_demographics u with Some d => d | None => pat_ssn p end;
     pat_insurance :=
       match up_insurance u with Some i => Some i | None => pat_insurance p end;
     pat_preferredLanguage :=
       match up_preferredLanguage u with
       | Some l => Some l
       | None => pat_preferredLanguage p
       end;
     pat_updatedBy := Some (up_updatedBy u) |}.

(** [db.update('patients', id, updates)] *)
Definition updatePatientRow (id : string) (u : PatientUpdates) : M unit :=
  fun w =>
    let w1 := log_effect (Updated "patients" id) w in
    if db_fault w (OpUpdate "patients") then (w1, Threw dbError)
    else
      ({| patients :=
            map (fun p => if String.eqb (pat_id p) id then apply_updates u p else p)
                (patients w1);
          medical_records := medical_records w1;
          appointments := appointments w1; access_logs := access_logs w1;
          audit_logs := audit_logs w1; db_fault := db_fault w1;
          kms_decrypt := kms_decrypt w1; kms_encrypt := kms_encrypt w1;
          trace := trace w1; clock := clock w1; fresh_uuid := fresh_uuid w1 |},
       Returned tt).

(** [updatePatient(id, input, identity)] *)
Definition updatePatient (id : string) (input : UpdatePatientInput)
    (identity : FunctionIdentity) : M (option PatientRow) :=
  let userId := fi_sub identity in
  let role := fi_role identity in
  if negb (JsString.includes ["PROVIDER"; "ADMIN"; "NURSE"] role)
  then throw UNAUTHORIZED
  else
    demographics <-
      match in_demographics input with
      | Some d =>
          match nonempty d with
          | Some ssn => encryptedSSN <- encryptWithKMS ssn ;;
                        ret (Some (Some encryptedSSN))
          | None => ret (Some d)
          end
      | None => ret None
      end ;;
    let updates :=
      {| up_updatedBy := userId;
         up_demographics := demographics;
         up_insurance := nonempty (in_insurance input);
         up_preferredLanguage := nonempty (in_preferredLanguage input) |} in
    updatePatientRow id updates ;;;
    getPatient id identity.

(** ** lambda.ts: baseHandler *)

(** The caller, as [baseHandler] sees it; [guardianFor] is read through
    [(authContext as any).guardianFor]. *)
Record Caller : Type := {
  auth : AuthContext;
  guardianFor : option (list string)
}.

(** [hasPatientAccess(patientId)] *)
Definition hasPatientAccess (caller : Caller) (patientId : string) : bool :=
  let authContext := auth caller in
  String.eqb (role authContext) "ADMIN"
  || String.eqb (role authContext) "DOCTOR"
  || String.eqb (role authContext) "NURSE"
  || (String.eqb (role authContext) "PATIENT"
      && String.eqb (userId authContext) patientId)
  || (String.eqb (role authContext) "GUARDIAN"
      && match guardianFor caller with
         | Some wards => JsString.includes wards patientId
         | None => false
         end).

(** The two operations of the [switch] that read or update one patient. *)
Inductive Operation : Type :=
| GetPatientOp
| UpdatePatientOp.

Record PatientArguments : Type := {
  arg_id : option string;
  arg_input : option UpdatePatientInput
}.

Definition READ_DENIED : Thrown :=
  mkUnauthorizedError "You do not have access to this patient's information".
Definition UPDATE_DENIED : Thrown :=
  mkUnauthorizedError "You do not have permission to update this patient's information".

(** [baseHandler(event)], cases ['getPatient'] and ['updatePatient']. *)
Definition baseHandler (fieldName : Operation) (args : PatientArguments)
    (caller : Caller) : M (option PatientRow) :=
  let identity := toFunctionIdentity (auth caller) in
  match fieldName with
  | GetPatientOp =>
      match nonempty (arg_id args) with
      | None => throw (mkValidationError "Patient ID is required")
      | Some id =>
          if negb (hasPatientAccess caller id) then throw READ_DENIED
          else getPatient id identity
      end
  | UpdatePatientOp =>
      match nonempty (arg_id args) with
      | None => throw (mkValidationError "Patient ID is required")
      | Some id =>
          match arg_input args with
          | None => throw (mkValidationError "Update input is required")
          | Some input =>
              if negb (hasPatientAccess caller id) then throw UPDATE_DENIED
              else updatePatient id input identity
          end
      end
  end.

(** ** lambda.ts: convertToAppSyncHandler *)

(** The identity of an AppSync event, as [convertToAppSyncHandler] reads
    it: [identity.sub] and, under [identity.claims], [email],
    ['custom:role'] and ['custom:userType'].  Each may be missing. *)
Record AppSyncClaims : Type := {
  cl_email : option string;
  cl_role : option string;
  cl_userType : option string
}.

Record AppSyncIdentity : Type := {
  id_sub : option string;
  id_claims : option AppSyncClaims
}.

(** The fields of the AppSync event that are read; [ev_identity] is
    [None] for an identity that is [null]. *)
Record AppSyncEvent : Type := {
  ev_fieldName : Operation;
  ev_arguments : PatientArguments;
  ev_identity : option AppSyncIdentity
}.

(** [a ?? b] *)
Definition nullish (a : option string) (b : string) : string :=
  match a with
  | Some s => s
  | None => b
  end.

(** [convertToAppSyncHandler(handler)].  The [authContext] the handler
    gets is built here, from the identity of the event alone; it is a new
    object with four fields, so it has no [guardianFor]. *)
Definition convertToAppSyncHandler
    (handler : Operation -> PatientArguments -> Caller -> M (option PatientRow))
    (event : AppSyncEvent) : M (option PatientRow) :=
  let identity := ev_identity event in
  let claims := match identity with Some i => id_claims i | None => None end in
  let authContext :=
    {| userId := nullish (match identity with Some i => id_sub i | None => None end) "";
       email := nullish (match claims with Some c => cl_email c | None => None end) "";
       role := nullish (match claims with Some c => cl_role c | None => None end)
                       "PATIENT";
       userType := nullish (match claims with Some c => cl_userType c | None => None end)
                           "client" |} in
  handler (ev_fieldName event) (ev_arguments event)
          {| auth := authContext; guardianFor := None |}.

End PatientService.

(* ================================================================== *)
(** * Concrete worlds, for the runs below *)
(* ================================================================== *)

Module Demo.
Import Json Lambda.

Definition identity0 : Identity :=
  {| cognitoIdentityId := None; userArn := None; sourceIp := "10.0.0.1" |}.

Definition event_of (token : option string) (requestBody : option Text) : Event :=
  {| httpMethod := "POST"; path := "/graphql/getPatient";
     ev_headers := [("User-Agent", "curl")];
     ev_body := requestBody;
     pathParameters_id := Some "u1";
     identity := identity0;
     request_authorization := token;
     authContext := None |}.

Definition world_of (ev : Event) (faults : list bool) : Lambda.World :=
  {| event := ev; audit_puts := []; console := [];
     put_faults := faults; now := 1700000000000; uuids := 0 |}.

Definition context0 : Context :=
  {| awsRequestId := "req-1"; remainingTimeInMillis := 3000 |}.

(** The identity provider knows one token, of the patient [u2]. *)
Definition verify0 : Verifier :=
  fun token =>
    if String.eqb token "token-u2"
    then Some {| claim_sub := "u2"; claim_email := None;
                 claim_role := Some "PATIENT"; claim_userType := Some "client" |}
    else None.

(** A schema that accepts every value as it is. *)
Definition schema0 : Schema := Validator (fun value => Some value).

(** A handler that rejects as [baseHandler] does when [hasPatientAccess]
    is false. *)
Definition denying_handler : LambdaHandler :=
  fun _ w => (w, Threw PatientService.READ_DENIED).

Definition ok_handler : LambdaHandler :=
  fun _ w => (w, Returned {| statusCode := 200; headers := [];
                            body := Some (Doc (JObj [("id", JStr "u1")])) |}).


Import Backend.

Definition patient1 : PatientRow :=
  {| pat_id := "p1"; pat_user_id := Some "u1"; pat_mrn := "MRN000001";
     pat_ssn := Some "kms:ssn"; pat_insurance := None;
     pat_preferredLanguage := Some "en"; pat_updatedBy := None |}.

Definition record1 : MedicalRecordRow :=
  {| mr_id := "rec-1"; mr_patient_id := "p1"; mr_provider_id := "d1";
     mr_record_type := "NOTE"; mr_date := "2024-01-01"; mr_title := "Visit";
     mr_content_encrypted := Some "kms:note";
     mr_icd10_codes := Some (Doc (JArr [JStr "J10"]));
     mr_cpt_codes := None; mr_medications := None; mr_lab_results := None;
     mr_created_at := "2024-01-01"; mr_updated_at := "2024-01-01" |}.

Definition appointment1 : AppointmentRow :=
  {| ap_id := "apt-1"; ap_patient_id := "p1"; ap_provider_id := "d1";
     ap_appointment_date := "2024-02-01T09:00:00Z"; ap_duration := 30;
     ap_type := "CHECKUP"; ap_status := "SCHEDULED";
     ap_reason := None; ap_notes := None; ap_location := None;
     ap_is_virtual := false; ap_reminder_sent := false;
     ap_created_at := "2024-01-01"; ap_updated_at := "2024-01-01" |}.

Definition backend (fault : DbOp -> bool) : Backend.World :=
  {| patients := [patient1];
     medical_records := [record1];
     appointments := [appointment1];
     access_logs := []; audit_logs := [];
     db_fault := fault;
     kms_decrypt := fun c => Some ("plain of " ++ c);
     kms_encrypt := fun p => Some ("kms:" ++ p);
     trace := []; clock := 1700000000000; fresh_uuid := 0 |}.

Definition no_fault : DbOp -> bool := fun _ => false.

(** The [audit_logs] table rejects inserts; everything else works. *)
Definition audit_down : DbOp -> bool :=
  fun op =>
    match op with
    | OpInsert table => String.eqb table "audit_logs"
    | _ => false
    end.

(** The patient who owns [rec-1] and [apt-1], and another patient. *)
Definition owner : CognitoIdentity := {| sub := "u1"; custom_role := Some "PATIENT" |}.
Definition other : CognitoIdentity := {| sub := "u2"; custom_role := Some "PATIENT" |}.

Definition owner_caller : PatientService.Caller :=
  {| PatientService.auth :=
       {| userId := "u1"; email := "u1@example.org";
          role := "PATIENT"; userType := "client" |};
     PatientService.guardianFor := None |}.

(** A heap with a nested object under a denylisted key's sibling. *)
Definition heap0 : gmap Store.loc Store.object :=
  <[1%positive := Store.OObj [("name", Store.VStr "Jane");
                              ("password", Store.VStr "secret");
                              ("creditCard", Store.VStr "4111");
                              ("child", Store.VRef 2%positive)]]>
  (<[2%positive := Store.OArr [Store.VRef 3%positive; Store.VNum 1]]>
  (<[3%positive := Store.OObj [("Token", Store.VStr "t")]]> ∅)).


End Demo.

(* ================================================================== *)
(** * Properties of traces and heaps *)
(* ================================================================== *)

Module Properties.
Import Backend.

(** The effect reads or changes content of a protected resource: a query
    that found a row and selected all its columns, a decryption, an update. *)
Definition touches_content (e : Effect) : bool :=
  match e with
  | Queried q true =>
      match columns_of q with
      | AllColumns => true
      | OwnerIdOnly => false
      end
  | Decrypted _ | Updated _ _ => true
  | _ => false
  end.

(** Effects that follow the fetch of the row: decryption, encryption and
    every write. *)
Definition guarded (e : Effect) : bool :=
  match e with
  | Decrypted _ | Encrypted _ | Inserted _ | Updated _ _ => true
  | _ => false
  end.

(** Every effect that [P] selects comes after a positive decision. *)
Definition decision_precedes (P : Effect -> bool) (tr : list Effect) : Prop :=
  forall pre e post,
    tr = (pre ++ e :: post)%list -> P e = true -> In (Decided true) pre.

(** The same, decided by one pass over the trace; [allowed] tells whether
    a positive decision has been seen. *)
Fixpoint guards_ok (P : Effect -> bool) (allowed : bool) (tr : list Effect) : bool :=
  match tr with
  | [] => true
  | e :: rest =>
      (negb (P e) || allowed)
      && guards_ok P (match e with Decided true => true | _ => allowed end) rest
  end.




(** The status codes of the audit entries a call has put, in order. *)
Definition put_statuses (w : Lambda.World) : list Z :=
  map (fun p => Lambda.entry_statusCode (Lambda.put_entry p)) (Lambda.audit_puts w).

Definition response_status (o : Lambda.Outcome Lambda.Response) : option Z :=
  match o with
  | Lambda.Returned r => Some (Lambda.statusCode r)
  | Lambda.Threw _ => None
  end.

End Properties.

(* ================================================================== *)
(** * Roles and the login dispatch of auth-service *)
(* ================================================================== *)

Module Roles.
Import JsString.

(** The members of the [UserRole] and [UserType] enums are their names as
    strings; a role read from a user-pool attribute is any string. *)
Definition STAFF_ROLES : list string :=
  ["ADMIN"; "PROVIDER"; "NURSE"; "RECEPTIONIST"; "STAFF"].

Definition CLIENT_ROLES : list string := ["PATIENT"; "GUARDIAN"].

Definition isStaffRole (role : string) : bool := includes STAFF_ROLES role.

Definition isClientRole (role : string) : bool := includes CLIENT_ROLES role.

(** [validateUserRoleAndType(role, userType)] *)
Definition validateUserRoleAndType (role userType : string) : bool :=
  if isStaffRole role && negb (String.eqb userType "SERVICE_PROVIDER") then false
  else if String.eqb role "PATIENT" && negb (String.eqb userType "CLIENT") then false
  else if String.eqb role "GUARDIAN" && negb (String.eqb userType "GUARDIAN") then false
  else true.

End Roles.

Module AuthService.
Import Lambda Backend Roles.

(** [UserAttributes?.find(attr => attr.Name === name)?.Value]: the list
    may be missing, and so may the value of an attribute. *)
Definition attribute (attrs : option (list (string * option string)))
    (name : string) : option string :=
  match attrs with
  | Some l =>
      match find (fun a => String.eqb (fst a) name) l with
      | Some a => snd a
      | None => None
      end
  | None => None
  end.

(** The login function the [login] case of the handler hands over to. *)
Inductive LoginRoute : Type :=
| StaffLogin
| PatientLogin
| GuardianLogin.

(** The [login] case of [handler], from the attributes that
    [AdminGetUser] returned to the choice of the login function. *)
Definition loginRoute (attrs : option (list (string * option string)))
  : Outcome LoginRoute :=
  match nonempty (attribute attrs "custom:role") with
  | None => Threw (mkUnauthorizedError "User role not assigned")
  | Some role =>
      match nonempty (attribute attrs "custom:userType") with
      | None => Threw (mkUnauthorizedError "User type not assigned")
      | Some userType =>
          if negb (validateUserRoleAndType role userType)
          then Threw (mkUnauthorizedError "Invalid role and user type combination")
          else if isStaffRole role then Returned StaffLogin
          else if String.eqb role "PATIENT" then Returned PatientLogin
          else if String.eqb role "GUARDIAN" then Returned GuardianLogin
          else Threw (mkUnauthorizedError "Invalid user role")
      end
  end.

End AuthService.

(* ================================================================== *)
(** * The database client: parameters and statements *)
(* ================================================================== *)

Module DatabaseClient.

(** [Array.prototype.join] on strings. *)
Fixpoint join (sep : string) (l : list string) : string :=
  match l with
  | [] => ""
  | [x] => x
  | x :: rest => x ++ sep ++ join sep rest
  end.

Section WithNumbers.

(** JavaScript numbers are taken as they are, with [Number.isInteger]. *)
Variable number : Type.
Variable isInteger : number -> bool.

(** A value handed to a statement. *)
Inductive Param : Type :=
| PNull
| PString (s : string)
| PNumber (n : number)
| PBoolean (b : bool)
| PDate (iso : string)      (* a Date; [iso] is its [toISOString()] *)
| PObject (text : string)   (* another object; [text] is its [JSON.stringify] *)
| POther.                   (* [undefined], a function, a symbol, a bigint *)

(** The [Field] union of the Data API, as far as [formatParameters] sets
    it. *)
Inductive Field : Type :=
| isNull
| stringValue (s : string)
| longValue (n : number)
| doubleValue (n : number)
| booleanValue (b : bool).

(** A [SqlParameter]; [value] is absent when no branch assigned it. *)
Record SqlParameter : Type := {
  name : string;
  value : option Field
}.

Definition formatParameter (index : nat) (param : Param) : SqlParameter :=
  {| name := "param" ++ pretty index;
     value :=
       match param with
       | PNull => Some isNull
       | PString s => Some (stringValue s)
       | PNumber n => if isInteger n then Some (longValue n) else Some (doubleValue n)
       | PBoolean b => Some (booleanValue b)
       | PDate iso => Some (stringValue iso)
       | PObject text => Some (stringValue text)
       | POther => None
       end |}.

(** [formatParameters(params)] *)
Definition formatParameters (params : list Param) : list SqlParameter :=
  imap formatParameter params.

(** What [executeStatement] hands to the Data API. *)
Record Command : Type := {
  sql : string;
  parameters : list SqlParameter
}.

(** [keys.map((_, i) => `:param${i}`)] *)
Definition placeholders (keys : list string) : list string :=
  imap (fun i _ => ":param" ++ pretty i) keys.

(** The statement of [insert(table, data)]; [data] is the object, as the
    list of its properties in order. *)
Definition insert_command (table : string) (data : list (string * Param)) : Command :=
  let keys := map fst data in
  let values := map snd data in
  {| sql := "
      INSERT INTO " ++ table ++ " (" ++ join ", " keys ++ ")
      VALUES (" ++ join ", " (placeholders keys) ++ ")
      RETURNING *
    ";
     parameters := formatParameters values |}.

(** [keys.map((key, i) => `${key} = :param${i}`)] *)
Definition assignments (keys : list string) : list string :=
  imap (fun i key => key ++ " = :param" ++ pretty i) keys.

(** The statement of [update(table, id, data)]. *)
Definition update_command (table id : string) (data : list (string * Param)) : Command :=
  let keys := map fst data in
  let values := map snd data in
  {| sql := "
      UPDATE " ++ table ++ "
      SET " ++ join ", " (assignments keys) ++ ", updated_at = NOW()
      WHERE id = :id
      RETURNING *
    ";
     parameters := formatParameters (values ++ [PString id]) |}.

(** The statement of [delete(table, id)]. *)
Definition delete_command (table id : string) : Command :=
  {| sql := "DELETE FROM " ++ table ++ " WHERE id = :id";
     parameters := formatParameters [PString id] |}.

End WithNumbers.

Arguments PNull {number}.
Arguments PString {number} s.
Arguments PNumber {number} n.
Arguments PBoolean {number} b.
Arguments PDate {number} iso.
Arguments PObject {number} text.
Arguments POther {number}.
Arguments isNull {number}.
Arguments stringValue {number} s.
Arguments longValue {number} n.
Arguments doubleValue {number} n.
Arguments booleanValue {number} b.
Arguments name {number} _.
Arguments value {number} _.
Arguments sql {number} _.
Arguments parameters {number} _.
Arguments formatParameter {number} isInteger index param.
Arguments formatParameters {number} isInteger params.
Arguments insert_command {number} isInteger table data.
Arguments update_command {number} isInteger table id data.
Arguments delete_command {number} isInteger table id.

End DatabaseClient.

(* ================================================================== *)
(** * The resolver entry points of the two services *)
(* ================================================================== *)

(** What a handler writes to the console: the event it received, in full,
    and the error it is about to rethrow. *)
Inductive LogLine (Event : Type) : Type :=
| LoggedEvent (event : Event)
| LoggedError (error : Lambda.Thrown).
Arguments LoggedEvent {Event} event.
Arguments LoggedError {Event} error.

Module MedicalRecordLambda.
Import Lambda Backend Resolver.
Local Open Scope resolver_scope.

Section WithResolvers.

(** The resolvers that are not embedded are parameters of the handler,
    with the types of their arguments and of what they return. *)
Variables Filter Input Document Other : Type.
Variable emptyFilter : Filter.
Variable listMedicalRecords :
  Filter -> Z -> option string -> CognitoIdentity -> M Other.
Variable createMedicalRecord : Input -> CognitoIdentity -> M Other.
Variable updateMedicalRecord : string -> Input -> CognitoIdentity -> M Other.
Variable deleteMedicalRecord : string -> CognitoIdentity -> M Other.
Variable uploadDocument : Document -> CognitoIdentity -> M Other.

Record Arguments : Type := {
  arg_id : option string;
  arg_filter : option Filter;
  arg_limit : option Z;
  arg_nextToken : option string;
  arg_input : option Input;
  arg_document : option Document
}.

Record Event : Type := {
  fieldName : string;
  arguments : Arguments;
  identity : option CognitoIdentity
}.

Inductive Result : Type :=
| OfGetMedicalRecord (record : MedicalRecordService.MedicalRecord)
| OfOther (result : Other).

(** The [try] block. *)
Definition dispatch (event : Event) : M Result :=
  let args := arguments event in
  match identity event with
  | None => throw (mkError "Unauthorized")
  | Some cognitoIdentity =>
      if String.eqb (sub cognitoIdentity) "" then throw (mkError "Unauthorized")
      else if String.eqb (fieldName event) "getMedicalRecord" then
        match nonempty (arg_id args) with
        | None => throw (mkError "Medical record ID is required")
        | Some id =>
            record <- MedicalRecordService.getMedicalRecord id cognitoIdentity ;;
            ret (OfGetMedicalRecord record)
        end
      else if String.eqb (fieldName event) "listMedicalRecords" then
        result <- listMedicalRecords
                    (match arg_filter args with Some f => f | None => emptyFilter end)
                    (match arg_limit args with Some n => n | None => 20 end)
                    (arg_nextToken args) cognitoIdentity ;;
        ret (OfOther result)
      else if String.eqb (fieldName event) "createMedicalRecord" then
        match arg_input args with
        | None => throw (mkError "Medical record input is required")
        | Some input =>
            result <- createMedicalRecord input cognitoIdentity ;; ret (OfOther result)
        end
      else if String.eqb (fieldName event) "updateMedicalRecord" then
        match nonempty (arg_id args), arg_input args with
        | Some id, Some input =>
            result <- updateMedicalRecord id input cognitoIdentity ;;
            ret (OfOther result)
        | _, _ => throw (mkError "Medical record ID and update input are required")
        end
      else if String.eqb (fieldName event) "deleteMedicalRecord" then
        match nonempty (arg_id args) with
        | None => throw (mkError "Medical record ID is required")
        | Some id =>
            result <- deleteMedicalRecord id cognitoIdentity ;; ret (OfOther result)
        end
      else if String.eqb (fieldName event) "uploadDocument" then
        match arg_document args with
        | None => throw (mkError "Document input is required")
        | Some document =>
            result <- uploadDocument document cognitoIdentity ;; ret (OfOther result)
        end
      else throw (mkError ("Unknown field: " ++ fieldName event))
  end.

(** [handler(event)]: the console is threaded beside the backend. *)
Definition handler (event : Event) (w : World) (console : list (LogLine Event))
  : World * list (LogLine Event) * Outcome Result :=
  let console1 := (console ++ [LoggedEvent event])%list in
  match dispatch event w with
  | (w', Returned result) => (w', console1, Returned result)
  | (w', Threw error) => (w', (console1 ++ [LoggedError error])%list, Threw error)
  end.

End WithResolvers.

Arguments arg_id {Filter Input Document} _.
Arguments arg_filter {Filter Input Document} _.
Arguments arg_limit {Filter Input Document} _.
Arguments arg_nextToken {Filter Input Document} _.
Arguments arg_input {Filter Input Document} _.
Arguments arg_document {Filter Input Document} _.
Arguments fieldName {Filter Input Document} _.
Arguments arguments {Filter Input Document} _.
Arguments identity {Filter Input Document} _.
Arguments OfGetMedicalRecord {Other} record.
Arguments OfOther {Other} result.

End MedicalRecordLambda.

Module AppointmentLambda.
Import Lambda Backend Resolver.
Local Open Scope resolver_scope.

Section WithResolvers.

Variables Filter Input Other : Type.
Variable emptyFilter : Filter.
Variable listAppointments :
  Filter -> Z -> option string -> CognitoIdentity -> M Other.
Variable getAvailableSlots : string -> string -> CognitoIdentity -> M Other.
Variable createAppointment : Input -> CognitoIdentity -> M Other.
Variable updateAppointment : string -> Input -> CognitoIdentity -> M Other.
Variable cancelAppointment : string -> string -> CognitoIdentity -> M Other.
Variable confirmAppointment : string -> CognitoIdentity -> M Other.

Record Arguments : Type := {
  arg_id : option string;
  arg_input : option Input;
  arg_filter : option Filter;
  arg_limit : option Z;
  arg_nextToken : option string;
  arg_providerId : option string;
  arg_date : option string;
  arg_reason : option string
}.

Record Event : Type := {
  fieldName : string;
  arguments : Arguments;
  identity : option CognitoIdentity
}.

Inductive Result : Type :=
| OfGetAppointment (appointment : AppointmentService.Appointment)
| OfOther (result : Other).

(** The [try] block. *)
Definition dispatch (event : Event) : M Result :=
  let args := arguments event in
  match identity event with
  | None => throw (mkError "Unauthorized")
  | Some identity =>
      if String.eqb (sub identity) "" then throw (mkError "Unauthorized")
      else if String.eqb (fieldName event) "getAppointment" then
        match nonempty (arg_id args) with
        | None => throw (mkError "Appointment ID is required")
        | Some id =>
            appointment <- AppointmentService.getAppointment id identity ;;
            ret (OfGetAppointment appointment)
        end
      else if String.eqb (fieldName event) "listAppointments" then
        result <- listAppointments
                    (match arg_filter args with Some f => f | None => emptyFilter end)
                    (match arg_limit args with Some n => n | None => 20 end)
                    (arg_nextToken args) identity ;;
        ret (OfOther result)
      else if String.eqb (fieldName event) "getAvailableSlots" then
        match nonempty (arg_providerId args), nonempty (arg_date args) with
        | Some providerId, Some date =>
            result <- getAvailableSlots providerId date identity ;; ret (OfOther result)
        | _, _ => throw (mkError "Provider ID and date are required")
        end
      else if String.eqb (fieldName event) "createAppointment" then
        match arg_input args with
        | None => throw (mkError "Appointment input is required")
        | Some input =>
            result <- createAppointment input identity ;; ret (OfOther result)
        end
      else if String.eqb (fieldName event) "updateAppointment" then
        match nonempty (arg_id args), arg_input args with
        | Some id, Some input =>
            result <- updateAppointment id input identity ;; ret (OfOther result)
        | _, _ => throw (mkError "Appointment ID and input are required")
        end
      else if String.eqb (fieldName event) "cancelAppointment" then
        match nonempty (arg_id args), nonempty (arg_reason args) with
        | Some id, Some reason =>
            result <- cancelAppointment id reason identity ;; ret (OfOther result)
        | _, _ => throw (mkError "Appointment ID and reason are required")
        end
      else if String.eqb (fieldName event) "confirmAppointment" then
        match nonempty (arg_id args) with
        | None => throw (mkError "Appointment ID is required")
        | Some id =>
            result <- confirmAppointment id identity ;; ret (OfOther result)
        end
      else throw (mkError ("Unknown field: " ++ fieldName event))
  end.

(** [handler(event)]: the console is threaded beside the backend. *)
Definition handler (event : Event) (w : World) (console : list (LogLine Event))
  : World * list (LogLine Event) * Outcome Result :=
  let console1 := (console ++ [LoggedEvent event])%list in
  match dispatch event w with
  | (w', Returned result) => (w', console1, Returned result)
  | (w', Threw error) => (w', (console1 ++ [LoggedError error])%list, Threw error)
  end.

End WithResolvers.

Arguments arg_id {Filter Input} _.
Arguments arg_input {Filter Input} _.
Arguments arg_filter {Filter Input} _.
Arguments arg_limit {Filter Input} _.
Arguments arg_nextToken {Filter Input} _.
Arguments arg_providerId {Filter Input} _.
Arguments arg_date {Filter Input} _.
Arguments arg_reason {Filter Input} _.
Arguments fieldName {Filter Input} _.
Arguments arguments {Filter Input} _.
Arguments identity {Filter Input} _.
Arguments OfGetAppointment {Other} appointment.
Arguments OfOther {Other} result.

End AppointmentLambda.

(* ================================================================== *)
(** * Values the runs are compared with *)
(* ================================================================== *)

Module Expected.
Import Lambda.

(** The response for an error that is not an [AppError]. *)
Definition internalError : Response :=
  toResponse
    (mkHandlerAppError "INTERNAL_SERVER_ERROR" "An unexpected error occurred" 500).

(** What the owner's read of [Demo.record1] returns. *)
Definition record1_read : MedicalRecordService.MedicalRecord :=
  {| MedicalRecordService.id := "rec-1";
     MedicalRecordService.patientId := "p1";
     MedicalRecordService.providerId := "d1";
     MedicalRecordService.recordType := "NOTE";
     MedicalRecordService.date := "2024-01-01";
     MedicalRecordService.title := "Visit";
     MedicalRecordService.content := "plain of kms:note";
     MedicalRecordService.icd10Codes := Json.JArr [Json.JStr "J10"];
     MedicalRecordService.cptCodes := Json.JArr [];
     MedicalRecordService.medications := Json.JArr [];
     MedicalRecordService.labResults := Json.JArr [];
     MedicalRecordService.createdAt := "2024-01-01";
     MedicalRecordService.updatedAt := "2024-01-01" |}.

End Expected.

(* ================================================================== *)
(** * Theorems *)
(* ================================================================== *)

Section StringFacts.

Lemma length_stars (n : nat) : String.length (JsString.stars n) = n.
Proof. induction n as [|n IH]; simpl; [reflexivity | now rewrite IH]. Qed.

Lemma length_string_app (s t : string) :
  String.length (s ++ t) = (String.length s + String.length t)%nat.
Proof. induction s as [|c s IH]; simpl; [reflexivity | now rewrite IH]. Qed.

Lemma length_substring (s : string) :
  forall n m : nat, (n + m <= String.length s)%nat ->
    String.length (String.substring n m s) = m.
Proof.
  induction s as [|c s IH]; intros n m H; simpl in H.
  - assert (n = 0%nat) by lia. assert (m = 0%nat) by lia. subst. reflexivity.
  - destruct n as [|n]; simpl.
    + destruct m as [|m]; simpl; [reflexivity|].
      f_equal. apply IH. simpl. lia.
    + apply IH. lia.
Qed.

End StringFacts.

(* ------------------------------------------------------------------ *)
(** ** Masking *)

Section MaskFacts.
Import JsString Mask.

Lemma eqb_empty_length (s : string) :
  String.eqb s "" = (String.length s =? 0)%nat.
Proof. destruct s; reflexivity. Qed.

Lemma substring2_prefix (s : string) (n : nat) :
  (n <= String.length s)%nat ->
  substring2 s 0 (Z.of_nat n) = String.substring 0 n s.
Proof.
  intros H. unfold substring2, clamp.
  replace (Z.max 0 (Z.min 0 (Z.of_nat (String.length s)))) with 0 by lia.
  replace (Z.max 0 (Z.min (Z.of_nat n) (Z.of_nat (String.length s))))
    with (Z.of_nat n) by lia.
  replace (Z.min 0 (Z.of_nat n)) with 0 by lia.
  replace (Z.max 0 (Z.of_nat n) - 0) with (Z.of_nat n) by lia.
  now rewrite Nat2Z.id.
Qed.

Lemma substring1_suffix (s : string) (n : nat) :
  (n <= String.length s)%nat ->
  substring1 s (Z.of_nat (String.length s) - Z.of_nat n)
  = String.substring (String.length s - n) n s.
Proof.
  intros H. unfold substring1, substring2, clamp.
  set (len := Z.of_nat (String.length s)).
  replace (Z.max 0 (Z.min (len - Z.of_nat n) len)) with (len - Z.of_nat n) by lia.
  replace (Z.max 0 (Z.min len len)) with len by lia.
  replace (Z.min (len - Z.of_nat n) len) with (len - Z.of_nat n) by lia.
  replace (Z.max (len - Z.of_nat n) len - (len - Z.of_nat n)) with (Z.of_nat n) by lia.
  rewrite Nat2Z.id. f_equal. unfold len. lia.
Qed.

End MaskFacts.

Section MaskTheorems.
Import JsString Mask.

(** The shape of every result for a count that is not negative. *)
Lemma maskSensitiveData_cases (data : string) (n : nat) :
  maskSensitiveData data (Z.of_nat n) =
  if (String.length data <=? 2 * n)%nat then "****"
  else String.substring 0 n data
       ++ stars (Nat.max (String.length data - 2 * n) 4)
       ++ String.substring (String.length data - n) n data.
Proof.
  unfold maskSensitiveData. rewrite eqb_empty_length.
  destruct (Nat.leb_spec (String.length data) (2 * n)) as [Hle|Hgt].
  - replace (Z.of_nat (String.length data) <=? Z.of_nat n * 2) with true
      by (symmetry; apply Z.leb_le; lia).
    now rewrite orb_true_r.
  - replace (Z.of_nat (String.length data) <=? Z.of_nat n * 2) with false
      by (symmetry; apply Z.leb_gt; lia).
    replace (String.length data =? 0)%nat with false
      by (symmetry; apply Nat.eqb_neq; lia).
    cbn [orb].
    rewrite substring2_prefix by lia.
    rewrite substring1_suffix by lia.
    unfold repeat_star. do 3 f_equal. lia.
Qed.

(** C9, as amended: an input of at most [2 * N] characters (the empty one
    included) is replaced by four stars and nothing of it is shown; a longer
    one shows its first [N] and last [N] characters around
    [max (length - 2 * N, 4)] stars, so the result is [max (length, 2 * N + 4)]
    characters long and the length of the mask follows the length of the
    input. *)
Theorem maskSensitiveData_shape (data : string) (n : nat) :
  maskSensitiveData data (Z.of_nat n) =
    (if (String.length data <=? 2 * n)%nat then "****"
     else String.substring 0 n data
          ++ stars (Nat.max (String.length data - 2 * n) 4)
          ++ String.substring (String.length data - n) n data)
  /\ String.length (maskSensitiveData data (Z.of_nat n)) =
       (if (String.length data <=? 2 * n)%nat then 4
        else Nat.max (String.length data) (2 * n + 4))%nat.
Proof.
  split; [apply maskSensitiveData_cases|].
  rewrite maskSensitiveData_cases.
  destruct (Nat.leb_spec (String.length data) (2 * n)) as [Hle|Hgt];
    [reflexivity|].
  rewrite !length_string_app, length_stars, !length_substring by lia.
  lia.
Qed.

(** C9, as stated, fails: no single mask length serves all inputs, even
    among those that are longer than [2 * N]. *)
Lemma maskSensitiveData_mask_length_varies :
  ~ exists m : nat, forall (data : string) (n : nat),
      (2 * n < String.length data)%nat ->
      maskSensitiveData data (Z.of_nat n) =
        String.substring 0 n data ++ stars m
        ++ String.substring (String.length data - n) n data.
Proof.
  intros [m H].
  pose proof (H "abcdefghijkl" 4%nat ltac:(simpl; lia)) as H12.
  pose proof (H "abcdefghijklmnop" 4%nat ltac:(simpl; lia)) as H16.
  apply (f_equal String.length) in H12, H16.
  rewrite !length_string_app, length_stars in H12, H16.
  vm_compute in H12, H16. lia.
Qed.

Example mask_ssn : maskSensitiveData_default "123-45-6789" = "123-****6789".
Proof. reflexivity. Qed.

Example mask_long :
  maskSensitiveData_default "4111111111111111" = "4111********1111".
Proof. reflexivity. Qed.

Example mask_short : maskSensitiveData_default "12345678" = "****".
Proof. reflexivity. Qed.

End MaskTheorems.

(* ------------------------------------------------------------------ *)
(** ** Redaction of audit snapshots *)

Section RedactionTheorems.
Import Json AuditRedaction.

Lemma get_set_field_same fields k x :
  get_field (set_field fields k x) k = Some x.
Proof.
  induction fields as [|[k' v'] fields IH]; simpl.
  - now rewrite String.eqb_refl.
  - destruct (String.eqb k' k) eqn:E; simpl; rewrite E; [reflexivity | exact IH].
Qed.

Lemma get_set_field_other fields k k' x :
  k <> k' -> get_field (set_field fields k x) k' = get_field fields k'.
Proof.
  intros Hne. induction fields as [|[k0 v0] fields IH]; simpl.
  - destruct (String.eqb_spec k k'); [contradiction | reflexivity].
  - destruct (String.eqb_spec k0 k) as [->|Hk]; simpl.
    + destruct (String.eqb_spec k k'); [contradiction | reflexivity].
    + destruct (String.eqb k0 k'); [reflexivity | exact IH].
Qed.

(** What the loop over a list of names leaves under each key. *)
Lemma fold_redact_field (names : list string) :
  forall fields k,
  exists fields',
    fold_left redact_field names (JObj fields) = JObj fields'
    /\ get_field fields' k
       = option_map (fun v => if JsString.includes names k && truthy v
                              then JStr REDACTED else v)
                    (get_field fields k).
Proof.
  induction names as [|f names IH]; intros fields k.
  - exists fields. split; [reflexivity|]. now destruct (get_field fields k).
  - cbn [fold_left].
    assert (Hstep : exists fields1,
      redact_field (JObj fields) f = JObj fields1
      /\ get_field fields1 k
         = option_map (fun v => if String.eqb k f && truthy v
                                then JStr REDACTED else v)
                      (get_field fields k)).
    { unfold redact_field.
      destruct (get_field fields f) as [v|] eqn:Hf.
      - destruct (truthy v) eqn:Ht.
        + eexists; split; [reflexivity|].
          destruct (String.eqb_spec k f) as [->|Hne].
          * rewrite get_set_field_same, Hf. simpl. now rewrite Ht.
          * rewrite get_set_field_other by congruence.
            now destruct (get_field fields k).
        + eexists; split; [reflexivity|].
          destruct (String.eqb_spec k f) as [->|Hne].
          * rewrite Hf. simpl. now rewrite Ht.
          * now destruct (get_field fields k).
      - eexists; split; [reflexivity|].
        destruct (String.eqb_spec k f) as [->|Hne].
        + now rewrite Hf.
        + now destruct (get_field fields k). }
    destruct Hstep as [fields1 [-> Hget1]].
    destruct (IH fields1 k) as [fields' [Hfold Hget]].
    exists fields'. split; [exact Hfold|].
    rewrite Hget, Hget1.
    destruct (get_field fields k) as [v|]; [|reflexivity].
    unfold JsString.includes. cbn [option_map existsb].
    destruct (String.eqb k f), (truthy v) eqn:Ht,
      (existsb (String.eqb k) names); simpl; rewrite ?Ht; reflexivity.
Qed.

(** What [sanitizeBody] does achieve: at the top level of an object, a
    truthy value under one of its eight names, spelled exactly, is replaced
    by the marker; every other top-level value is kept. *)
Lemma sanitizeBody_top_level (fields : list (string * json)) (k : string) :
  exists fields',
    sanitizeBody (JObj fields) = JObj fields'
    /\ get_field fields' k
       = option_map (fun v => if JsString.includes sensitiveFields k && truthy v
                              then JStr REDACTED else v)
                    (get_field fields k).
Proof. unfold sanitizeBody. simpl negb. cbv iota. apply fold_redact_field. Qed.

Example sanitizeBody_scenario_D :
  sanitizeBody (JObj [("password", JStr "secret"); ("name", JStr "Jane")])
  = JObj [("password", JStr REDACTED); ("name", JStr "Jane")].
Proof. reflexivity. Qed.

(** C2 at its failing inputs: [sanitizeBody], which [withAuditLog] applies
    to the request and response bodies it persists, looks only at the top
    level, compares names exactly, and does not know [authorization].  A
    nested password, a password under a capitalised key, an authorization
    header and an SSN inside an array all come out unchanged, and the
    request body that [withAuditLog] puts into the audit table for a request
    with a nested password still holds it. *)
Theorem sanitizeBody_leaks :
  let nested := JObj [("user", JObj [("password", JStr "x")])] in
  let capital := JObj [("Password", JStr "x")] in
  let header := JObj [("authorization", JStr "Bearer x")] in
  let in_array := JArr [JObj [("ssn", JStr "123-45-6789")]] in
  (sanitizeBody nested = nested
   /\ fully_redacted (sanitizeBody nested) = false
   /\ contains_string "x" (sanitizeBody nested) = true)
  /\ sanitizeBody capital = capital
  /\ sanitizeBody header = header
  /\ sanitizeBody in_array = in_array
  /\ map (fun p => Lambda.requestBody (Lambda.put_entry p))
         (Lambda.audit_puts
            (fst (Lambda.withAuditLog PatientService.auditOptions Demo.ok_handler
                    Demo.context0
                    (Demo.world_of
                       (Demo.event_of (Some "token-u2") (Some (Lambda.Doc nested)))
                       []))))
     = [Some nested].
Proof. repeat split; reflexivity. Qed.

End RedactionTheorems.

(* ------------------------------------------------------------------ *)
(** ** [sanitizeSensitiveData] leaves its argument alone *)

Section StoreTheorems.
Import Store Properties.














(** The copy that is returned: [password] and [Token] are replaced, the
    nested array and object are copies of their own, and [creditCard],
    whose lower-cased name is not in the list, is kept. *)
Example sanitizeSensitiveData_run :
  let '(h, r) := sanitizeSensitiveData 5 Demo.heap0 (VRef 1%positive) in
  r = Some (VRef 4%positive)
  /\ h !! 4%positive
     = Some (OObj [("name", VStr "Jane"); ("password", VStr Json.REDACTED);
                   ("creditCard", VStr "4111"); ("child", VRef 5%positive)])
  /\ h !! 5%positive = Some (OArr [VRef 6%positive; VNum 1])
  /\ h !! 6%positive = Some (OObj [("Token", VStr Json.REDACTED)]).
Proof. vm_compute. repeat split; reflexivity. Qed.

End StoreTheorems.

(* ------------------------------------------------------------------ *)
(** ** The local authenticated-encryption path *)

Section HexAndSplit.
Import Cipher.

Lemma string_app_cons (x : ascii) (a b : string) :
  String x a ++ b = String x (a ++ b).
Proof. reflexivity. Qed.

Lemma string_app_nil (b : string) : "" ++ b = b.
Proof. reflexivity. Qed.

Lemma string_app_assoc (a b c : string) : (a ++ b) ++ c = a ++ b ++ c.
Proof.
  induction a as [|x a IH]; [reflexivity|].
  now rewrite !string_app_cons, IH.
Qed.

Lemma fromHex_hex_of_byte (b : Byte.byte) (s : string) :
  fromHex (hex_of_byte b ++ s) = b :: fromHex s.
Proof. destruct b; reflexivity. Qed.

Lemma fromHex_toHex (bs : bytes) : fromHex (toHex bs) = bs.
Proof.
  induction bs as [|b bs IH]; [reflexivity|].
  simpl toHex. now rewrite fromHex_hex_of_byte, IH.
Qed.

Lemma occurs_hex_of_byte (b : Byte.byte) (s : string) :
  occurs colon (hex_of_byte b ++ s) = occurs colon s.
Proof. destruct b; reflexivity. Qed.

Lemma occurs_toHex (bs : bytes) : occurs colon (toHex bs) = false.
Proof.
  induction bs as [|b bs IH]; [reflexivity|].
  simpl toHex. now rewrite occurs_hex_of_byte.
Qed.

Lemma split_cons_nonempty sep s : split sep s <> [].
Proof.
  destruct s as [|c s]; simpl; [discriminate|].
  destruct (Ascii.eqb c sep); [discriminate|].
  destruct (split sep s); discriminate.
Qed.

Lemma split_app_sep sep (a b : string) :
  occurs sep a = false ->
  split sep (a ++ String sep b) = a :: split sep b.
Proof.
  induction a as [|c a IH]; intros H.
  - rewrite string_app_nil. simpl. now rewrite Ascii.eqb_refl.
  - simpl in H. apply orb_false_iff in H as [Hc Ha].
    rewrite string_app_cons. simpl. rewrite Hc, (IH Ha). reflexivity.
Qed.

Lemma split_no_sep sep (a : string) :
  occurs sep a = false -> split sep a = [a].
Proof.
  induction a as [|c a IH]; simpl; intros H; [reflexivity|].
  apply orb_false_iff in H as [Hc Ha].
  rewrite Hc, (IH Ha). reflexivity.
Qed.

(** The fields of a packed triplet, whatever follows it. *)
Lemma split_triplet (iv tag ct : bytes) :
  split colon (toHex iv ++ ":" ++ toHex tag ++ ":" ++ toHex ct)
  = [toHex iv; toHex tag; toHex ct].
Proof.
  change ":" with (String colon "").
  rewrite !string_app_cons, !string_app_nil.
  rewrite split_app_sep by apply occurs_toHex.
  rewrite split_app_sep by apply occurs_toHex.
  rewrite split_no_sep by apply occurs_toHex.
  reflexivity.
Qed.


Lemma length_toHex (bs : bytes) : String.length (toHex bs) = (2 * length bs)%nat.
Proof.
  induction bs as [|b bs IH]; [reflexivity|].
  simpl toHex. unfold hex_of_byte. rewrite !string_app_cons, string_app_nil.
  simpl. rewrite IH. lia.
Qed.

Lemma odd_length_toHex (bs : bytes) : Nat.odd (String.length (toHex bs)) = false.
Proof. rewrite length_toHex, Nat.odd_mul. reflexivity. Qed.

Lemma bytes_eqb_eq (a b : bytes) : bytes_eqb a b = true <-> a = b.
Proof.
  revert b. induction a as [|x a IH]; intros [|y b]; simpl;
    try (split; [discriminate | discriminate || reflexivity]).
  - split; reflexivity.
  - rewrite andb_true_iff, IH. split.
    + intros [Hx ->]. f_equal. now apply Byte.byte_dec_bl.
    + intros H. injection H as -> ->. split; [|reflexivity].
      now apply Byte.byte_dec_lb.
Qed.

Lemma isValidGcmTagLength_le (n : nat) :
  isValidGcmTagLength n = true -> (n <= 16)%nat.
Proof.
  unfold isValidGcmTagLength. intros H.
  apply orb_true_iff in H as [H|H].
  - apply orb_true_iff in H as [H|H]; apply Nat.eqb_eq in H; lia.
  - apply andb_true_iff in H as [_ H]. now apply Nat.leb_le in H.
Qed.

Lemma demoGcm_laws : AesGcmLaws demoGcm.
Proof.
  split; simpl.
  - intros key iv Hk Hi. rewrite Hk, Hi. reflexivity.
  - intros _ _ data. apply rev_involutive.
  - intros _ iv ct. unfold demo_tag. rewrite length_firstn, !length_app, repeat_length.
    lia.
  - intros _ iv ct tag _. apply bytes_eqb_eq.
Qed.

End HexAndSplit.

Section Utf8Theorems.
Import Cipher.
Local Open Scope N_scope.

Lemma to_N_byte_of_N (n : N) : n < 256 -> Byte.to_N (byte_of_N n) = n.
Proof.
  intros H. unfold byte_of_N. destruct (Byte.of_N n) as [b|] eqn:Hb.
  - now apply Byte.to_of_N.
  - apply Byte.of_N_None_iff in Hb. lia.
Qed.

Lemma div_mod_64 (c : N) :
  exists q r, c = 64 * q + r /\ r < 64 /\ c / 64 = q /\ c mod 64 = r.
Proof.
  exists (c / 64), (c mod 64). repeat split.
  - apply N.Div0.div_mod.
  - now apply N.mod_lt.
Qed.

Ltac leb_cases :=
  repeat match goal with
         | |- context [?a <=? ?b] => destruct (N.leb_spec a b)
         | |- context [?a <? ?b] => destruct (N.ltb_spec a b)
         | |- context [?a =? ?b] => destruct (N.eqb_spec a b)
         end.

Lemma lead_1 (b : N) : b <= 0x7F -> lead b = Emit b.
Proof. intros H. unfold lead. leb_cases; try lia; reflexivity. Qed.

Lemma lead_2 (b : N) :
  0xC2 <= b <= 0xDF -> lead b = Need 1 0x80 0xBF (b - 0xC0).
Proof. intros H. unfold lead. leb_cases; simpl; try lia; reflexivity. Qed.

Lemma lead_3 (b : N) :
  0xE0 <= b <= 0xEF ->
  lead b = Need 2 (if b =? 0xE0 then 0xA0 else 0x80)
                  (if b =? 0xED then 0x9F else 0xBF) (b - 0xE0).
Proof.
  intros H. unfold lead.
  destruct (N.leb_spec b 0x7F); [lia|].
  destruct (N.leb_spec 0xC2 b); [|lia].
  destruct (N.leb_spec b 0xDF); [lia|].
  destruct (N.leb_spec 0xE0 b); [|lia].
  destruct (N.leb_spec b 0xEF); [|lia].
  reflexivity.
Qed.

Lemma lead_4 (b : N) :
  0xF0 <= b <= 0xF4 ->
  lead b = Need 3 (if b =? 0xF0 then 0x90 else 0x80)
                  (if b =? 0xF4 then 0x8F else 0xBF) (b - 0xF0).
Proof.
  intros H. unfold lead.
  destruct (N.leb_spec b 0x7F); [lia|].
  destruct (N.leb_spec 0xC2 b); [|lia].
  destruct (N.leb_spec b 0xDF); [lia|].
  destruct (N.leb_spec 0xE0 b); [|lia].
  destruct (N.leb_spec b 0xEF); [lia|].
  destruct (N.leb_spec 0xF0 b); [|lia].
  destruct (N.leb_spec b 0xF4); [|lia].
  reflexivity.
Qed.

(** A continuation byte in range, in the middle of a sequence and at its
    end. *)
Lemma decode_from_continue (n : nat) (lower upper cp b : N) (rest : bytes) :
  b < 256 -> lower <= b <= upper ->
  decode_from (Some (S (S n), lower, upper, cp)) (byte_of_N b :: rest)
  = decode_from (Some (S n, 0x80, 0xBF, cp * 64 + (b - 0x80))) rest.
Proof.
  intros Hb [Hl Hu]. cbn [decode_from]. rewrite (to_N_byte_of_N b Hb).
  destruct (N.leb_spec lower b); [|lia].
  destruct (N.leb_spec b upper); [|lia]. reflexivity.
Qed.

Lemma decode_from_last (lower upper cp b : N) (rest : bytes) :
  b < 256 -> lower <= b <= upper ->
  decode_from (Some (1%nat, lower, upper, cp)) (byte_of_N b :: rest)
  = (code_units (cp * 64 + (b - 0x80)) ++ decode_from None rest)%list.
Proof.
  intros Hb [Hl Hu]. cbn [decode_from]. rewrite (to_N_byte_of_N b Hb).
  destruct (N.leb_spec lower b); [|lia].
  destruct (N.leb_spec b upper); [|lia]. reflexivity.
Qed.

Lemma decode_from_lead (b : N) (rest : bytes) :
  b < 256 ->
  decode_from None (byte_of_N b :: rest)
  = match lead b with
    | Emit c => (code_units c ++ decode_from None rest)%list
    | Need needed lower upper cp => decode_from (Some (needed, lower, upper, cp)) rest
    end.
Proof. intros Hb. cbn [decode_from]. now rewrite (to_N_byte_of_N b Hb). Qed.

(** One scalar value: what the encoder wrote is read back. *)
Lemma decode_encode_scalar (c : N) (rest : bytes) :
  c < 0x110000 -> is_high c = false -> is_low c = false ->
  decode_from None (encode_scalar c ++ rest)%list
  = (code_units c ++ decode_from None rest)%list.
Proof.
  intros Hc Hh Hl.
  assert (Hsur : c < 0xD800 \/ 0xDFFF < c).
  { unfold is_high, is_low in Hh, Hl.
    destruct (N.leb_spec 0xD800 c); [|lia].
    destruct (N.leb_spec c 0xDBFF); [discriminate|].
    destruct (N.leb_spec 0xDC00 c); [|lia].
    destruct (N.leb_spec c 0xDFFF); [discriminate|]. lia. }
  clear Hh Hl.
  destruct (div_mod_64 c) as (q1 & r1 & Hc1 & Hr1 & Hq1 & Hm1).
  destruct (div_mod_64 q1) as (q2 & r2 & Hc2 & Hr2 & Hq2 & Hm2).
  destruct (div_mod_64 q2) as (q3 & r3 & Hc3 & Hr3 & Hq3 & Hm3).
  unfold encode_scalar. rewrite Hq1, Hm1, Hq2, Hm2, Hq3, Hm3.
  destruct (N.ltb_spec c 0x80).
  - cbn [app]. rewrite decode_from_lead by lia. rewrite lead_1 by lia. reflexivity.
  - destruct (N.ltb_spec c 0x800).
    + cbn [app]. rewrite decode_from_lead by lia. rewrite lead_2 by lia.
      rewrite decode_from_last by lia.
      replace ((0xC0 + q1 - 0xC0) * 64 + (0x80 + r1 - 0x80)) with c by lia.
      reflexivity.
    + destruct (N.ltb_spec c 0x10000).
      * cbn [app]. rewrite decode_from_lead by lia. rewrite lead_3 by lia.
        rewrite decode_from_continue.
        2:{ lia. }
        2:{ destruct (N.eqb_spec (0xE0 + q2) 0xE0);
              destruct (N.eqb_spec (0xE0 + q2) 0xED); lia. }
        rewrite decode_from_last by lia.
        replace (((0xE0 + q2 - 0xE0) * 64 + (0x80 + r2 - 0x80)) * 64
                 + (0x80 + r1 - 0x80)) with c by lia.
        reflexivity.
      * cbn [app]. rewrite decode_from_lead by lia. rewrite lead_4 by lia.
        rewrite decode_from_continue.
        2:{ lia. }
        2:{ destruct (N.eqb_spec (0xF0 + q3) 0xF0);
              destruct (N.eqb_spec (0xF0 + q3) 0xF4); lia. }
        rewrite decode_from_continue by lia.
        rewrite decode_from_last by lia.
        replace ((((0xF0 + q3 - 0xF0) * 64 + (0x80 + r3 - 0x80)) * 64
                  + (0x80 + r2 - 0x80)) * 64 + (0x80 + r1 - 0x80)) with c by lia.
        reflexivity.
Qed.

Lemma code_units_pair (h l : N) :
  is_high h = true -> is_low l = true ->
  code_units (0x10000 + (h - 0xD800) * 0x400 + (l - 0xDC00)) = [h; l].
Proof.
  intros Hh Hl. unfold is_high, is_low in Hh, Hl.
  apply andb_true_iff in Hh as [Hh1 Hh2]. apply andb_true_iff in Hl as [Hl1 Hl2].
  apply N.leb_le in Hh1, Hh2, Hl1, Hl2.
  unfold code_units.
  destruct (N.ltb_spec (0x10000 + (h - 0xD800) * 0x400 + (l - 0xDC00)) 0x10000);
    [lia|].
  replace (0x10000 + (h - 0xD800) * 0x400 + (l - 0xDC00) - 0x10000)
    with ((l - 0xDC00) + (h - 0xD800) * 0x400) by lia.
  rewrite N.div_add by lia. rewrite N.Div0.mod_add.
  rewrite N.div_small by lia. rewrite N.mod_small by lia.
  f_equal; [lia | f_equal; lia].
Qed.

Lemma pair_scalar (h l : N) :
  is_high h = true -> is_low l = true ->
  let c := 0x10000 + (h - 0xD800) * 0x400 + (l - 0xDC00) in
  c < 0x110000 /\ is_high c = false /\ is_low c = false.
Proof.
  intros Hh Hl c. subst c. unfold is_high, is_low in *.
  apply andb_true_iff in Hh as [Hh1 Hh2]. apply andb_true_iff in Hl as [Hl1 Hl2].
  apply N.leb_le in Hh1, Hh2, Hl1, Hl2.
  repeat split; [lia | |].
  - destruct (N.leb_spec 0xD800 (0x10000 + (h - 0xD800) * 0x400 + (l - 0xDC00)));
      [|lia].
    destruct (N.leb_spec (0x10000 + (h - 0xD800) * 0x400 + (l - 0xDC00)) 0xDBFF);
      [lia | reflexivity].
  - destruct (N.leb_spec 0xDC00 (0x10000 + (h - 0xD800) * 0x400 + (l - 0xDC00)));
      [|lia].
    destruct (N.leb_spec (0x10000 + (h - 0xD800) * 0x400 + (l - 0xDC00)) 0xDFFF);
      [lia | reflexivity].
Qed.

(** The UTF-8 text of a well-formed string decodes to the string. *)
Lemma utf8_decode_encode (s : text) :
  well_formed s = true -> utf8_decode (utf8_encode s) = s.
Proof.
  unfold utf8_decode.
  remember (length s) as n eqn:Hn.
  revert s Hn. induction n as [n IH] using lt_wf_ind. intros s Hn Hwf.
  destruct s as [|u rest]; [reflexivity|].
  cbn [utf8_encode well_formed] in *.
  destruct (is_high u) eqn:Hh.
  - destruct rest as [|l rest']; [discriminate|].
    apply andb_true_iff in Hwf as [Hl Hwf]. rewrite Hl.
    destruct (pair_scalar u l Hh Hl) as (Hc & Hch & Hcl).
    rewrite decode_encode_scalar by assumption.
    rewrite code_units_pair by assumption.
    cbn [app]. do 2 f_equal.
    apply (IH (length rest')); [subst n; simpl; lia | reflexivity | exact Hwf].
  - apply andb_true_iff in Hwf as [Hwf1 Hwf].
    apply andb_true_iff in Hwf1 as [Hl Hu].
    apply negb_true_iff in Hl. apply N.ltb_lt in Hu. rewrite Hl.
    rewrite decode_encode_scalar by (try assumption; lia).
    unfold code_units. destruct (N.ltb_spec u 0x10000); [|lia].
    cbn [app]. f_equal.
    apply (IH (length rest)); [subst n; simpl; lia | reflexivity | exact Hwf].
Qed.

Lemma utf8_encode_toWellFormed (s : text) :
  utf8_encode (toWellFormed s) = utf8_encode s.
Proof.
  remember (length s) as n eqn:Hn.
  revert s Hn. induction n as [n IH] using lt_wf_ind. intros s Hn.
  destruct s as [|u rest]; [reflexivity|].
  cbn [toWellFormed utf8_encode].
  assert (Hrest : utf8_encode (toWellFormed rest) = utf8_encode rest)
    by (apply (IH (length rest)); [subst n; simpl; lia | reflexivity]).
  assert (Hrep : forall t, utf8_encode (REPLACEMENT :: t)
                           = (encode_scalar REPLACEMENT ++ utf8_encode t)%list)
    by reflexivity.
  destruct (is_high u) eqn:Hh.
  - destruct rest as [|l rest']; [reflexivity|].
    destruct (is_low l) eqn:Hl.
    + cbn [utf8_encode]. rewrite Hh, Hl. f_equal.
      apply (IH (length rest')); [subst n; simpl; lia | reflexivity].
    + now rewrite Hrep, Hrest.
  - destruct (is_low u) eqn:Hl.
    + now rewrite Hrep, Hrest.
    + cbn [utf8_encode]. now rewrite Hh, Hl, Hrest.
Qed.

Lemma well_formed_toWellFormed (s : text) :
  is_string s = true -> well_formed (toWellFormed s) = true.
Proof.
  remember (length s) as n eqn:Hn.
  revert s Hn. induction n as [n IH] using lt_wf_ind. intros s Hn Hs.
  destruct s as [|u rest]; [reflexivity|].
  cbn [is_string forallb] in Hs. apply andb_true_iff in Hs as [Hu Hs].
  assert (Hrest : well_formed (toWellFormed rest) = true)
    by (apply (IH (length rest)); [subst n; simpl; lia | reflexivity | exact Hs]).
  assert (Hrep : forall t, well_formed (REPLACEMENT :: t) = well_formed t)
    by reflexivity.
  cbn [toWellFormed].
  destruct (is_high u) eqn:Hh.
  - destruct rest as [|l rest']; [reflexivity|].
    destruct (is_low l) eqn:Hl.
    + cbn [well_formed]. rewrite Hh, Hl. cbn [andb].
      cbn [forallb] in Hs. apply andb_true_iff in Hs as [_ Hs].
      apply (IH (length rest')); [subst n; simpl; lia | reflexivity | exact Hs].
    + now rewrite Hrep.
  - destruct (is_low u) eqn:Hl.
    + now rewrite Hrep.
    + cbn [well_formed]. now rewrite Hh, Hl, Hu, Hrest.
Qed.

Lemma toWellFormed_fixed (s : text) :
  well_formed s = true -> toWellFormed s = s.
Proof.
  remember (length s) as n eqn:Hn.
  revert s Hn. induction n as [n IH] using lt_wf_ind. intros s Hn Hwf.
  destruct s as [|u rest]; [reflexivity|].
  cbn [toWellFormed well_formed] in *.
  destruct (is_high u) eqn:Hh.
  - destruct rest as [|l rest']; [discriminate|].
    apply andb_true_iff in Hwf as [Hl Hwf]. rewrite Hl. do 2 f_equal.
    apply (IH (length rest')); [subst n; simpl; lia | reflexivity | exact Hwf].
  - apply andb_true_iff in Hwf as [Hwf1 Hwf].
    apply andb_true_iff in Hwf1 as [Hl _]. apply negb_true_iff in Hl.
    rewrite Hl. f_equal.
    apply (IH (length rest)); [subst n; simpl; lia | reflexivity | exact Hwf].
Qed.

(** What comes back from the UTF-8 text of any string. *)
Lemma utf8_decode_encode_any (s : text) :
  is_string s = true -> utf8_decode (utf8_encode s) = toWellFormed s.
Proof.
  intros Hs. rewrite <- utf8_encode_toWellFormed.
  apply utf8_decode_encode. now apply well_formed_toWellFormed.
Qed.

(** A string that [toWellFormed] leaves as it is has no surrogate that
    stands alone. *)
Lemma toWellFormed_fixed_inv (s : text) :
  is_string s = true -> toWellFormed s = s -> well_formed s = true.
Proof.
  intros Hs Heq. rewrite <- Heq. now apply well_formed_toWellFormed.
Qed.

End Utf8Theorems.

Section CipherTheorems.
Import Cipher.
Context {G : AesGcm} {L : AesGcmLaws G}.

Lemma encryptPHI_ok (iv : bytes) (data : text) (key : bytes) :
  length key = 32%nat -> length iv = 16%nat ->
  encryptPHI iv data key =
    Ok (toHex iv ++ ":"
        ++ toHex (gcm_tag key iv (gcm_crypt key iv (utf8_encode data)))
        ++ ":" ++ toHex (gcm_crypt key iv (utf8_encode data))).
Proof.
  intros Hk Hi. unfold encryptPHI. now rewrite gcm_init_256.
Qed.

(** What [decryptPHI] does once the split has three fields or more. *)
Lemma decryptPHI_fields (ivHex tagHex ctHex : string) (rest : list string)
    (encryptedData : string) (key : bytes) :
  split colon encryptedData = ivHex :: tagHex :: ctHex :: rest ->
  decryptPHI encryptedData key =
    if negb (gcm_init_ok key (fromHex ivHex)) then Err InvalidKeyOrIv
    else if negb (isValidGcmTagLength (length (fromHex tagHex)))
         then Err InvalidAuthTag
    else if Nat.odd (String.length ctHex) then Err InvalidArgument
    else if gcm_check key (fromHex ivHex) (fromHex ctHex) (fromHex tagHex)
         then Ok (utf8_decode (gcm_crypt key (fromHex ivHex) (fromHex ctHex)))
         else Err AuthenticationFailed.
Proof. intros H. unfold decryptPHI. rewrite H. reflexivity. Qed.

Lemma decryptPHI_packed (iv tag ct : bytes) (rest : list string)
    (encryptedData : string) (key : bytes) :
  split colon encryptedData = toHex iv :: toHex tag :: toHex ct :: rest ->
  length key = 32%nat -> length iv = 16%nat ->
  decryptPHI encryptedData key =
    if negb (isValidGcmTagLength (length tag)) then Err InvalidAuthTag
    else if gcm_check key iv ct tag
         then Ok (utf8_decode (gcm_crypt key iv ct))
         else Err AuthenticationFailed.
Proof.
  intros H Hk Hi. rewrite (decryptPHI_fields _ _ _ _ _ _ H).
  rewrite !fromHex_toHex, gcm_init_256, odd_length_toHex by assumption.
  reflexivity.
Qed.

(** The tag the cipher issued is accepted, and so is each of its beginnings
    of a valid length; a 16-byte tag is accepted only if it is the one the
    cipher issues. *)
Lemma gcm_check_truncated (key iv ct : bytes) (n : nat) :
  isValidGcmTagLength n = true ->
  length (firstn n (gcm_tag key iv ct)) = n
  /\ gcm_check key iv ct (firstn n (gcm_tag key iv ct)) = true.
Proof.
  intros Hn.
  assert (Hlen : length (firstn n (gcm_tag key iv ct)) = n).
  { rewrite length_firstn, gcm_tag_16.
    apply isValidGcmTagLength_le in Hn. lia. }
  split; [exact Hlen|].
  apply gcm_check_prefix; rewrite Hlen; [exact Hn | reflexivity].
Qed.

Lemma gcm_check_issued (key iv ct : bytes) :
  gcm_check key iv ct (gcm_tag key iv ct) = true.
Proof.
  destruct (gcm_check_truncated key iv ct 16 eq_refl) as [_ H].
  rewrite <- (gcm_tag_16 key iv ct), firstn_all in H. exact H.
Qed.


(** What comes back from the value that [encryptPHI] returns, whatever
    follows its three fields and whatever valid length its tag is cut
    to. *)
Lemma decryptPHI_issued (P : text) (K iv : bytes) (n : nat) (rest : list string)
    (encryptedData : string) :
  length K = 32%nat -> length iv = 16%nat -> is_string P = true ->
  isValidGcmTagLength n = true ->
  split colon encryptedData
  = toHex iv
    :: toHex (firstn n (gcm_tag K iv (gcm_crypt K iv (utf8_encode P))))
    :: toHex (gcm_crypt K iv (utf8_encode P)) :: rest ->
  decryptPHI encryptedData K = Ok (toWellFormed P).
Proof.
  intros Hk Hi Hs Hn Hsplit.
  destruct (gcm_check_truncated K iv (gcm_crypt K iv (utf8_encode P)) n Hn)
    as [Hlen Hc].
  rewrite (decryptPHI_packed _ _ _ _ _ _ Hsplit Hk Hi), Hlen, Hn, Hc.
  cbn [negb]. now rewrite gcm_crypt_inv, utf8_decode_encode_any.
Qed.

Lemma full_tag (K iv ct : bytes) :
  firstn 16 (gcm_tag K iv ct) = gcm_tag K iv ct.
Proof. rewrite <- (gcm_tag_16 K iv ct). apply firstn_all. Qed.

Lemma decryptPHI_encryptPHI_any (P : text) (K iv : bytes) :
  length K = 32%nat -> length iv = 16%nat -> is_string P = true ->
  exists e, encryptPHI iv P K = Ok e /\ decryptPHI e K = Ok (toWellFormed P).
Proof.
  intros Hk Hi Hs. eexists. split; [apply encryptPHI_ok; assumption|].
  apply (decryptPHI_issued P K iv 16 []); try assumption; [reflexivity|].
  rewrite full_tag. apply split_triplet.
Qed.

(** C6, as amended: with a 32-byte key and the 16 random bytes of the call
    as IV, [encryptPHI] returns a value that [decryptPHI] turns into the
    plaintext with every surrogate that stands alone replaced by U+FFFD;
    this is the plaintext exactly when the plaintext is well formed.  Two
    calls on the same plaintext whose IVs differ return different
    values. *)
Theorem decryptPHI_encryptPHI (P : text) (K iv : bytes) :
  length K = 32%nat -> length iv = 16%nat -> is_string P = true ->
  (exists e,
     encryptPHI iv P K = Ok e
     /\ decryptPHI e K = Ok (toWellFormed P)
     /\ (decryptPHI e K = Ok P <-> well_formed P = true))
  /\ (forall iv', length iv' = 16%nat -> iv' <> iv ->
        encryptPHI iv' P K <> encryptPHI iv P K).
Proof.
  intros Hk Hi Hs. split.
  - destruct (decryptPHI_encryptPHI_any P K iv Hk Hi Hs) as [e [He Hd]].
    exists e. split; [exact He|]. split; [exact Hd|]. rewrite Hd. split.
    + intros Heq. injection Heq as Heq. now apply toWellFormed_fixed_inv.
    + intros Hwf. now rewrite toWellFormed_fixed.
  - intros iv' Hi' Hne Heq.
    rewrite !encryptPHI_ok in Heq by assumption.
    injection Heq as Heq. apply (f_equal (split colon)) in Heq.
    rewrite !split_triplet in Heq. injection Heq as Hiv _ _.
    apply (f_equal fromHex) in Hiv. rewrite !fromHex_toHex in Hiv.
    contradiction.
Qed.




End CipherTheorems.

Section CipherRuns.
Import Cipher.
#[local] Existing Instance demoGcm.

Lemma decryptPHI_encryptPHI_witness :
  (exists e,
     encryptPHI (G := demoGcm) demo_iv (units "123-45-6789") demo_key = Ok e
     /\ decryptPHI (G := demoGcm) e demo_key
        = Ok (toWellFormed (units "123-45-6789"))
     /\ (decryptPHI (G := demoGcm) e demo_key = Ok (units "123-45-6789")
         <-> well_formed (units "123-45-6789") = true))
  /\ (forall iv', length iv' = 16%nat -> iv' <> demo_iv ->
        encryptPHI (G := demoGcm) iv' (units "123-45-6789") demo_key
        <> encryptPHI (G := demoGcm) demo_iv (units "123-45-6789") demo_key).
Proof.
  apply (@decryptPHI_encryptPHI demoGcm demoGcm_laws); reflexivity.
Defined.

(** C6, as stated, fails on a string with a surrogate that stands alone:
    the high surrogate U+D800 followed by the letter x.  Whatever the
    cipher, the value that [encryptPHI] returns for it decrypts to U+FFFD
    followed by x, which is another string. *)
Lemma decryptPHI_encryptPHI_lone_surrogate :
  is_string [0xD800; 0x78]%N = true
  /\ (forall (G : AesGcm), AesGcmLaws G ->
      forall K iv : bytes, length K = 32%nat -> length iv = 16%nat ->
        exists e, encryptPHI iv [0xD800; 0x78]%N K = Ok e
                  /\ decryptPHI e K = Ok [0xFFFD; 0x78]%N)
  /\ ~ (forall (G : AesGcm), AesGcmLaws G ->
        forall (P : text) (K iv : bytes),
          is_string P = true -> length K = 32%nat -> length iv = 16%nat ->
          exists e, encryptPHI iv P K = Ok e /\ decryptPHI e K = Ok P).
Proof.
  split; [reflexivity|]. split.
  - intros G L K iv Hk Hi.
    exact (@decryptPHI_encryptPHI_any G L [0xD800; 0x78]%N K iv Hk Hi eq_refl).
  - intros H.
    destruct (H demoGcm demoGcm_laws [0xD800; 0x78]%N demo_key demo_iv
                eq_refl eq_refl eq_refl) as [e [He Hd]].
    vm_compute in He. injection He as <-.
    vm_compute in Hd. discriminate.
Qed.



Example encryptPHI_run :
  encryptPHI (G := demoGcm) demo_iv (units "123-45-6789") demo_key
  = Ok ("01010101010101010101010101010101"
        ++ ":393837362d35342d3332310101010101"
        ++ ":393837362d35342d333231").
Proof. vm_compute. reflexivity. Qed.

Example decryptPHI_run_extra_field :
  decryptPHI (G := demoGcm)
    ("01010101010101010101010101010101"
     ++ ":393837362d35342d3332310101010101"
     ++ ":393837362d35342d333231" ++ ":ff") demo_key
  = Ok (units "123-45-6789").
Proof. vm_compute. reflexivity. Qed.

Example decryptPHI_run_truncated_tag :
  decryptPHI (G := demoGcm)
    ("01010101010101010101010101010101"
     ++ ":39383736"
     ++ ":393837362d35342d333231") demo_key
  = Ok (units "123-45-6789").
Proof. vm_compute. reflexivity. Qed.

Example decryptPHI_run_modified_ciphertext :
  decryptPHI (G := demoGcm)
    ("01010101010101010101010101010101"
     ++ ":393837362d35342d3332310101010101"
     ++ ":393837362d35342d333232") demo_key
  = Err AuthenticationFailed.
Proof. vm_compute. reflexivity. Qed.

Example decryptPHI_run_modified_tag :
  decryptPHI (G := demoGcm)
    ("01010101010101010101010101010101"
     ++ ":393837362d35342d3332310101010102"
     ++ ":393837362d35342d333231") demo_key
  = Err AuthenticationFailed.
Proof. vm_compute. reflexivity. Qed.

Example decryptPHI_run_odd_ciphertext :
  decryptPHI (G := demoGcm)
    ("01010101010101010101010101010101"
     ++ ":393837362d35342d3332310101010101"
     ++ ":393837362d35342d3332310") demo_key
  = Err InvalidArgument.
Proof. vm_compute. reflexivity. Qed.

(** The UTF-8 text of some strings: a letter with an accent, the euro
    sign, a pair of surrogates, and a high surrogate that stands alone. *)
Example utf8_encode_run :
  utf8_encode [0xE9]%N = [Byte.xc3; Byte.xa9]
  /\ utf8_encode [0x20AC]%N = [Byte.xe2; Byte.x82; Byte.xac]
  /\ utf8_encode [0xD83D; 0xDE00]%N = [Byte.xf0; Byte.x9f; Byte.x98; Byte.x80]
  /\ utf8_encode [0xD800; 0x78]%N = [Byte.xef; Byte.xbf; Byte.xbd; Byte.x78]
  /\ utf8_decode [Byte.xf0; Byte.x9f; Byte.x98; Byte.x80] = [0xD83D; 0xDE00]%N
  /\ utf8_decode [Byte.xef; Byte.xbf; Byte.xbd; Byte.x78] = [0xFFFD; 0x78]%N.
Proof. repeat split; reflexivity. Qed.

End CipherRuns.

(* ------------------------------------------------------------------ *)
(** ** patient-service: a patient and the patient's own record *)

Section PatientTheorems.
Import Lambda Backend Resolver PatientService.

Lemma nonempty_cons (c : ascii) (s : string) :
  nonempty (Some (String c s)) = Some (String c s).
Proof. reflexivity. Qed.

(** The read half of C5: for a patient asking for the record whose id is
    the patient's own user id, [baseHandler] passes the access test and
    [getPatient] has no denial on that path; what can still go wrong is the
    database or KMS. *)
Lemma getPatient_owner_not_denied (w : World) (c : ascii) (u email userType : string)
    (wards : option (list string)) (input : option UpdatePatientInput) :
  let id := String c u in
  let caller :=
    {| auth := {| userId := id; email := email; role := "PATIENT";
                  userType := userType |};
       guardianFor := wards |} in
  let out := snd (baseHandler GetPatientOp
                    {| arg_id := Some id; arg_input := input |} caller w) in
  out = Threw dbError \/ out = Threw kmsError \/ exists r, out = Returned r.
Proof.
  intros id caller.
  assert (Hacc : hasPatientAccess caller id = true).
  { unfold hasPatientAccess, caller. cbn [auth role userId guardianFor].
    rewrite !String.eqb_refl. reflexivity. }
  unfold baseHandler. cbn [arg_id arg_input].
  change (nonempty (Some id)) with (Some id). cbv iota. rewrite Hacc.
  simpl negb. cbv iota.
  unfold getPatient, bind, ret, throw, queryPatient. simpl.
  destruct (db_fault w OpQuery); simpl; [now left|].
  destruct (find _ (patients w)) as [p|]; simpl; [|right; right; eauto].
  unfold decryptSensitiveData, bind, ret, decryptWithKMS.
  destruct (nonempty (pat_ssn p)) as [ct|]; simpl; [|right; right; eauto].
  destruct (kms_decrypt w ct); simpl; [right; right; eauto | right; now left].
Qed.

(** C5 at its failing input: a patient whose user id is the patient id
    passes [hasPatientAccess] in the [updatePatient] case (the comment there
    reads "Only staff or self can update patient info"), and
    [updatePatient] then throws ['Unauthorized'], because its own role list
    is [PROVIDER, ADMIN, NURSE].  Nothing is written. *)
Theorem updatePatient_refuses_owner (w : World) (c : ascii) (u email userType : string)
    (wards : option (list string)) (input : UpdatePatientInput) :
  let id := String c u in
  let caller :=
    {| auth := {| userId := id; email := email; role := "PATIENT";
                  userType := userType |};
       guardianFor := wards |} in
  hasPatientAccess caller id = true
  /\ baseHandler UpdatePatientOp
       {| arg_id := Some id; arg_input := Some input |} caller w
     = (w, Threw UNAUTHORIZED).
Proof.
  intros id caller.
  assert (Hacc : hasPatientAccess caller id = true).
  { unfold hasPatientAccess, caller. cbn [auth role userId guardianFor].
    rewrite !String.eqb_refl. reflexivity. }
  split; [exact Hacc|].
  unfold baseHandler. cbn [arg_id arg_input].
  change (nonempty (Some id)) with (Some id). cbv iota. rewrite Hacc.
  reflexivity.
Qed.

Example updatePatient_owner_run :
  snd (baseHandler UpdatePatientOp
         {| arg_id := Some "u1";
            arg_input := Some {| in_demographics := None;
                                 in_insurance := Some "ACME";
                                 in_preferredLanguage := None |} |}
         Demo.owner_caller (Demo.backend Demo.no_fault))
  = Threw (mkError "Unauthorized").
Proof. reflexivity. Qed.

Example getPatient_owner_run :
  exists p, snd (baseHandler GetPatientOp
                   {| arg_id := Some "u1"; arg_input := None |}
                   Demo.owner_caller (Demo.backend Demo.no_fault))
            = Returned (Some p).
Proof. eexists. vm_compute. reflexivity. Qed.

End PatientTheorems.

(* ------------------------------------------------------------------ *)
(** ** The order of fetch, decision, decryption and logging *)

Section TraceTheorems.
Import Lambda Backend Resolver Properties.

Lemma guards_ok_sound (P : Effect -> bool) (tr : list Effect) :
  forall allowed, guards_ok P allowed tr = true ->
  forall pre e post, tr = (pre ++ e :: post)%list -> P e = true ->
    allowed = true \/ In (Decided true) pre.
Proof.
  induction tr as [|x tr IH]; intros allowed H pre e post Heq HP.
  - destruct pre; discriminate.
  - simpl in H. apply andb_true_iff in H as [H1 H2].
    destruct pre as [|y pre]; simpl in Heq; injection Heq as -> ->.
    + rewrite HP in H1. left. exact H1.
    + destruct (IH _ H2 pre e post eq_refl HP) as [Ha|Hin].
      * destruct y as [ | | | | |[|]]; try (left; exact Ha).
        right. left. reflexivity.
      * right. right. exact Hin.
Qed.

Lemma guards_ok_decision_precedes (P : Effect -> bool) (tr : list Effect) :
  guards_ok P false tr = true -> decision_precedes P tr.
Proof.
  intros H pre e post Heq HP.
  destruct (guards_ok_sound P tr false H pre e post Heq HP) as [Hf|Hin];
    [discriminate | exact Hin].
Qed.

(** Closes one path of a resolver: the effects it has added are read off
    the world, and the three properties of the rest are decided on it. *)
Ltac close_trace :=
  simpl; rewrite <- ?app_assoc; simpl;
  eexists _, _; split; [reflexivity|];
  split; [reflexivity|];
  split; [apply guards_ok_decision_precedes; reflexivity|];
  split;
  [ intros Hfound; first [discriminate Hfound | reflexivity]
  | intros Hin; simpl in Hin;
    repeat (destruct Hin as [Hin|Hin]; [first [discriminate Hin | reflexivity]|]);
    first [contradiction | reflexivity] ].

Lemma getMedicalRecord_trace (w : World) (id : string) (identity : CognitoIdentity) :
  exists found rest,
    trace (fst (MedicalRecordService.getMedicalRecord id identity w))
    = (trace w ++ Queried (SelectRecord id) found :: rest)%list
    /\ columns_of (SelectRecord id) = AllColumns
    /\ decision_precedes guarded rest
    /\ (found = false -> rest = [])
    /\ (In (Decided false) rest -> rest = [Decided false]).
Proof.
  unfold MedicalRecordService.getMedicalRecord, bind, queryRecord.
  destruct (db_fault w OpQuery); [close_trace|].
  destruct (find _ (medical_records w)) as [r|]; [|close_trace].
  unfold decided, throw.
  destruct (role_is _ _ && differs _ _); simpl negb; cbv iota; [close_trace|].
  unfold MedicalRecordService.logAccessEvent, MedicalRecordService.logHipaaEvent,
    MedicalRecordService.formatMedicalRecord, insertAccessLog, insertAuditLog,
    decryptWithKMS, bind, ret, lift.
  destruct (nonempty (mr_content_encrypted _)) as [ct|]; simpl.
  - destruct (kms_decrypt w ct); simpl; [|close_trace].
    destruct (db_fault w (OpInsert "medical_record_access_logs")); simpl;
      [close_trace|].
    destruct (db_fault w (OpInsert "audit_logs")); simpl; [close_trace|].
    repeat (destruct (MedicalRecordService.parse_or_empty _); simpl;
            [|close_trace]).
    close_trace.
  - destruct (db_fault w (OpInsert "medical_record_access_logs")); simpl;
      [close_trace|].
    destruct (db_fault w (OpInsert "audit_logs")); simpl; [close_trace|].
    repeat (destruct (MedicalRecordService.parse_or_empty _); simpl;
            [|close_trace]).
    close_trace.
Qed.

Lemma getAppointment_trace (w : World) (id : string) (identity : CognitoIdentity) :
  exists found rest,
    trace (fst (AppointmentService.getAppointment id identity w))
    = (trace w ++ Queried (SelectAppointment id) found :: rest)%list
    /\ columns_of (SelectAppointment id) = AllColumns
    /\ decision_precedes guarded rest
    /\ (found = false -> rest = [])
    /\ (In (Decided false) rest -> rest = [Decided false]).
Proof.
  unfold AppointmentService.getAppointment, bind, queryAppointment.
  destruct (db_fault w OpQuery); [close_trace|].
  destruct (find _ (appointments w)) as [a|]; [|close_trace].
  unfold decided, throw.
  destruct (role_is _ _ && differs _ _); simpl negb; cbv iota; [close_trace|].
  unfold AppointmentService.logHipaaEvent, insertAuditLog, ret. simpl.
  destruct (db_fault w (OpInsert "audit_logs")); close_trace.
Qed.


(** C1, as amended: [getMedicalRecord] and [getAppointment] first send the
    joined query that selects the whole row, protected columns included,
    and decide on what it returned; every effect after that query
    (decryption through KMS, the access-log and audit-log inserts) occurs
    only after a positive decision; a record that is not found is followed
    by no effect at all and a denial by none either. *)
Theorem resolvers_decide_before_decrypting (w : World) (id : string)
    (identity : CognitoIdentity) :
  (exists found rest,
     trace (fst (MedicalRecordService.getMedicalRecord id identity w))
     = (trace w ++ Queried (SelectRecord id) found :: rest)%list
     /\ columns_of (SelectRecord id) = AllColumns
     /\ decision_precedes guarded rest
     /\ (found = false -> rest = [])
     /\ (In (Decided false) rest -> rest = [Decided false]))
  /\ (exists found rest,
        trace (fst (AppointmentService.getAppointment id identity w))
        = (trace w ++ Queried (SelectAppointment id) found :: rest)%list
        /\ columns_of (SelectAppointment id) = AllColumns
        /\ decision_precedes guarded rest
        /\ (found = false -> rest = [])
        /\ (In (Decided false) rest -> rest = [Decided false])).
Proof.
  split; [apply getMedicalRecord_trace | apply getAppointment_trace].
Qed.

(** C1, as stated, fails: for a patient who does not own the record the
    whole row has been fetched and the only decision is the denial that
    follows it. *)
Lemma getMedicalRecord_fetches_before_deciding :
  trace (fst (MedicalRecordService.getMedicalRecord "rec-1" Demo.other
                (Demo.backend Demo.no_fault)))
  = [Queried (SelectRecord "rec-1") true; Decided false]
  /\ ~ decision_precedes touches_content
        (trace (fst (MedicalRecordService.getMedicalRecord "rec-1" Demo.other
                       (Demo.backend Demo.no_fault)))).
Proof.
  split; [reflexivity|].
  intros H.
  exact (H [] (Queried (SelectRecord "rec-1") true) [Decided false]
           eq_refl eq_refl).
Qed.

End TraceTheorems.

(* ------------------------------------------------------------------ *)
(** ** What a refused caller is told *)

Section DenialTheorems.
Import Lambda Backend Resolver Properties.

(** C4, as amended: with the database answering, a patient who asks for a
    record that does not exist gets a plain [Error] with the message
    ['Medical record not found'], and one who asks for a record of another
    patient gets a plain [Error] with the message
    ['Access denied to medical record'], whatever the record and whoever
    the patient; the two messages differ.  The same holds of
    [getAppointment] with its two messages. *)
Theorem denial_messages (w : World) (id : string) (identity : CognitoIdentity) :
  db_fault w OpQuery = false ->
  role_is (custom_role identity) "PATIENT" = true ->
  (find (fun r => String.eqb (mr_id r) id) (medical_records w) = None ->
     snd (MedicalRecordService.getMedicalRecord id identity w)
     = Threw (mkError "Medical record not found"))
  /\ (forall r,
        find (fun r => String.eqb (mr_id r) id) (medical_records w) = Some r ->
        differs (patient_user_id (join_patient w (mr_patient_id r) r))
                (sub identity) = true ->
        snd (MedicalRecordService.getMedicalRecord id identity w)
        = Threw (mkError "Access denied to medical record"))
  /\ (find (fun a => String.eqb (ap_id a) id) (appointments w) = None ->
        snd (AppointmentService.getAppointment id identity w)
        = Threw (mkError "Appointment not found"))
  /\ (forall a,
        find (fun a => String.eqb (ap_id a) id) (appointments w) = Some a ->
        differs (patient_user_id (join_patient w (ap_patient_id a) a))
                (sub identity) = true ->
        snd (AppointmentService.getAppointment id identity w)
        = Threw (mkError "Access denied to appointment"))
  /\ mkError "Medical record not found" <> mkError "Access denied to medical record"
  /\ mkError "Appointment not found" <> mkError "Access denied to appointment".
Proof.
  intros Hdb Hrole. repeat split.
  - intros Hnone.
    unfold MedicalRecordService.getMedicalRecord, bind, queryRecord.
    now rewrite Hdb, Hnone.
  - intros r Hsome Hdiff.
    unfold MedicalRecordService.getMedicalRecord, bind, queryRecord.
    rewrite Hdb, Hsome. unfold decided. cbv iota beta.
    now rewrite Hrole, Hdiff.
  - intros Hnone.
    unfold AppointmentService.getAppointment, bind, queryAppointment.
    now rewrite Hdb, Hnone.
  - intros a Hsome Hdiff.
    unfold AppointmentService.getAppointment, bind, queryAppointment.
    rewrite Hdb, Hsome. unfold decided. cbv iota beta.
    now rewrite Hrole, Hdiff.
  - discriminate.
  - discriminate.
Qed.

Lemma denial_messages_witness :
  (find (fun r => String.eqb (mr_id r) "rec-1")
        (medical_records (Demo.backend Demo.no_fault)) = None ->
     snd (MedicalRecordService.getMedicalRecord "rec-1" Demo.other
            (Demo.backend Demo.no_fault))
     = Threw (mkError "Medical record not found"))
  /\ (forall r,
        find (fun r => String.eqb (mr_id r) "rec-1")
             (medical_records (Demo.backend Demo.no_fault)) = Some r ->
        differs (patient_user_id
                   (join_patient (Demo.backend Demo.no_fault) (mr_patient_id r) r))
                (sub Demo.other) = true ->
        snd (MedicalRecordService.getMedicalRecord "rec-1" Demo.other
               (Demo.backend Demo.no_fault))
        = Threw (mkError "Access denied to medical record"))
  /\ (find (fun a => String.eqb (ap_id a) "rec-1")
            (appointments (Demo.backend Demo.no_fault)) = None ->
        snd (AppointmentService.getAppointment "rec-1" Demo.other
               (Demo.backend Demo.no_fault))
        = Threw (mkError "Appointment not found"))
  /\ (forall a,
        find (fun a => String.eqb (ap_id a) "rec-1")
             (appointments (Demo.backend Demo.no_fault)) = Some a ->
        differs (patient_user_id
                   (join_patient (Demo.backend Demo.no_fault) (ap_patient_id a) a))
                (sub Demo.other) = true ->
        snd (AppointmentService.getAppointment "rec-1" Demo.other
               (Demo.backend Demo.no_fault))
        = Threw (mkError "Access denied to appointment"))
  /\ mkError "Medical record not found" <> mkError "Access denied to medical record"
  /\ mkError "Appointment not found" <> mkError "Access denied to appointment".
Proof.
  apply (denial_messages (Demo.backend Demo.no_fault) "rec-1" Demo.other);
    reflexivity.
Defined.

(** C4, as stated, fails: the same caller is told different things about
    a record of somebody else and about a record that does not exist. *)
Lemma denial_reveals_existence :
  snd (MedicalRecordService.getMedicalRecord "rec-1" Demo.other
         (Demo.backend Demo.no_fault))
  <> snd (MedicalRecordService.getMedicalRecord "rec-404" Demo.other
            (Demo.backend Demo.no_fault))
  /\ snd (AppointmentService.getAppointment "apt-1" Demo.other
            (Demo.backend Demo.no_fault))
     <> snd (AppointmentService.getAppointment "apt-404" Demo.other
               (Demo.backend Demo.no_fault)).
Proof. split; vm_compute; discriminate. Qed.

End DenialTheorems.

(* ------------------------------------------------------------------ *)
(** ** A failing audit write *)

Section AuditFailureTheorems.
Import Lambda Backend Resolver Properties.

(** The shared recorder swallows: a rejected put is written to the
    console, and the rest of the world is as after an accepted one. *)
Lemma createAuditLog_swallows (entry : AuditLogEntry) (w : Lambda.World)
    (rest : list bool) :
  put_faults w = true :: rest ->
  let w' := createAuditLog entry w in
  console w' = (console w ++ ["Failed to create audit log:"])%list
  /\ Lambda.event w' = Lambda.event w
  /\ map put_accepted (audit_puts w') = (map put_accepted (audit_puts w) ++ [false])%list
  /\ put_faults w' = rest.
Proof.
  intros H. unfold createAuditLog. rewrite H. simpl.
  rewrite map_app. repeat split; reflexivity.
Qed.

(** Whatever the table does, [withAuditLog] hands on the outcome of the
    handler it wraps once its snapshot of the bodies is built. *)
Lemma withAuditLog_keeps_outcome (options : AuditLogOptions) (h : LambdaHandler)
    (ctx : Context) (w w2 : Lambda.World) (entry : AuditLogEntry) :
  auditEntry options (now w) (snd (h ctx w)) (fst (h ctx w)) = (w2, Returned entry) ->
  snd (withAuditLog options h ctx w) = snd (h ctx w).
Proof.
  intros H. unfold withAuditLog. destruct (h ctx w) as [w1 out].
  simpl in H. rewrite H. reflexivity.
Qed.

(** The per-service recorder does not: when the insert into [audit_logs]
    is rejected, no call of [getMedicalRecord] or [getAppointment] returns. *)
Lemma getMedicalRecord_needs_audit_insert (w : World) (id : string)
    (identity : CognitoIdentity) :
  db_fault w (OpInsert "audit_logs") = true ->
  forall r, snd (MedicalRecordService.getMedicalRecord id identity w) <> Returned r.
Proof.
  intros Hf r.
  unfold MedicalRecordService.getMedicalRecord, bind, queryRecord.
  destruct (db_fault w OpQuery); [discriminate|].
  destruct (find _ (medical_records w)); [|discriminate].
  unfold decided, throw.
  destruct (role_is _ _ && differs _ _); simpl negb; cbv iota; [discriminate|].
  unfold MedicalRecordService.logAccessEvent, MedicalRecordService.logHipaaEvent,
    insertAccessLog, insertAuditLog, decryptWithKMS, bind, ret.
  destruct (nonempty (mr_content_encrypted _)) as [ct|]; simpl.
  - destruct (kms_decrypt w ct); simpl; [|discriminate].
    destruct (db_fault w (OpInsert "medical_record_access_logs")); simpl;
      [discriminate|].
    rewrite Hf. discriminate.
  - destruct (db_fault w (OpInsert "medical_record_access_logs")); simpl;
      [discriminate|].
    rewrite Hf. discriminate.
Qed.

(** C8 at its failing input: with the [audit_logs] table rejecting
    inserts, the owner's read of [rec-1] has passed the authorization test,
    decrypted the content and written the access-log row, and then throws
    the database error of [logHipaaEvent]; with the table working the same
    call returns the record.  [getAppointment] fails in the same way. *)
Theorem logHipaaEvent_failure_reaches_caller :
  (exists r,
     snd (MedicalRecordService.getMedicalRecord "rec-1" Demo.owner
            (Demo.backend Demo.no_fault)) = Returned r)
  /\ snd (MedicalRecordService.getMedicalRecord "rec-1" Demo.owner
            (Demo.backend Demo.audit_down)) = Threw dbError
  /\ trace (fst (MedicalRecordService.getMedicalRecord "rec-1" Demo.owner
                   (Demo.backend Demo.audit_down)))
     = [Queried (SelectRecord "rec-1") true; Decided true; Decrypted "kms:note";
        Inserted "medical_record_access_logs"; Inserted "audit_logs"]
  /\ length (access_logs
               (fst (MedicalRecordService.getMedicalRecord "rec-1" Demo.owner
                       (Demo.backend Demo.audit_down)))) = 1%nat
  /\ (exists a,
        snd (AppointmentService.getAppointment "apt-1" Demo.owner
               (Demo.backend Demo.no_fault)) = Returned a)
  /\ snd (AppointmentService.getAppointment "apt-1" Demo.owner
            (Demo.backend Demo.audit_down)) = Threw dbError.
Proof.
  repeat split; try reflexivity; eexists; vm_compute; reflexivity.
Qed.

End AuditFailureTheorems.

(* ------------------------------------------------------------------ *)
(** ** Audit entries of a refused call *)

Section PipelineTheorems.
Import Backend Lambda Properties Expected PatientService.

Lemma put_statuses_createAuditLog (entry : AuditLogEntry) (w : Lambda.World) :
  put_statuses (createAuditLog entry w)
  = (put_statuses w ++ [entry_statusCode entry])%list.
Proof.
  unfold createAuditLog, put_statuses.
  destruct (match put_faults w with b :: _ => b | [] => false end);
    simpl; now rewrite map_app.
Qed.



(** The audit layer alone: when the wrapped handler throws and the
    snapshot of the request body can be built, one entry with status 500
    is put and the error is thrown on. *)
Lemma withAuditLog_thrown (options : AuditLogOptions) (h : LambdaHandler)
    (ctx : Context) (w wh : Lambda.World) (e : Thrown) (reqBody : option Json.json) :
  h ctx w = (wh, Threw e) ->
  snapshot (ev_body (Lambda.event wh)) = Returned reqBody ->
  put_statuses (fst (withAuditLog options h ctx w)) = (put_statuses wh ++ [500])%list
  /\ snd (withAuditLog options h ctx w) = Threw e.
Proof.
  intros Hh Hsnap. unfold withAuditLog. rewrite Hh.
  unfold auditEntry, take_uuid. cbn [Lambda.event]. rewrite Hsnap. simpl.
  rewrite put_statuses_createAuditLog. split; reflexivity.
Qed.


End PipelineTheorems.

Section PipelineRuns.
Import Backend Lambda Properties Expected PatientService.


(** The call without a token, run: nothing is put and the answer is 500. *)
Example missing_token_run :
  let run := handler Demo.verify0 Demo.ok_handler Demo.context0
               (Demo.world_of (Demo.event_of None None) []) in
  put_statuses (fst run) = [] /\ response_status (snd run) = Some 500
  /\ console (fst run) = ["Error:"].
Proof. repeat split; reflexivity. Qed.

(** An authentication failure that is not an [UnauthorizedError]: the
    verifier refuses the token, [authenticate] throws a plain [Error], and
    the call ends with status 500 and no audit entry. *)
Example invalid_token_not_audited :
  let run := handler Demo.verify0 Demo.ok_handler Demo.context0
               (Demo.world_of (Demo.event_of (Some "forged") None) []) in
  put_statuses (fst run) = [] /\ response_status (snd run) = Some 500.
Proof. split; reflexivity. Qed.

(** The same layers around a schema that validates and a handler that
    refuses the caller as [baseHandler] does: the audit layer puts its
    entry, with status 500, the error handler puts none, and the answer is
    500, not 401. *)
Example refusing_handler_run :
  let run := withMiddleware Demo.verify0 Demo.schema0 Demo.denying_handler
               Demo.context0
               (Demo.world_of (Demo.event_of (Some "token-u2") None) []) in
  put_statuses (fst run) = [500]
  /\ map (fun p => action (put_entry p)) (audit_puts (fst run))
     = ["POST /graphql/getPatient"]
  /\ response_status (snd run) = Some 500.
Proof. repeat split; reflexivity. Qed.

End PipelineRuns.

(* ================================================================== *)
(** * Further properties of the middleware *)
(* ================================================================== *)

Section ComposeTheorems.
Import Lambda.

(** X1: composing two lists of middlewares one after the other is
    composing their concatenation, the empty list changes nothing, and the
    first middleware of the list is the outermost. *)
Theorem compose_app (ms1 ms2 : list Middleware) (m : Middleware) (h : LambdaHandler) :
  compose (ms1 ++ ms2) h = compose ms1 (compose ms2 h)
  /\ compose [] h = h
  /\ compose (m :: ms1) h = m (compose ms1 h).
Proof.
  unfold compose. split; [apply fold_right_app|]. split; reflexivity.
Qed.

End ComposeTheorems.

Section SecurityHeaderTheorems.
Import Lambda.

Lemma header_set_header_same hs k v : header (set_header hs k v) k = Some v.
Proof.
  induction hs as [|[k' v'] hs IH]; simpl.
  - now rewrite String.eqb_refl.
  - destruct (String.eqb k' k) eqn:E; simpl; rewrite E; [reflexivity | exact IH].
Qed.

Lemma header_set_header_other hs k k' v :
  k <> k' -> header (set_header hs k v) k' = header hs k'.
Proof.
  intros Hne. induction hs as [|[k0 v0] hs IH]; simpl.
  - destruct (String.eqb_spec k k'); [contradiction | reflexivity].
  - destruct (String.eqb_spec k0 k) as [->|Hk]; simpl.
    + destruct (String.eqb_spec k k'); [contradiction | reflexivity].
    + destruct (String.eqb k0 k'); [reflexivity | exact IH].
Qed.

Lemma header_absent (l : list (string * string)) k :
  ~ In k (map fst l) -> header l k = None.
Proof.
  induction l as [|[k0 v0] l IH]; simpl; intros H; [reflexivity|].
  destruct (String.eqb_spec k0 k) as [->|Hk]; [exfalso; apply H; now left|].
  apply IH. intros Hin. apply H. now right.
Qed.

(** Writing a list of headers with distinct names over a header object. *)
Lemma header_fold_set_header (l : list (string * string)) :
  List.NoDup (map fst l) ->
  forall hs k,
    header (fold_left (fun hs kv => set_header hs (fst kv) (snd kv)) l hs) k
    = match header l k with
      | Some v => Some v
      | None => header hs k
      end.
Proof.
  induction l as [|[k0 v0] l IH]; intros Hnd hs k; [reflexivity|].
  simpl in Hnd. apply NoDup_cons_iff in Hnd as [Hnotin Hnd].
  cbn [fold_left fst snd]. rewrite (IH Hnd). simpl.
  destruct (String.eqb_spec k0 k) as [->|Hk].
  - rewrite (header_absent l k Hnotin). apply header_set_header_same.
  - now rewrite header_set_header_other.
Qed.

Lemma securityHeaders_distinct : List.NoDup (map fst securityHeaders).
Proof.
  repeat (apply List.NoDup_cons;
          [simpl; intros H;
           repeat (destruct H as [H|H]; [discriminate H|]); exact H|]).
  apply List.NoDup_nil.
Qed.

(** What [withSecurityHeaders] does to a response. *)
Lemma withSecurityHeaders_returned (h : LambdaHandler) (ctx : Context)
    (w w1 : Lambda.World) (r : Response) :
  h ctx w = (w1, Returned r) ->
  exists r',
    withSecurityHeaders h ctx w = (w1, Returned r')
    /\ statusCode r' = statusCode r
    /\ body r' = body r
    /\ forall k,
         header (headers r') k
         = match header securityHeaders k with
           | Some v => Some v
           | None => header (headers r) k
           end.
Proof.
  intros Hh. unfold withSecurityHeaders. rewrite Hh.
  eexists. split; [reflexivity|]. split; [reflexivity|]. split; [reflexivity|].
  intros k. cbn [headers].
  apply (header_fold_set_header securityHeaders securityHeaders_distinct).
Qed.

(** X2: when the wrapped handler returns, the response that
    [withSecurityHeaders] hands on has the same status and body, carries
    each of the ten security headers with its fixed value, whatever the
    handler had put under that name, and keeps every other header; when the
    handler throws, the error passes through. *)
Theorem withSecurityHeaders_response (h : LambdaHandler) (ctx : Context)
    (w : Lambda.World) :
  match h ctx w with
  | (w1, Returned r) =>
      exists r',
        withSecurityHeaders h ctx w = (w1, Returned r')
        /\ statusCode r' = statusCode r
        /\ body r' = body r
        /\ forall k,
             header (headers r') k
             = match header securityHeaders k with
               | Some v => Some v
               | None => header (headers r) k
               end
  | (w1, Threw e) => withSecurityHeaders h ctx w = (w1, Threw e)
  end.
Proof.
  destruct (h ctx w) as [w1 [r|e]] eqn:Hh.
  - exact (withSecurityHeaders_returned h ctx w w1 r Hh).
  - unfold withSecurityHeaders. now rewrite Hh.
Qed.

End SecurityHeaderTheorems.

Section AuditLayerTheorems.
Import Backend Lambda Properties PatientService.

Lemma createAuditLog_event entry w :
  Lambda.event (createAuditLog entry w) = Lambda.event w.
Proof.
  unfold createAuditLog.
  destruct (match put_faults w with b :: _ => b | [] => false end); reflexivity.
Qed.

Lemma createAuditLog_puts entry w :
  exists p,
    audit_puts (createAuditLog entry w) = (audit_puts w ++ [p])%list
    /\ put_entry p = entry
    /\ put_timestamp p = now w
    /\ put_ttl p = now w / 1000 + 220752000.
Proof.
  unfold createAuditLog.
  destruct (match put_faults w with b :: _ => b | [] => false end);
    simpl; eexists; repeat split; reflexivity.
Qed.

(** X3: [withAuditLog] puts at most one entry per call and never touches
    the event.  Either its snapshot of the bodies is built, and then
    exactly one entry is put after the handler has run, the outcome is the
    handler's own, the entry names the configured resource, its status is
    500 for a thrown error and otherwise the status of the response (200
    for a status of 0), its duration is the time the handler took and it
    expires 7 * 365 days after its timestamp; or the request or response
    body is not JSON, and then nothing is put and the call throws the
    syntax error in place of the handler's outcome. *)
Theorem withAuditLog_entry (options : AuditLogOptions) (h : LambdaHandler)
    (ctx : Context) (w : Lambda.World) :
  let wh := fst (h ctx w) in
  let out := snd (h ctx w) in
  let res := withAuditLog options h ctx w in
  Lambda.event (fst res) = Lambda.event wh
  /\ ((exists p,
         audit_puts (fst res) = (audit_puts wh ++ [p])%list
         /\ snd res = out
         /\ resource (put_entry p) = resourceType options
         /\ entry_statusCode (put_entry p)
            = match out with
              | Threw _ => 500
              | Returned r => if statusCode r =? 0 then 200 else statusCode r
              end
         /\ duration (put_entry p) = now wh - now w
         /\ put_ttl p = put_timestamp p / 1000 + 220752000)
      \/ (audit_puts (fst res) = audit_puts wh
          /\ snd res = Threw mkSyntaxError)).
Proof.
  intros wh out res. subst wh out res. unfold withAuditLog.
  destruct (h ctx w) as [w1 out]. cbn [fst snd].
  unfold auditEntry, take_uuid.
  assert (Hsyn : forall t e, snapshot t = Threw e -> e = mkSyntaxError).
  { intros [[j|s]|] e; unfold snapshot; simpl; try discriminate.
    - destruct (negb (String.eqb s "")); simpl; [|discriminate].
      intros H. now injection H as <-. }
  destruct (snapshot (ev_body (Lambda.event w1))) as [reqBody|e1] eqn:H1.
  2:{ split; [reflexivity|]. right. split; [reflexivity|].
      cbn [snd]. now rewrite (Hsyn _ _ H1). }
  destruct out as [r|e]; cbn [snapshot] in *.
  - destruct (snapshot (body r)) as [respBody|e2] eqn:H2.
    2:{ split; [reflexivity|]. right. split; [reflexivity|].
        cbn [snd]. now rewrite (Hsyn _ _ H2). }
    cbn [fst snd]. split; [now rewrite createAuditLog_event|]. left.
    match goal with |- context [createAuditLog ?e ?w0] =>
      destruct (createAuditLog_puts e w0) as [p [Hp [He [Ht Httl]]]] end.
    exists p. rewrite Hp, He, Httl, Ht. repeat split; reflexivity.
  - cbn [fst snd]. split; [now rewrite createAuditLog_event|]. left.
    match goal with |- context [createAuditLog ?e ?w0] =>
      destruct (createAuditLog_puts e w0) as [p [Hp [He [Ht Httl]]]] end.
    exists p. rewrite Hp, He, Httl, Ht. repeat split; reflexivity.
Qed.

End AuditLayerTheorems.

Section PipelineOutcomeTheorems.
Import Backend Lambda Properties Expected PatientService.

Lemma with_authContext_request_data a ev :
  requestData (with_authContext a ev) = requestData ev.
Proof. reflexivity. Qed.

(** X4: a token that the identity provider rejects.  [authenticate]
    throws a plain [Error], so the pipeline answers with status 500 and the
    general message, not with 401; the wrapped handler is not run, no audit
    entry is put, and the only trace is one line on the console. *)
Theorem withMiddleware_rejected_token (verify : Verifier) (schema : Schema)
    (h : LambdaHandler) (ctx : Context) (w : Lambda.World) (token : string) :
  nonempty (request_authorization (Lambda.event w)) = Some token ->
  verify token = None ->
  withMiddleware verify schema h ctx w
  = (console_error "Error:" w, Returned internalError)
  /\ statusCode internalError = 500.
Proof.
  intros Htoken Hverify. split; [|reflexivity].
  unfold withMiddleware, compose. cbn [fold_right].
  unfold withErrorHandler, withSecurityHeaders, withAuth, authenticate.
  now rewrite Htoken, Hverify.
Qed.

(** X5: a request body that is not JSON, from an authenticated caller.
    [validateRequest] refuses it with a validation error, but the audit
    layer around it fails on the same body while it builds its entry, so
    the error that reaches the error handler is the syntax error: the
    answer is status 500 with the general message (not 400), no audit entry
    is put, and the wrapped handler is not run. *)
Theorem withMiddleware_malformed_body (verify : Verifier) (schema : Schema)
    (h : LambdaHandler) (ctx : Context) (w : Lambda.World)
    (token : string) (ac : AuthContext) (c : ascii) (s : string) :
  nonempty (request_authorization (Lambda.event w)) = Some token ->
  authenticate verify token = Returned ac ->
  ev_body (Lambda.event w) = Some (Raw (String c s)) ->
  snd (withMiddleware verify schema h ctx w) = Returned internalError
  /\ audit_puts (fst (withMiddleware verify schema h ctx w)) = audit_puts w
  /\ authContext (Lambda.event (fst (withMiddleware verify schema h ctx w)))
     = Some ac.
Proof.
  intros Htoken Hauth Hbody.
  unfold withMiddleware, compose. cbn [fold_right].
  unfold withErrorHandler, withSecurityHeaders, withAuth.
  rewrite Htoken, Hauth.
  unfold withAuditLog, validateRequest, requestData.
  cbn [Lambda.event set_event with_authContext ev_body]. rewrite Hbody.
  cbn [text_truthy JSON_parse]. simpl negb. cbv iota.
  unfold auditEntry, take_uuid, snapshot.
  cbn [Lambda.event set_event with_authContext ev_body]. rewrite Hbody.
  repeat split; reflexivity.
Qed.

(** When the request data can be read, the snapshot of the same body can
    be built. *)
Lemma requestData_snapshot (ev : Event) (data : Json.json) :
  requestData ev = Returned data ->
  exists reqBody, snapshot (ev_body ev) = Returned reqBody.
Proof.
  unfold requestData, snapshot. destruct (ev_body ev) as [t|]; [|eauto].
  destruct (text_truthy t); [|eauto].
  destruct (JSON_parse t); [eauto | discriminate].
Qed.


(** X7: the pipeline that the service exports never runs the handler it
    wraps.  Whatever the handler, the call has the same outcome and leaves
    the same world; every call is answered, with status 400 or 500, and at
    most one audit entry is put for it. *)
Theorem handler_never_runs_wrapped_handler (verify : Verifier)
    (h h' : LambdaHandler) (ctx : Context) (w : Lambda.World) :
  handler verify h ctx w = handler verify h' ctx w
  /\ (exists r,
        snd (handler verify h ctx w) = Returned r
        /\ (statusCode r = 400 \/ statusCode r = 500))
  /\ exists ps,
       audit_puts (fst (handler verify h ctx w)) = (audit_puts w ++ ps)%list
       /\ (length ps <= 1)%nat.
Proof.
  split; [reflexivity|].
  unfold handler, withMiddleware, compose. cbn [fold_right].
  unfold withErrorHandler, withSecurityHeaders, withAuth.
  destruct (nonempty (request_authorization (Lambda.event w))) as [token|].
  2:{ split; [eexists; split; [reflexivity | right; reflexivity]|].
      exists []. cbn. rewrite app_nil_r. split; [reflexivity | lia]. }
  unfold authenticate. destruct (verify token) as [payload|].
  2:{ split; [eexists; split; [reflexivity | right; reflexivity]|].
      exists []. cbn. rewrite app_nil_r. split; [reflexivity | lia]. }
  unfold withAuditLog, validateRequest, patientSchema.
  cbn [Lambda.event set_event]. rewrite with_authContext_request_data.
  destruct (requestData (Lambda.event w)) as [data|e] eqn:Hdata.
  - destruct (requestData_snapshot _ _ Hdata) as [reqBody Hsnap].
    unfold auditEntry, take_uuid.
    cbn [Lambda.event set_event with_authContext ev_body]. rewrite Hsnap.
    cbn [snapshot]. cbv beta iota zeta.
    cbn [fst snd is_security_error instanceof_AppError
      mkHandlerValidationError err_class toResponse statusCode err_statusCode].
    match goal with |- context [createAuditLog ?e ?w0] =>
      destruct (createAuditLog_puts e w0) as [p [Hp _]] end.
    split; [eexists; split; [reflexivity | left; reflexivity]|].
    exists [p]. cbn [fst audit_puts console_error]. rewrite Hp.
    split; [reflexivity | simpl; lia].
  - assert (Hsnap : exists e', snapshot (ev_body (Lambda.event w)) = Threw e').
    { unfold requestData in Hdata. unfold snapshot.
      destruct (ev_body (Lambda.event w)) as [t|]; [|discriminate].
      destruct (text_truthy t); [|discriminate].
      destruct (JSON_parse t); [discriminate | eauto]. }
    destruct Hsnap as [e' Hsnap].
    unfold auditEntry, take_uuid.
    cbn [Lambda.event set_event with_authContext ev_body]. rewrite Hsnap.
    cbv beta iota zeta. cbn [fst snd].
    assert (Hclass : is_security_error e' = false /\ instanceof_AppError e' = false).
    { unfold snapshot in Hsnap.
      destruct (ev_body (Lambda.event w)) as [t|]; [|discriminate].
      destruct (text_truthy t); [|discriminate].
      destruct t as [j|raw]; simpl in Hsnap; [discriminate|].
      injection Hsnap as <-. split; reflexivity. }
    destruct Hclass as [Hsec Happ]. rewrite Hsec, Happ.
    split; [eexists; split; [reflexivity | right; reflexivity]|].
    exists []. cbn. rewrite app_nil_r. split; [reflexivity | lia].
Qed.

(** X8: a failed role test is not a security error.  [authorize] returns
    exactly for the roles of its list; what it throws otherwise is a plain
    [Error], so a handler that lets it escape is answered by
    [withErrorHandler] with status 500 and the general message, and no
    [LOGIN_FAILED] entry is put. *)
Theorem authorize_failure_is_internal_error (allowedRoles : list string)
    (caller : AuthContext) (ctx : Context) (w : Lambda.World) :
  (JsString.includes allowedRoles (role caller) = true ->
     authorize allowedRoles caller = Returned tt)
  /\ (JsString.includes allowedRoles (role caller) = false ->
        exists e,
          authorize allowedRoles caller = Threw e
          /\ withErrorHandler (fun _ w0 => (w0, Threw e)) ctx w
             = (console_error "Error:" w, Returned internalError)).
Proof.
  unfold authorize. split; intros H; rewrite H; [reflexivity|].
  eexists. split; reflexivity.
Qed.

End PipelineOutcomeTheorems.

Section PipelineOutcomeRuns.
Import Backend Lambda Properties Expected PatientService.

Lemma withMiddleware_rejected_token_witness :
  withMiddleware Demo.verify0 Demo.schema0 Demo.ok_handler Demo.context0
    (Demo.world_of (Demo.event_of (Some "forged") None) [])
  = (console_error "Error:"
       (Demo.world_of (Demo.event_of (Some "forged") None) []),
     Returned internalError)
  /\ statusCode internalError = 500.
Proof.
  exact (withMiddleware_rejected_token Demo.verify0 Demo.schema0 Demo.ok_handler
           Demo.context0 (Demo.world_of (Demo.event_of (Some "forged") None) [])
           "forged" eq_refl eq_refl).
Defined.

Lemma withMiddleware_malformed_body_witness :
  let w := Demo.world_of (Demo.event_of (Some "token-u2") (Some (Raw "{oops"))) [] in
  snd (withMiddleware Demo.verify0 Demo.schema0 Demo.ok_handler Demo.context0 w)
  = Returned internalError
  /\ audit_puts (fst (withMiddleware Demo.verify0 Demo.schema0 Demo.ok_handler
                        Demo.context0 w)) = audit_puts w
  /\ authContext (Lambda.event
                    (fst (withMiddleware Demo.verify0 Demo.schema0 Demo.ok_handler
                            Demo.context0 w)))
     = Some {| userId := "u2"; email := ""; role := "PATIENT"; userType := "client" |}.
Proof.
  exact (withMiddleware_malformed_body Demo.verify0 Demo.schema0 Demo.ok_handler
           Demo.context0
           (Demo.world_of (Demo.event_of (Some "token-u2") (Some (Raw "{oops"))) [])
           "token-u2" _ "{"%char "oops" eq_refl eq_refl eq_refl).
Defined.


(** The service's pipeline on a well-formed request of the patient [u2]:
    the handler that would answer 200 is not run. *)
Example handler_run_valid_request :
  let run := handler Demo.verify0 Demo.ok_handler Demo.context0
               (Demo.world_of (Demo.event_of (Some "token-u2") None) []) in
  put_statuses (fst run) = [500] /\ response_status (snd run) = Some 400.
Proof. split; reflexivity. Qed.

End PipelineOutcomeRuns.

(* ================================================================== *)
(** * Further properties of the patient service *)
(* ================================================================== *)

Section PatientAccessTheorems.
Import Lambda Backend Resolver PatientService.

Lemma nonempty_Some (a : option string) (s : string) :
  nonempty a = Some s -> a = Some s /\ s <> "".
Proof.
  destruct a as [x|]; simpl; [|discriminate].
  destruct (String.eqb_spec x ""); [discriminate|].
  intros H. injection H as <-. auto.
Qed.

Ltac role_cases caller :=
  destruct (String.eqb_spec (role (auth caller)) "ADMIN");
  destruct (String.eqb_spec (role (auth caller)) "DOCTOR");
  destruct (String.eqb_spec (role (auth caller)) "NURSE");
  destruct (String.eqb_spec (role (auth caller)) "PATIENT");
  destruct (String.eqb_spec (role (auth caller)) "GUARDIAN");
  destruct (String.eqb_spec (role (auth caller)) "PROVIDER");
  try congruence.

(** X9: who can read a patient through [baseHandler].  The test of
    [baseHandler] admits ADMIN, DOCTOR, NURSE, the patient and a guardian
    of the patient; [getPatient] accepts PATIENT, PROVIDER, ADMIN and
    NURSE.  A call returns only where both agree: for ADMIN, for NURSE, and
    for a PATIENT whose user id is the requested id.  A DOCTOR and a
    guardian of the patient pass the first test and are then refused by
    [getPatient] with ['Unauthorized']; a PROVIDER is refused by the first
    test; in each refusal nothing has been queried or written. *)
Theorem baseHandler_read_access (caller : Caller) (id : string)
    (input : option UpdatePatientInput) (w : World) :
  let run := baseHandler GetPatientOp {| arg_id := Some id; arg_input := input |}
               caller w in
  (forall r, snd run = Returned r ->
     role (auth caller) = "ADMIN" \/ role (auth caller) = "NURSE"
     \/ (role (auth caller) = "PATIENT" /\ userId (auth caller) = id))
  /\ (id <> "" -> role (auth caller) = "DOCTOR" -> run = (w, Threw UNAUTHORIZED))
  /\ (id <> "" -> role (auth caller) = "GUARDIAN" ->
        (exists wards, guardianFor caller = Some wards
                       /\ JsString.includes wards id = true) ->
        run = (w, Threw UNAUTHORIZED))
  /\ (id <> "" -> role (auth caller) = "PROVIDER" -> run = (w, Threw READ_DENIED)).
Proof.
  intros run. subst run. unfold baseHandler. cbn [arg_id arg_input].
  destruct (nonempty (Some id)) as [id'|] eqn:Hid.
  2:{ repeat split; try discriminate.
      all: intros Hne; exfalso; simpl in Hid;
        destruct (String.eqb_spec id ""); [contradiction | discriminate]. }
  apply nonempty_Some in Hid as [Hid _]. injection Hid as <-.
  unfold hasPatientAccess, getPatient, toFunctionIdentity, bind, ret, throw.
  cbn [fi_sub fi_role fi_userType].
  split; [|split; [|split]].
  - intros r. unfold JsString.includes at 2. cbn [existsb].
    role_cases caller; simpl; try discriminate; auto.
    + destruct (String.eqb_spec (userId (auth caller)) id); simpl; auto.
      discriminate.
    + destruct (guardianFor caller) as [wards|]; [|discriminate].
      destruct (JsString.includes wards id); discriminate.
  - intros _ Hrole. rewrite Hrole. reflexivity.
  - intros _ Hrole [wards [Hg Hin]]. rewrite Hrole, Hg, Hin. reflexivity.
  - intros _ Hrole. rewrite Hrole. reflexivity.
Qed.

(** X10: who can update a patient through [baseHandler]: a call returns
    only for ADMIN and NURSE.  DOCTOR, the patient and the guardian pass
    the test of [baseHandler] and are refused by [updatePatient]; PROVIDER,
    which [updatePatient] accepts, is refused by the test of
    [baseHandler]. *)
Theorem baseHandler_update_access (caller : Caller) (id : string)
    (input : UpdatePatientInput) (w : World) :
  let run := baseHandler UpdatePatientOp
               {| arg_id := Some id; arg_input := Some input |} caller w in
  (forall r, snd run = Returned r ->
     role (auth caller) = "ADMIN" \/ role (auth caller) = "NURSE")
  /\ (id <> "" -> role (auth caller) = "PROVIDER" -> run = (w, Threw UPDATE_DENIED))
  /\ (id <> "" -> role (auth caller) = "DOCTOR" -> run = (w, Threw UNAUTHORIZED)).
Proof.
  intros run. subst run. unfold baseHandler. cbn [arg_id arg_input].
  destruct (nonempty (Some id)) as [id'|] eqn:Hid.
  2:{ repeat split; try discriminate.
      all: intros Hne; exfalso; simpl in Hid;
        destruct (String.eqb_spec id ""); [contradiction | discriminate]. }
  apply nonempty_Some in Hid as [Hid _]. injection Hid as <-.
  unfold hasPatientAccess, updatePatient, toFunctionIdentity, throw.
  cbn [fi_sub fi_role fi_userType].
  split; [|split].
  - intros r. unfold JsString.includes at 2. cbn [existsb].
    role_cases caller; simpl; try discriminate; auto.
    + destruct (String.eqb (userId (auth caller)) id); simpl; discriminate.
    + destruct (guardianFor caller) as [wards|]; [|discriminate].
      destruct (JsString.includes wards id); discriminate.
  - intros _ Hrole. rewrite Hrole. reflexivity.
  - intros _ Hrole. rewrite Hrole. reflexivity.
Qed.

Lemma decryptSensitiveData_keeps_owner (p p' : PatientRow) (w w' : World) :
  decryptSensitiveData p w = (w', Returned p') ->
  pat_user_id p' = pat_user_id p /\ pat_id p' = pat_id p.
Proof.
  unfold decryptSensitiveData, bind, ret, decryptWithKMS.
  destruct (nonempty (pat_ssn p)) as [ct|].
  - destruct (kms_decrypt w ct); intros H; [|discriminate].
    injection H as _ <-. split; reflexivity.
  - intros H. injection H as _ <-. split; reflexivity.
Qed.

(** X11: a patient sees no record but the patient's own.  For a caller
    with the role PATIENT, whatever id is asked for, a row that
    [getPatient] returns is a row of the patients table whose [user_id] is
    the caller's [sub]. *)
Theorem getPatient_patient_isolation (id : string) (identity : FunctionIdentity)
    (w : World) (p : PatientRow) :
  fi_role identity = "PATIENT" ->
  snd (getPatient id identity w) = Returned (Some p) ->
  pat_user_id p = Some (fi_sub identity)
  /\ exists row, In row (patients w) /\ pat_id row = pat_id p
                 /\ pat_user_id row = Some (fi_sub identity).
Proof.
  intros Hrole. unfold getPatient, bind, ret, queryPatient. rewrite Hrole.
  cbn [String.eqb]. simpl.
  destruct (db_fault w OpQuery); simpl; [discriminate|].
  destruct (find _ (patients w)) as [row|] eqn:Hfind; simpl; [|discriminate].
  destruct (decryptSensitiveData row _) as [w' [p'|e]] eqn:Hdec; simpl;
    [|discriminate].
  intros H. injection H as <-.
  apply decryptSensitiveData_keeps_owner in Hdec as [Hu Hi].
  apply find_some in Hfind as [Hin Hmatch].
  destruct (pat_user_id row) as [u|] eqn:Hrow; [|discriminate].
  apply String.eqb_eq in Hmatch. subst u.
  split; [congruence|]. exists row. repeat split; congruence.
Qed.

Lemma getPatient_keeps_rows (id : string) (identity : FunctionIdentity) (w : World) :
  patients (fst (getPatient id identity w)) = patients w
  /\ exists rest, trace (fst (getPatient id identity w)) = (trace w ++ rest)%list.
Proof.
  unfold getPatient, bind, ret, throw, queryPatient.
  destruct (String.eqb (fi_role identity) "PATIENT");
    [|destruct (JsString.includes _ (fi_role identity))].
  3:{ split; [reflexivity|]. exists []. simpl. now rewrite app_nil_r. }
  all: destruct (db_fault w OpQuery); simpl;
    [split; [reflexivity|]; eexists; reflexivity|].
  all: unfold find_patient; destruct (find _ (patients w)) as [row|]; simpl;
    [|split; [reflexivity|]; eexists; reflexivity].
  all: unfold decryptSensitiveData, bind, ret, decryptWithKMS;
    destruct (nonempty (pat_ssn row)) as [ct|]; simpl;
    [destruct (kms_decrypt w ct); simpl|];
    (split; [reflexivity|]; rewrite <- ?app_assoc; eexists; reflexivity).
Qed.

Lemma apply_updates_id u p : pat_id (apply_updates u p) = pat_id p.
Proof. reflexivity. Qed.

(** X12: what [updatePatient] leaves in the table, for a caller it
    accepts and a database that takes the update.  With a social security
    number in the input, the number is encrypted before the update is sent
    and every row with the given id holds the ciphertext that KMS returned
    for it; with demographics that carry no number, the stored number of
    those rows is gone.  No row is added or removed. *)
Theorem updatePatient_stored_ssn (id : string) (input : UpdatePatientInput)
    (identity : FunctionIdentity) (w : World) :
  JsString.includes ["PROVIDER"; "ADMIN"; "NURSE"] (fi_role identity) = true ->
  db_fault w (OpUpdate "patients") = false ->
  (forall c s ct,
     in_demographics input = Some (Some (String c s)) ->
     kms_encrypt w (String c s) = Some ct ->
     (exists rest,
        trace (fst (updatePatient id input identity w))
        = (trace w ++ Encrypted (String c s) :: Updated "patients" id :: rest)%list)
     /\ map pat_id (patients (fst (updatePatient id input identity w)))
        = map pat_id (patients w)
     /\ forall p', In p' (patients (fst (updatePatient id input identity w))) ->
          pat_id p' = id ->
          pat_ssn p' = Some ct /\ pat_updatedBy p' = Some (fi_sub identity))
  /\ (in_demographics input = Some None ->
        map pat_id (patients (fst (updatePatient id input identity w)))
        = map pat_id (patients w)
        /\ forall p', In p' (patients (fst (updatePatient id input identity w))) ->
             pat_id p' = id -> pat_ssn p' = None).
Proof.
  intros Hrole Hdb.
  assert (Hids : forall u l,
    map pat_id (map (fun p => if String.eqb (pat_id p) id
                              then apply_updates u p else p) l)
    = map pat_id l).
  { intros u l. rewrite map_map. apply map_ext. intros p.
    now destruct (String.eqb (pat_id p) id). }
  split.
  - intros c s ct Hin Hkms.
    set (u := {| up_updatedBy := fi_sub identity;
                 up_demographics := Some (Some ct);
                 up_insurance := nonempty (in_insurance input);
                 up_preferredLanguage := nonempty (in_preferredLanguage input) |}).
    assert (Hrun : updatePatient id input identity w
                   = getPatient id identity
                       (fst (updatePatientRow id u
                               (log_effect (Encrypted (String c s)) w)))).
    { unfold updatePatient. rewrite Hrole. cbn [negb].
      rewrite Hin. change (nonempty (Some (String c s))) with (Some (String c s)).
      cbv iota. unfold bind, encryptWithKMS, ret. cbv beta. rewrite Hkms.
      unfold updatePatientRow. cbn [db_fault log_effect]. rewrite Hdb.
      reflexivity. }
    rewrite Hrun.
    match goal with |- context [getPatient id identity ?w0] =>
      destruct (getPatient_keeps_rows id identity w0) as [Hrows [rest Htr]] end.
    rewrite Hrows, Htr. unfold updatePatientRow.
    cbn [db_fault log_effect]. rewrite Hdb. cbn [fst patients trace log_effect].
    split; [|split].
    + exists rest. now rewrite <- !app_assoc.
    + apply Hids.
    + intros p' Hp' Hid.
      apply in_map_iff in Hp' as [p [Hp _]].
      destruct (String.eqb_spec (pat_id p) id) as [Heq|Hne]; subst p'.
      * split; reflexivity.
      * contradiction.
  - intros Hin.
    set (u := {| up_updatedBy := fi_sub identity;
                 up_demographics := Some None;
                 up_insurance := nonempty (in_insurance input);
                 up_preferredLanguage := nonempty (in_preferredLanguage input) |}).
    assert (Hrun : updatePatient id input identity w
                   = getPatient id identity (fst (updatePatientRow id u w))).
    { unfold updatePatient. rewrite Hrole. cbn [negb].
      rewrite Hin. cbn [nonempty]. unfold bind, ret, updatePatientRow.
      cbv beta iota. rewrite Hdb. reflexivity. }
    rewrite Hrun.
    match goal with |- context [getPatient id identity ?w0] =>
      destruct (getPatient_keeps_rows id identity w0) as [Hrows _] end.
    rewrite Hrows. unfold updatePatientRow. rewrite Hdb.
    cbn [fst patients log_effect].
    split; [apply Hids|].
    intros p' Hp' Hid.
    apply in_map_iff in Hp' as [p [Hp _]].
    destruct (String.eqb_spec (pat_id p) id) as [Heq|Hne]; subst p'.
    + reflexivity.
    + contradiction.
Qed.

(** X13: the caller that [baseHandler] sees is built by
    [convertToAppSyncHandler] from the identity of the AppSync event alone:
    the role is the ['custom:role'] claim, ['PATIENT'] when there is none,
    the user id is [sub], the empty string when there is none, and there is
    no [guardianFor].  So through [convertToAppSyncHandler(baseHandler)] a
    GUARDIAN is refused for every patient, and an event without identity
    is refused for every patient, on a read and on an update, before
    anything is queried or written; a caller without a role claim passes
    the test as the PATIENT whose id is its [sub]. *)
Theorem convertToAppSyncHandler_access (op : Operation) (id : string)
    (input : UpdatePatientInput) (identity : option AppSyncIdentity) (w : World) :
  let event := {| ev_fieldName := op;
                  ev_arguments := {| arg_id := Some id; arg_input := Some input |};
                  ev_identity := identity |} in
  let claims := match identity with Some i => id_claims i | None => None end in
  let denied := match op with
                | GetPatientOp => READ_DENIED
                | UpdatePatientOp => UPDATE_DENIED
                end in
  id <> "" ->
  (exists caller,
     convertToAppSyncHandler baseHandler event w
     = baseHandler op (ev_arguments event) caller w
     /\ guardianFor caller = None
     /\ userId (auth caller)
        = nullish (match identity with Some i => id_sub i | None => None end) ""
     /\ role (auth caller)
        = nullish (match claims with Some c => cl_role c | None => None end)
                  "PATIENT")
  /\ (match claims with Some c => cl_role c | None => None end = Some "GUARDIAN" ->
      convertToAppSyncHandler baseHandler event w = (w, Threw denied))
  /\ (identity = None ->
      convertToAppSyncHandler baseHandler event w = (w, Threw denied))
  /\ (match claims with Some c => cl_role c | None => None end = None ->
      match identity with Some i => id_sub i | None => None end = Some id ->
      convertToAppSyncHandler baseHandler
        {| ev_fieldName := GetPatientOp;
           ev_arguments := {| arg_id := Some id; arg_input := Some input |};
           ev_identity := identity |} w
      = getPatient id
          {| fi_sub := id; fi_role := "PATIENT";
             fi_userType :=
               nullish (match claims with Some c => cl_userType c | None => None end)
                       "client" |} w).
Proof.
  intros event claims denied Hid.
  assert (Hne : nonempty (Some id) = Some id).
  { simpl. destruct (String.eqb_spec id ""); [contradiction | reflexivity]. }
  subst event denied. unfold convertToAppSyncHandler.
  cbn [ev_fieldName ev_arguments ev_identity]. fold claims.
  split; [|split; [|split]].
  - eexists. split; [reflexivity|]. repeat split; reflexivity.
  - intros Hrole. rewrite Hrole. unfold baseHandler. cbn [arg_id arg_input].
    rewrite Hne. unfold hasPatientAccess.
    cbn [auth role userId guardianFor nullish]. simpl.
    destruct op; reflexivity.
  - intros ->. subst claims. unfold baseHandler. cbn [arg_id arg_input].
    rewrite Hne. unfold hasPatientAccess.
    cbn [auth role userId guardianFor nullish].
    destruct id as [|c rest]; [now elim Hid|].
    destruct op; reflexivity.
  - intros Hrole Hsub. rewrite Hrole, Hsub. unfold baseHandler.
    cbn [arg_id arg_input]. rewrite Hne. unfold hasPatientAccess.
    cbn [auth role userId guardianFor nullish]. simpl.
    rewrite String.eqb_refl. reflexivity.
Qed.

End PatientAccessTheorems.

Section PatientAccessRuns.
Import Lambda Backend Resolver PatientService.

Lemma getPatient_patient_isolation_witness :
  pat_user_id
    {| pat_id := "p1"; pat_user_id := Some "u1"; pat_mrn := "MRN000001";
       pat_ssn := Some "plain of kms:ssn"; pat_insurance := None;
       pat_preferredLanguage := Some "en"; pat_updatedBy := None |}
  = Some "u1"
  /\ exists row, In row (patients (Demo.backend Demo.no_fault))
                 /\ pat_id row = "p1" /\ pat_user_id row = Some "u1".
Proof.
  exact (getPatient_patient_isolation "someone-else"
           {| fi_sub := "u1"; fi_role := "PATIENT"; fi_userType := "client" |}
           (Demo.backend Demo.no_fault) _ eq_refl eq_refl).
Defined.

Lemma updatePatient_stored_ssn_witness :
  let identity := {| fi_sub := "admin-1"; fi_role := "ADMIN";
                     fi_userType := "service_provider" |} in
  let input := {| in_demographics := Some (Some "123-45-6789");
                  in_insurance := None; in_preferredLanguage := None |} in
  let w := Demo.backend Demo.no_fault in
  (exists rest,
     trace (fst (updatePatient "p1" input identity w))
     = (trace w ++ Encrypted "123-45-6789" :: Updated "patients" "p1" :: rest)%list)
  /\ map pat_id (patients (fst (updatePatient "p1" input identity w)))
     = map pat_id (patients w)
  /\ forall p', In p' (patients (fst (updatePatient "p1" input identity w))) ->
       pat_id p' = "p1" ->
       pat_ssn p' = Some "kms:123-45-6789" /\ pat_updatedBy p' = Some "admin-1".
Proof.
  exact (proj1 (updatePatient_stored_ssn "p1"
                  {| in_demographics := Some (Some "123-45-6789");
                     in_insurance := None; in_preferredLanguage := None |}
                  {| fi_sub := "admin-1"; fi_role := "ADMIN";
                     fi_userType := "service_provider" |}
                  (Demo.backend Demo.no_fault) eq_refl eq_refl)
           "1"%char "23-45-6789" "kms:123-45-6789" eq_refl eq_refl).
Defined.

Lemma convertToAppSyncHandler_access_witness :
  let input := {| in_demographics := None; in_insurance := None;
                  in_preferredLanguage := Some "fr" |} in
  let identity :=
    Some {| id_sub := Some "g1";
            id_claims := Some {| cl_email := None; cl_role := Some "GUARDIAN";
                                 cl_userType := Some "client" |} |} in
  convertToAppSyncHandler baseHandler
    {| ev_fieldName := UpdatePatientOp;
       ev_arguments := {| arg_id := Some "p1"; arg_input := Some input |};
       ev_identity := identity |}
    (Demo.backend Demo.no_fault)
  = (Demo.backend Demo.no_fault, Threw UPDATE_DENIED).
Proof.
  exact (proj1 (proj2 (convertToAppSyncHandler_access UpdatePatientOp "p1"
                         {| in_demographics := None; in_insurance := None;
                            in_preferredLanguage := Some "fr" |}
                         (Some {| id_sub := Some "g1";
                                  id_claims :=
                                    Some {| cl_email := None;
                                            cl_role := Some "GUARDIAN";
                                            cl_userType := Some "client" |} |})
                         (Demo.backend Demo.no_fault)
                         ltac:(discriminate)))
           eq_refl).
Defined.

(** A caller whose event carries no role claim reads its own record as a
    PATIENT: the query is by the caller's [sub]. *)
Example convertToAppSyncHandler_run_default_role :
  trace (fst (convertToAppSyncHandler baseHandler
                {| ev_fieldName := GetPatientOp;
                   ev_arguments := {| arg_id := Some "u1"; arg_input := None |};
                   ev_identity := Some {| id_sub := Some "u1"; id_claims := None |} |}
                (Demo.backend Demo.no_fault)))
  = [Queried (SelectPatientByUser "u1") true; Decrypted "kms:ssn"].
Proof. reflexivity. Qed.

End PatientAccessRuns.

(* ================================================================== *)
(** * Further properties of the two redactions *)
(* ================================================================== *)

Section SanitizeBodyTheorems.
Import Json AuditRedaction.

Lemma set_field_keys fields k v x :
  get_field fields k = Some x -> map fst (set_field fields k v) = map fst fields.
Proof.
  induction fields as [|[k' v'] fields IH]; simpl; [discriminate|].
  destruct (String.eqb k' k); simpl; [reflexivity|].
  intros H. now rewrite IH.
Qed.

Lemma set_field_same fields k v :
  get_field fields k = Some v -> set_field fields k v = fields.
Proof.
  induction fields as [|[k' v'] fields IH]; simpl; [discriminate|].
  destruct (String.eqb k' k); [intros H; now injection H as -> |].
  intros H. now rewrite IH.
Qed.

Lemma redact_field_not_object v f :
  (forall fields, v <> JObj fields) -> redact_field v f = v.
Proof. destruct v; intros H; try reflexivity. now destruct (H fields). Qed.

Lemma fold_left_fixed {A B : Type} (step : A -> B -> A) (l : list B) (x : A) :
  (forall f, In f l -> step x f = x) -> fold_left step l x = x.
Proof.
  induction l as [|f l IH]; intros H; [reflexivity|]. simpl.
  rewrite (H f (or_introl eq_refl)). apply IH. intros g Hg. apply H. now right.
Qed.

Lemma fold_redact_keys (names : list string) :
  forall fields fields',
    fold_left redact_field names (JObj fields) = JObj fields' ->
    map fst fields' = map fst fields.
Proof.
  induction names as [|f names IH]; intros fields fields' H.
  - simpl in H. now injection H as <-.
  - cbn [fold_left] in H. unfold redact_field at 2 in H.
    destruct (get_field fields f) as [v|] eqn:Hf; [|now apply IH].
    destruct (truthy v); [|now apply IH].
    rewrite (IH _ _ H). eapply set_field_keys. exact Hf.
Qed.

Lemma includes_In (l : list string) (x : string) :
  In x l -> JsString.includes l x = true.
Proof.
  unfold JsString.includes. intros H. apply existsb_exists.
  exists x. split; [exact H | apply String.eqb_refl].
Qed.

(** Nothing but an object is changed. *)
Lemma sanitizeBody_not_object (body : json) :
  (forall fields, body <> JObj fields) -> sanitizeBody body = body.
Proof.
  intros Hno. unfold sanitizeBody. destruct (negb (truthy body)); [reflexivity|].
  apply fold_left_fixed. intros f _. now apply redact_field_not_object.
Qed.

(** X14: the shape of what [sanitizeBody] returns.  An array, a string,
    a number, a boolean or [null] comes back as it is: nothing inside a
    top-level array is looked at.  An object comes back as an object with
    the same keys in the same order. *)
Theorem sanitizeBody_shape (body : json) :
  match body with
  | JObj fields =>
      exists fields', sanitizeBody body = JObj fields'
                      /\ map fst fields' = map fst fields
  | _ => sanitizeBody body = body
  end.
Proof.
  destruct body as [|b|n|s|items|fields];
    try (apply sanitizeBody_not_object; discriminate).
  destruct (sanitizeBody_top_level fields "") as [fields' [H _]].
  exists fields'. split; [exact H|].
  unfold sanitizeBody in H. simpl negb in H. cbv iota in H.
  eapply fold_redact_keys. exact H.
Qed.

(** X15: [sanitizeBody] is idempotent: a snapshot that has been redacted
    once is not changed by a second pass. *)
Theorem sanitizeBody_idempotent (body : json) :
  sanitizeBody (sanitizeBody body) = sanitizeBody body.
Proof.
  assert (Hother : forall b0 : json, (forall fields, b0 <> JObj fields) ->
                   sanitizeBody (sanitizeBody b0) = sanitizeBody b0)
    by (intros b0 H0; now rewrite !(sanitizeBody_not_object b0 H0)).
  destruct body as [|b|n|s|items|fields]; try (apply Hother; discriminate).
  clear Hother.
  destruct (sanitizeBody_top_level fields "") as [fields' [Hs _]]. rewrite Hs.
  unfold sanitizeBody. simpl negb. cbv iota.
  apply fold_left_fixed. intros f Hf.
  destruct (sanitizeBody_top_level fields f) as [fields2 [Hs2 Hget]].
  rewrite Hs in Hs2. injection Hs2 as <-.
  rewrite (includes_In _ _ Hf) in Hget. cbn [andb] in Hget.
  unfold redact_field. rewrite Hget.
  destruct (get_field fields f) as [v|]; cbn [option_map]; [|reflexivity].
  destruct (truthy v) eqn:Ht.
  - cbn [truthy negb String.eqb]. cbv iota.
    rewrite set_field_same; [reflexivity|].
    rewrite Hget. cbn [option_map]. now rewrite Ht.
  - now rewrite Ht.
Qed.

End SanitizeBodyTheorems.

Section SensitiveKeyTheorems.
Import JsString Store.

Lemma to_lower_ascii_not_upper_C (c : ascii) : to_lower_ascii c <> "C"%char.
Proof.
  destruct c as [[] [] [] [] [] [] [] []]; vm_compute; discriminate.
Qed.

Lemma toLowerCase_not_creditCard (s : string) : toLowerCase s <> "creditCard".
Proof.
  destruct s as [|c1 [|c2 [|c3 [|c4 [|c5 [|c6 [|c7 s]]]]]]]; simpl;
    try discriminate.
  intros H. injection H as _ _ _ _ _ _ H7 _.
  exact (to_lower_ascii_not_upper_C c7 H7).
Qed.

(** X16: the names [sanitizeSensitiveData] redacts.  The key is put in
    lower case before it is looked up, and the list holds [creditCard] in
    mixed case, so that entry matches no key at all: a key is redacted
    exactly when its lower-case form is one of [password], [ssn], [token],
    [secret], [authorization], and an array index never is. *)
Theorem is_sensitive_names (k : key) :
  is_sensitive k
  = match k with
    | KName s =>
        includes ["password"; "ssn"; "token"; "secret"; "authorization"]
                 (toLowerCase s)
    | KIdx _ => false
    end.
Proof.
  destruct k as [i|s]; [reflexivity|].
  unfold is_sensitive, sensitiveFields, includes. cbn [existsb].
  destruct (String.eqb_spec (toLowerCase s) "creditCard") as [H|_].
  - now destruct (toLowerCase_not_creditCard s).
  - reflexivity.
Qed.

End SensitiveKeyTheorems.

(* ================================================================== *)
(** * Masking and encryption: edge cases *)
(* ================================================================== *)

Section MaskEdgeTheorems.
Import JsString Mask.

Lemma substring_no_chars (s : string) : forall n : nat, String.substring n 0 s = "".
Proof. induction s as [|c s IH]; intros [|n]; simpl; auto. Qed.

Lemma string_app_empty_r (s : string) : s ++ "" = s.
Proof.
  induction s as [|c s IH]; [reflexivity|]. now rewrite string_app_cons, IH.
Qed.

(** X17: with a count of visible characters that is zero or negative,
    [maskSensitiveData] shows no character of a non-empty input: the
    result is made of asterisks only, [max(length - 2 * visibleChars, 4)]
    of them, which is at least the length of the input. *)
Theorem maskSensitiveData_hides_all (data : string) (visibleChars : Z) :
  data <> "" -> visibleChars <= 0 ->
  maskSensitiveData data visibleChars
  = stars (Z.to_nat (Z.max (Z.of_nat (String.length data) - visibleChars * 2) 4))
  /\ (String.length data <= String.length (maskSensitiveData data visibleChars))%nat
  /\ (4 <= String.length (maskSensitiveData data visibleChars))%nat.
Proof.
  intros Hne Hv.
  assert (Hlen : (0 < String.length data)%nat)
    by (destruct data; [congruence | simpl; lia]).
  assert (Heq : maskSensitiveData data visibleChars
    = stars (Z.to_nat (Z.max (Z.of_nat (String.length data) - visibleChars * 2) 4))).
  { unfold maskSensitiveData.
    replace (String.eqb data "") with false
      by (symmetry; apply String.eqb_neq; exact Hne).
    replace (Z.of_nat (String.length data) <=? visibleChars * 2) with false
      by (symmetry; apply Z.leb_gt; lia).
    cbn [orb]. cbv zeta.
    unfold substring1, substring2, clamp, repeat_star.
    replace (Z.min (Z.max 0 (Z.min 0 (Z.of_nat (String.length data))))
                   (Z.max 0 (Z.min visibleChars (Z.of_nat (String.length data)))))
      with 0 by lia.
    replace (Z.max (Z.max 0 (Z.min 0 (Z.of_nat (String.length data))))
                   (Z.max 0 (Z.min visibleChars (Z.of_nat (String.length data)))) - 0)
      with 0 by lia.
    set (a := Z.max 0 (Z.min (Z.of_nat (String.length data) - visibleChars)
                             (Z.of_nat (String.length data)))).
    set (b := Z.max 0 (Z.min (Z.of_nat (String.length data))
                             (Z.of_nat (String.length data)))).
    replace (Z.to_nat (Z.max a b - Z.min a b)) with 0%nat by (subst a b; lia).
    rewrite !substring_no_chars, string_app_nil, string_app_empty_r.
    reflexivity. }
  rewrite Heq, length_stars. repeat split; lia.
Qed.

Lemma maskSensitiveData_hides_all_witness :
  maskSensitiveData "123-45-6789" (-1) = stars 13
  /\ (11 <= String.length (maskSensitiveData "123-45-6789" (-1)))%nat
  /\ (4 <= String.length (maskSensitiveData "123-45-6789" (-1)))%nat.
Proof.
  apply (maskSensitiveData_hides_all "123-45-6789" (-1)); [discriminate | lia].
Defined.

End MaskEdgeTheorems.

Section CipherFormatTheorems.
Import Cipher.
Context {G : AesGcm}.

(** X18: the format of what [encryptPHI] returns.  Whenever it returns,
    the cipher has accepted the key and the IV, and the string splits at
    the colons into exactly three fields, the hexadecimal text of the IV,
    of the authentication tag and of the ciphertext, in this order; each
    field decodes back to its bytes and is twice as long as they are. *)
Theorem encryptPHI_fields (iv : bytes) (data : text) (key : bytes) (e : string) :
  encryptPHI iv data key = Ok e ->
  let ct := gcm_crypt key iv (utf8_encode data) in
  let tag := gcm_tag key iv ct in
  gcm_init_ok key iv = true
  /\ split colon e = [toHex iv; toHex tag; toHex ct]
  /\ map fromHex (split colon e) = [iv; tag; ct]
  /\ map String.length (split colon e)
     = [2 * length iv; 2 * length tag; 2 * length ct]%nat.
Proof.
  intros H ct tag. unfold encryptPHI in H.
  destruct (gcm_init_ok key iv); [|discriminate]. cbn [negb] in H.
  injection H as <-. fold ct. fold tag.
  rewrite split_triplet. cbn [map]. rewrite !fromHex_toHex, !length_toHex.
  repeat split; reflexivity.
Qed.

End CipherFormatTheorems.

Section CipherFormatRuns.
Import Cipher.

Lemma encryptPHI_fields_witness :
  let e := ("01010101010101010101010101010101"
            ++ ":393837362d35342d3332310101010101"
            ++ ":393837362d35342d333231")%string in
  let ct := gcm_crypt (AesGcm := demoGcm) demo_key demo_iv
              (utf8_encode (units "123-45-6789")) in
  let tag := gcm_tag (AesGcm := demoGcm) demo_key demo_iv ct in
  gcm_init_ok (AesGcm := demoGcm) demo_key demo_iv = true
  /\ split colon e = [toHex demo_iv; toHex tag; toHex ct]
  /\ map fromHex (split colon e) = [demo_iv; tag; ct]
  /\ map String.length (split colon e)
     = [2 * length demo_iv; 2 * length tag; 2 * length ct]%nat.
Proof.
  apply (@encryptPHI_fields demoGcm demo_iv (units "123-45-6789") demo_key).
  vm_compute. reflexivity.
Defined.

End CipherFormatRuns.

(* ================================================================== *)
(** * What a read leaves in the log tables *)
(* ================================================================== *)

Section ReadLogTheorems.
Import Lambda Backend Resolver.

Lemma joined_row_join_patient {Row : Type} (w : World) (p : string) (r : Row) :
  joined_row (join_patient w p r) = r.
Proof. unfold join_patient. now destruct (find_patient w p). Qed.

Lemma differs_false (column : option string) (userId : string) :
  differs column userId = false -> column = Some userId.
Proof.
  unfold differs. destruct column as [u|]; [|discriminate].
  intros H. apply negb_false_iff, String.eqb_eq in H. now subst.
Qed.

(** X19: what a returned [getMedicalRecord] means.  The record with the
    requested id exists and is the one returned; a caller whose role is
    [PATIENT] is the user of the record's patient; the content is what KMS
    decrypted of the stored ciphertext (the placeholder ['[Encrypted]'] when
    there is none or the plaintext is empty); and the call has appended
    exactly one row to the access log and one to the audit log, both
    carrying the caller's id and the record's, and changed no other
    table. *)
Theorem getMedicalRecord_returned (w w' : World) (id : string)
    (identity : CognitoIdentity) (rec : MedicalRecordService.MedicalRecord) :
  MedicalRecordService.getMedicalRecord id identity w = (w', Returned rec) ->
  exists r,
    find (fun r => String.eqb (mr_id r) id) (medical_records w) = Some r
    /\ MedicalRecordService.id rec = mr_id r
    /\ MedicalRecordService.patientId rec = mr_patient_id r
    /\ (role_is (custom_role identity) "PATIENT" = true ->
          patient_user_id (join_patient w (mr_patient_id r) r) = Some (sub identity))
    /\ match nonempty (mr_content_encrypted r) with
       | Some ciphertext =>
           exists plaintext,
             kms_decrypt w ciphertext = Some plaintext
             /\ MedicalRecordService.content rec = or_else (Some plaintext) "[Encrypted]"
       | None => MedicalRecordService.content rec = "[Encrypted]"
       end
    /\ access_logs w'
       = (access_logs w ++
          [{| al_id := fresh_uuid w; al_medical_record_id := id;
              al_user_id := sub identity; al_action := "ACCESSED";
              al_timestamp := clock w |}])%list
    /\ audit_logs w'
       = (audit_logs w ++
          [{| au_id := S (fresh_uuid w); au_user_id := sub identity;
              au_action := "MEDICAL_RECORD_ACCESSED"; au_resource := "medical_record";
              au_resource_id := Some id; au_phi_accessed := true;
              au_timestamp := clock w |}])%list
    /\ patients w' = patients w
    /\ medical_records w' = medical_records w
    /\ appointments w' = appointments w.
Proof.
  unfold MedicalRecordService.getMedicalRecord, bind, queryRecord.
  destruct (db_fault w OpQuery); [discriminate|].
  destruct (find _ (medical_records w)) as [r|] eqn:Hfind; [|discriminate].
  unfold decided, throw.
  destruct (role_is (custom_role identity) "PATIENT"
            && differs (patient_user_id (join_patient w (mr_patient_id r) r))
                       (sub identity)) eqn:Hdenied;
    simpl negb; cbv iota; [discriminate|].
  assert (Hown : role_is (custom_role identity) "PATIENT" = true ->
                 patient_user_id (join_patient w (mr_patient_id r) r)
                 = Some (sub identity)).
  { intros Hrole. rewrite Hrole in Hdenied. now apply differs_false. }
  clear Hdenied.
  unfold MedicalRecordService.logAccessEvent, MedicalRecordService.logHipaaEvent,
    MedicalRecordService.formatMedicalRecord, insertAccessLog, insertAuditLog,
    decryptWithKMS, bind, ret, lift.
  rewrite !joined_row_join_patient.
  destruct (nonempty (mr_content_encrypted r)) as [ct|] eqn:Hct; simpl.
  - destruct (kms_decrypt w ct) as [plaintext|] eqn:Hkms; simpl; [|discriminate].
    destruct (db_fault w (OpInsert "medical_record_access_logs")); simpl;
      [discriminate|].
    destruct (db_fault w (OpInsert "audit_logs")); simpl; [discriminate|].
    do 4 (destruct (MedicalRecordService.parse_or_empty _); simpl; [|discriminate]).
    intros H. injection H as <- <-. exists r. rewrite Hct. simpl.
    repeat split; try reflexivity; try assumption.
    exists plaintext. split; [exact Hkms | reflexivity].
  - destruct (db_fault w (OpInsert "medical_record_access_logs")); simpl;
      [discriminate|].
    destruct (db_fault w (OpInsert "audit_logs")); simpl; [discriminate|].
    do 4 (destruct (MedicalRecordService.parse_or_empty _); simpl; [|discriminate]).
    intros H. injection H as <- <-. exists r. rewrite Hct. simpl.
    repeat split; try reflexivity; try assumption.
Qed.

(** X20: what a returned [getAppointment] means.  The appointment with the
    requested id exists and is the one returned, field by field; a caller
    whose role is [PATIENT] is the user of the appointment's patient; and
    the call has appended exactly one row to the audit log, carrying the
    caller's id and the appointment's, and changed no other table. *)
Theorem getAppointment_returned (w w' : World) (id : string)
    (identity : CognitoIdentity) (a : AppointmentService.Appointment) :
  AppointmentService.getAppointment id identity w = (w', Returned a) ->
  exists row,
    find (fun a => String.eqb (ap_id a) id) (appointments w) = Some row
    /\ a = AppointmentService.formatAppointment (join_patient w (ap_patient_id row) row)
    /\ AppointmentService.id a = ap_id row
    /\ AppointmentService.patientId a = ap_patient_id row
    /\ (role_is (custom_role identity) "PATIENT" = true ->
          patient_user_id (join_patient w (ap_patient_id row) row)
          = Some (sub identity))
    /\ audit_logs w'
       = (audit_logs w ++
          [{| au_id := fresh_uuid w; au_user_id := sub identity;
              au_action := "APPOINTMENT_ACCESSED"; au_resource := "appointment";
              au_resource_id := Some id; au_phi_accessed := true;
              au_timestamp := clock w |}])%list
    /\ access_logs w' = access_logs w
    /\ patients w' = patients w
    /\ medical_records w' = medical_records w
    /\ appointments w' = appointments w.
Proof.
  unfold AppointmentService.getAppointment, bind, queryAppointment.
  destruct (db_fault w OpQuery); [discriminate|].
  destruct (find _ (appointments w)) as [row|] eqn:Hfind; [|discriminate].
  unfold decided, throw.
  destruct (role_is (custom_role identity) "PATIENT"
            && differs (patient_user_id (join_patient w (ap_patient_id row) row))
                       (sub identity)) eqn:Hdenied;
    simpl negb; cbv iota; [discriminate|].
  assert (Hown : role_is (custom_role identity) "PATIENT" = true ->
                 patient_user_id (join_patient w (ap_patient_id row) row)
                 = Some (sub identity)).
  { intros Hrole. rewrite Hrole in Hdenied. now apply differs_false. }
  clear Hdenied.
  unfold AppointmentService.logHipaaEvent, insertAuditLog, ret. simpl.
  destruct (db_fault w (OpInsert "audit_logs")); simpl; [discriminate|].
  intros H. injection H as <- <-. exists row.
  unfold AppointmentService.formatAppointment.
  rewrite !joined_row_join_patient. simpl.
  repeat split; try reflexivity; try assumption.
Qed.

Ltac parse_column c :=
  let Hc := fresh "Hc" in
  destruct (MedicalRecordService.parse_or_empty c) eqn:Hc; simpl;
  [| let He := fresh "He" in
     intros He; injection He as <-; rewrite !length_app; simpl;
     repeat split; try reflexivity; right; right;
     repeat split; try lia; eauto].

(** X21: what a failed [getMedicalRecord] leaves behind.  The three data
    tables are as before.  Either no log row was written; or the access-log
    row was written and the audit-log insert was rejected, which is the
    error thrown; or both rows were written and a JSON column of the record
    did not parse, so that the logs record an access the caller never got.
    A caller who is refused, or whose record does not exist, leaves no row
    in either log. *)
Theorem getMedicalRecord_thrown (w : World) (id : string)
    (identity : CognitoIdentity) (e : Thrown) :
  snd (MedicalRecordService.getMedicalRecord id identity w) = Threw e ->
  let w' := fst (MedicalRecordService.getMedicalRecord id identity w) in
  patients w' = patients w
  /\ medical_records w' = medical_records w
  /\ appointments w' = appointments w
  /\ ((access_logs w' = access_logs w /\ audit_logs w' = audit_logs w)
      \/ (length (access_logs w') = S (length (access_logs w))
          /\ audit_logs w' = audit_logs w
          /\ e = dbError
          /\ db_fault w (OpInsert "audit_logs") = true)
      \/ (length (access_logs w') = S (length (access_logs w))
          /\ length (audit_logs w') = S (length (audit_logs w))
          /\ e = mkSyntaxError))
  /\ (e = mkError MedicalRecordService.DENIED_MESSAGE
      \/ e = mkError MedicalRecordService.NOT_FOUND_MESSAGE ->
      access_logs w' = access_logs w /\ audit_logs w' = audit_logs w).
Proof.
  intros H w'.
  assert (Hmain :
    patients w' = patients w
    /\ medical_records w' = medical_records w
    /\ appointments w' = appointments w
    /\ ((access_logs w' = access_logs w /\ audit_logs w' = audit_logs w)
      \/ (length (access_logs w') = S (length (access_logs w))
          /\ audit_logs w' = audit_logs w
          /\ e = dbError
          /\ db_fault w (OpInsert "audit_logs") = true)
      \/ (length (access_logs w') = S (length (access_logs w))
          /\ length (audit_logs w') = S (length (audit_logs w))
          /\ e = mkSyntaxError))).
  { revert H. subst w'.
    unfold MedicalRecordService.getMedicalRecord, bind, queryRecord.
    destruct (db_fault w OpQuery); [simpl; auto 10|].
    destruct (find _ (medical_records w)) as [r|] eqn:Hfind; [|simpl; auto 10].
    unfold decided, throw.
    destruct (role_is _ _ && differs _ _); simpl negb; cbv iota; [simpl; auto 10|].
    unfold MedicalRecordService.logAccessEvent, MedicalRecordService.logHipaaEvent,
      MedicalRecordService.formatMedicalRecord, insertAccessLog, insertAuditLog,
      decryptWithKMS, bind, ret, lift.
    rewrite !joined_row_join_patient.
    assert (Hparse : forall c e',
      MedicalRecordService.parse_or_empty c = Threw e' -> e' = mkSyntaxError).
    { intros c e'. unfold MedicalRecordService.parse_or_empty, JSON_parse.
      destruct c as [[j|s]|]; simpl; try discriminate.
      - destruct (negb (String.eqb s "")); [|discriminate]. congruence. }
    destruct (nonempty (mr_content_encrypted r)) as [ct|]; simpl.
    - destruct (kms_decrypt w ct) as [plaintext|]; simpl; [|auto 10].
      destruct (db_fault w (OpInsert "medical_record_access_logs")); simpl;
        [auto 10|].
      destruct (db_fault w (OpInsert "audit_logs")) eqn:Haudit; simpl.
      { intros He. injection He as <-. rewrite length_app. simpl.
        repeat split; try reflexivity. right. left.
        repeat split; try reflexivity; lia. }
      parse_column (mr_icd10_codes r). parse_column (mr_cpt_codes r).
      parse_column (mr_medications r). parse_column (mr_lab_results r).
      discriminate.
    - destruct (db_fault w (OpInsert "medical_record_access_logs")); simpl;
        [auto 10|].
      destruct (db_fault w (OpInsert "audit_logs")) eqn:Haudit; simpl.
      { intros He. injection He as <-. rewrite length_app. simpl.
        repeat split; try reflexivity. right. left.
        repeat split; try reflexivity; lia. }
      parse_column (mr_icd10_codes r). parse_column (mr_cpt_codes r).
      parse_column (mr_medications r). parse_column (mr_lab_results r).
      discriminate. }
  destruct Hmain as (Hp & Hm & Ha & Hlogs).
  repeat split; try assumption.
  - destruct Hlogs as [[Hacc _]|[(_ & _ & -> & _)|(_ & _ & ->)]];
      [exact Hacc | |]; destruct H0 as [H0|H0]; discriminate H0.
  - destruct Hlogs as [[_ Haud]|[(_ & _ & -> & _)|(_ & _ & ->)]];
      [exact Haud | |]; destruct H0 as [H0|H0]; discriminate H0.
Qed.

(** X22: a failed [getAppointment] leaves every table as it was: its one
    write is the audit-log insert, the last step before it returns.  A
    caller who is refused leaves no row in the audit log. *)
Theorem getAppointment_thrown (w : World) (id : string)
    (identity : CognitoIdentity) (e : Thrown) :
  snd (AppointmentService.getAppointment id identity w) = Threw e ->
  let w' := fst (AppointmentService.getAppointment id identity w) in
  patients w' = patients w
  /\ medical_records w' = medical_records w
  /\ appointments w' = appointments w
  /\ access_logs w' = access_logs w
  /\ audit_logs w' = audit_logs w.
Proof.
  intros H w'. revert H. subst w'.
  unfold AppointmentService.getAppointment, bind, queryAppointment.
  destruct (db_fault w OpQuery); [simpl; auto|].
  destruct (find _ (appointments w)) as [row|]; [|simpl; auto].
  unfold decided, throw.
  destruct (role_is _ _ && differs _ _); simpl negb; cbv iota; [simpl; auto|].
  unfold AppointmentService.logHipaaEvent, insertAuditLog, ret. simpl.
  destruct (db_fault w (OpInsert "audit_logs")); simpl; [auto|discriminate].
Qed.

End ReadLogTheorems.

Section ReadLogRuns.
Import Lambda Backend Expected.

Lemma getMedicalRecord_returned_witness :
  exists r,
    find (fun r => String.eqb (mr_id r) "rec-1")
         (medical_records (Demo.backend Demo.no_fault)) = Some r
    /\ MedicalRecordService.id record1_read = mr_id r
    /\ MedicalRecordService.patientId record1_read = mr_patient_id r.
Proof.
  destruct (getMedicalRecord_returned (Demo.backend Demo.no_fault)
              (fst (MedicalRecordService.getMedicalRecord "rec-1" Demo.owner
                      (Demo.backend Demo.no_fault)))
              "rec-1" Demo.owner record1_read eq_refl)
    as [r (Hfind & Hid & Hpatient & _)].
  exists r. auto.
Defined.

Lemma getAppointment_returned_witness :
  exists row,
    find (fun a => String.eqb (ap_id a) "apt-1")
         (appointments (Demo.backend Demo.no_fault)) = Some row
    /\ AppointmentService.formatAppointment
         (join_patient (Demo.backend Demo.no_fault) "p1" Demo.appointment1)
       = AppointmentService.formatAppointment
           (join_patient (Demo.backend Demo.no_fault) (ap_patient_id row) row).
Proof.
  destruct (getAppointment_returned (Demo.backend Demo.no_fault)
              (fst (AppointmentService.getAppointment "apt-1" Demo.owner
                      (Demo.backend Demo.no_fault)))
              "apt-1" Demo.owner
              (AppointmentService.formatAppointment
                 (join_patient (Demo.backend Demo.no_fault) "p1" Demo.appointment1))
              eq_refl)
    as [row (Hfind & Hrow & _)].
  exists row. auto.
Defined.

Lemma getMedicalRecord_thrown_witness :
  let w' := fst (MedicalRecordService.getMedicalRecord "rec-1" Demo.owner
                   (Demo.backend Demo.audit_down)) in
  patients w' = patients (Demo.backend Demo.audit_down)
  /\ medical_records w' = medical_records (Demo.backend Demo.audit_down)
  /\ appointments w' = appointments (Demo.backend Demo.audit_down)
  /\ ((access_logs w' = access_logs (Demo.backend Demo.audit_down)
       /\ audit_logs w' = audit_logs (Demo.backend Demo.audit_down))
      \/ (length (access_logs w')
          = S (length (access_logs (Demo.backend Demo.audit_down)))
          /\ audit_logs w' = audit_logs (Demo.backend Demo.audit_down)
          /\ dbError = dbError
          /\ db_fault (Demo.backend Demo.audit_down) (OpInsert "audit_logs") = true)
      \/ (length (access_logs w')
          = S (length (access_logs (Demo.backend Demo.audit_down)))
          /\ length (audit_logs w')
             = S (length (audit_logs (Demo.backend Demo.audit_down)))
          /\ dbError = mkSyntaxError))
  /\ (dbError = mkError MedicalRecordService.DENIED_MESSAGE
      \/ dbError = mkError MedicalRecordService.NOT_FOUND_MESSAGE ->
      access_logs w' = access_logs (Demo.backend Demo.audit_down)
      /\ audit_logs w' = audit_logs (Demo.backend Demo.audit_down)).
Proof.
  apply (getMedicalRecord_thrown (Demo.backend Demo.audit_down) "rec-1" Demo.owner
           dbError).
  vm_compute. reflexivity.
Defined.

Lemma getAppointment_thrown_witness :
  let w' := fst (AppointmentService.getAppointment "apt-1" Demo.other
                   (Demo.backend Demo.no_fault)) in
  patients w' = patients (Demo.backend Demo.no_fault)
  /\ medical_records w' = medical_records (Demo.backend Demo.no_fault)
  /\ appointments w' = appointments (Demo.backend Demo.no_fault)
  /\ access_logs w' = access_logs (Demo.backend Demo.no_fault)
  /\ audit_logs w' = audit_logs (Demo.backend Demo.no_fault).
Proof.
  apply (getAppointment_thrown (Demo.backend Demo.no_fault) "apt-1" Demo.other
           (mkError AppointmentService.DENIED_MESSAGE)).
  vm_compute. reflexivity.
Defined.

End ReadLogRuns.

(* ================================================================== *)
(** * Roles and the login dispatch *)
(* ================================================================== *)

Section RoleTheorems.
Import JsString Lambda Backend Roles AuthService.

Lemma includes_iff_In (l : list string) (x : string) :
  includes l x = true <-> In x l.
Proof.
  unfold includes. rewrite existsb_exists. split.
  - intros [y [Hin Heq]]. apply String.eqb_eq in Heq. now subst.
  - intros Hin. exists x. split; [exact Hin | apply String.eqb_refl].
Qed.

Lemma staff_not_client (role : string) :
  isStaffRole role = true ->
  String.eqb role "PATIENT" = false /\ String.eqb role "GUARDIAN" = false.
Proof.
  intros H. apply includes_iff_In in H. simpl in H.
  repeat (destruct H as [<-|H]; [split; reflexivity|]). contradiction.
Qed.

Lemma validateUserRoleAndType_iff (role userType : string) :
  validateUserRoleAndType role userType = true <->
    (In role STAFF_ROLES /\ userType = "SERVICE_PROVIDER")
    \/ (role = "PATIENT" /\ userType = "CLIENT")
    \/ (role = "GUARDIAN" /\ userType = "GUARDIAN")
    \/ (~ In role STAFF_ROLES /\ ~ In role CLIENT_ROLES).
Proof.
  assert (Hclient : In role CLIENT_ROLES <-> role = "PATIENT" \/ role = "GUARDIAN").
  { simpl. intuition congruence. }
  unfold validateUserRoleAndType.
  destruct (isStaffRole role) eqn:Hstaff.
  + pose proof (staff_not_client role Hstaff) as [Hp Hg].
    apply includes_iff_In in Hstaff.
    apply String.eqb_neq in Hp, Hg.
    destruct (String.eqb_spec userType "SERVICE_PROVIDER") as [->|Hne]; cbn [andb negb].
    * rewrite (proj2 (String.eqb_neq _ _) Hp), (proj2 (String.eqb_neq _ _) Hg).
      cbn [andb]. split; [intros _; left; auto | reflexivity].
    * split; [discriminate|]. intros [[_ H]|[[H _]|[[H _]|[H _]]]]; congruence.
  + assert (Hns : ~ In role STAFF_ROLES).
    { intros H. apply includes_iff_In in H. unfold isStaffRole in Hstaff. congruence. }
    cbn [andb].
    destruct (String.eqb_spec role "PATIENT") as [->|Hp]; cbn [andb].
    * destruct (String.eqb_spec userType "CLIENT") as [->|Hc]; cbn [negb].
      -- cbn. split; [intros _; right; left; auto | reflexivity].
      -- split; [discriminate|].
         intros [[H _]|[[_ H]|[[H _]|[_ H]]]];
           [contradiction | congruence | discriminate |].
         exfalso. apply H. simpl. auto.
    * destruct (String.eqb_spec role "GUARDIAN") as [->|Hg]; cbn [andb].
      -- destruct (String.eqb_spec userType "GUARDIAN") as [->|Hc]; cbn [negb].
         ++ split; [intros _; right; right; left; auto | reflexivity].
         ++ split; [discriminate|].
            intros [[H _]|[[H _]|[[_ H]|[_ H]]]];
              [contradiction | discriminate | congruence |].
            exfalso. apply H. simpl. auto.
      -- split; [|reflexivity]. intros _. right. right. right.
         split; [exact Hns|]. rewrite Hclient. intuition congruence.
Qed.

(** X23: the combinations [validateUserRoleAndType] accepts.  A staff role
    goes with the user type [SERVICE_PROVIDER] only, [PATIENT] with
    [CLIENT] only, [GUARDIAN] with [GUARDIAN] only; a role that is none of
    the seven is accepted with any user type.  No role is both a staff and
    a client role. *)
Theorem validateUserRoleAndType_table (role userType : string) :
  (validateUserRoleAndType role userType = true <->
     (In role STAFF_ROLES /\ userType = "SERVICE_PROVIDER")
     \/ (role = "PATIENT" /\ userType = "CLIENT")
     \/ (role = "GUARDIAN" /\ userType = "GUARDIAN")
     \/ (~ In role STAFF_ROLES /\ ~ In role CLIENT_ROLES))
  /\ (isStaffRole role && isClientRole role = false).
Proof.
  split; [apply validateUserRoleAndType_iff|].
  destruct (isStaffRole role) eqn:Hstaff; [|reflexivity].
  destruct (staff_not_client role Hstaff) as [Hp Hg].
  unfold isClientRole, includes, CLIENT_ROLES. cbn [existsb andb].
  now rewrite Hp, Hg.
Qed.

(** X24: where the [login] case sends a user.  The staff login is chosen
    exactly for a staff role with the user type [SERVICE_PROVIDER], the
    patient login exactly for [PATIENT] with [CLIENT], the guardian login
    exactly for [GUARDIAN] with [GUARDIAN]; every other user, among them
    one whose role is none of the seven, is refused with an
    [UnauthorizedError] (401). *)
Theorem loginRoute_table (attrs : option (list (string * option string))) :
  (forall route, loginRoute attrs = Returned route <->
     exists role userType,
       attribute attrs "custom:role" = Some role
       /\ attribute attrs "custom:userType" = Some userType
       /\ match route with
          | StaffLogin => In role STAFF_ROLES /\ userType = "SERVICE_PROVIDER"
          | PatientLogin => role = "PATIENT" /\ userType = "CLIENT"
          | GuardianLogin => role = "GUARDIAN" /\ userType = "GUARDIAN"
          end)
  /\ (forall e, loginRoute attrs = Threw e ->
        err_class e = UnauthorizedErrorC /\ err_statusCode e = Some 401).
Proof.
  split.
  - intros route. unfold loginRoute.
    destruct (attribute attrs "custom:role") as [role|] eqn:Hrole; cbn [nonempty].
    2:{ split; [discriminate|]. intros (r & u & H & _). discriminate. }
    destruct (String.eqb_spec role "") as [->|Hrne].
    { split; [discriminate|]. intros (r & u & H & _ & Hroute).
      injection H as <-. destruct route; simpl in Hroute;
        intuition (try discriminate). }
    destruct (attribute attrs "custom:userType") as [userType|] eqn:Htype; cbn [nonempty].
    2:{ split; [discriminate|]. intros (r & u & _ & H & _). discriminate. }
    destruct (String.eqb_spec userType "") as [->|Htne].
    { split; [discriminate|]. intros (r & u & _ & H & Hroute).
      injection H as <-. destruct route; intuition discriminate. }
    pose proof (validateUserRoleAndType_iff role userType) as Hvalid.
    destruct (validateUserRoleAndType role userType) eqn:Hv; cbn [negb].
    + destruct (proj1 Hvalid eq_refl) as [[Hs ->]|[[-> ->]|[[-> ->]|[Hns Hnc]]]].
      * assert (Hst : isStaffRole role = true) by (apply includes_iff_In; exact Hs).
        rewrite Hst. split.
        -- intros H. injection H as <-. exists role, "SERVICE_PROVIDER". auto.
        -- intros (r & u & H1 & H2 & Hroute). injection H1 as <-. injection H2 as <-.
           destruct route; [reflexivity | |]; destruct Hroute as [-> Hu];
             discriminate Hu.
      * cbn. split.
        -- intros H. injection H as <-. exists "PATIENT", "CLIENT". auto.
        -- intros (r & u & H1 & H2 & Hroute). injection H1 as <-. injection H2 as <-.
           destruct route; [| reflexivity |]; destruct Hroute as [Hr Hu];
             discriminate.
      * cbn. split.
        -- intros H. injection H as <-. exists "GUARDIAN", "GUARDIAN". auto.
        -- intros (r & u & H1 & H2 & Hroute). injection H1 as <-. injection H2 as <-.
           destruct route; [| | reflexivity]; destruct Hroute as [Hr Hu];
             discriminate.
      * assert (Hstaff : isStaffRole role = false).
        { destruct (isStaffRole role) eqn:E; [|reflexivity].
          apply includes_iff_In in E. contradiction. }
        rewrite Hstaff.
        assert (Hp : String.eqb role "PATIENT" = false).
        { apply String.eqb_neq. intros ->. apply Hnc. simpl. auto. }
        assert (Hg : String.eqb role "GUARDIAN" = false).
        { apply String.eqb_neq. intros ->. apply Hnc. simpl. auto. }
        rewrite Hp, Hg. split; [discriminate|].
        intros (r & u & H1 & H2 & Hroute). injection H1 as <-. injection H2 as <-.
        apply String.eqb_neq in Hp, Hg.
        destruct route; destruct Hroute as [Hr Hu]; contradiction.
    + split; [discriminate|].
      intros (r & u & H1 & H2 & Hroute). injection H1 as <-. injection H2 as <-.
      assert (Habs : false = true); [|discriminate Habs].
      apply Hvalid. destruct route; tauto.
  - intros e. unfold loginRoute.
    destruct (nonempty (attribute attrs "custom:role")) as [role|];
      [|intros H; injection H as <-; split; reflexivity].
    destruct (nonempty (attribute attrs "custom:userType")) as [userType|];
      [|intros H; injection H as <-; split; reflexivity].
    destruct (negb _); [intros H; injection H as <-; split; reflexivity|].
    destruct (isStaffRole role); [discriminate|].
    destruct (String.eqb role "PATIENT"); [discriminate|].
    destruct (String.eqb role "GUARDIAN"); [discriminate|].
    intros H; injection H as <-; split; reflexivity.
Qed.

End RoleTheorems.

(* ================================================================== *)
(** * The database client: how parameters are named *)
(* ================================================================== *)

Section DatabaseClientTheorems.
Import DatabaseClient.
Context {number : Type} (isInteger : number -> bool).

Lemma param_name_inj (i j : nat) :
  "param" ++ pretty i = "param" ++ pretty j -> i = j.
Proof.
  rewrite !string_app_cons, !string_app_nil. intros H.
  injection H as H. exact (inj pretty _ _ H).
Qed.

Lemma param_name_not_id (i : nat) : "param" ++ pretty i <> "id".
Proof. rewrite !string_app_cons. discriminate. Qed.

Lemma formatParameters_lookup (params : list (Param number)) (i : nat) :
  formatParameters isInteger params !! i
  = formatParameter isInteger i <$> params !! i.
Proof. apply list_lookup_imap. Qed.

Lemma formatParameters_In (params : list (Param number)) (p : SqlParameter number) :
  In p (formatParameters isInteger params) ->
  exists i param, params !! i = Some param /\ p = formatParameter isInteger i param.
Proof.
  intros H. apply list_elem_of_In, list_elem_of_lookup in H as [i Hi].
  rewrite formatParameters_lookup in Hi.
  destruct (params !! i) as [param|] eqn:Hp; [|discriminate].
  injection Hi as <-. eauto.
Qed.

(** X25: how [formatParameters] names what it is given.  The parameter at
    position [i] is named [param] followed by [i] in decimal, whatever the
    statement calls its placeholders: there are as many parameters as
    values, their names are pairwise distinct, and none is named otherwise.
    A string travels as a [stringValue], and a value that is [undefined]
    gets a name and no value at all. *)
Theorem formatParameters_names (params : list (Param number)) :
  let ps := formatParameters isInteger params in
  length ps = length params
  /\ map name ps = map (fun i : nat => "param" ++ pretty i) (seq 0 (length params))
  /\ (forall (i j : nat) p q,
        ps !! i = Some p -> ps !! j = Some q -> name p = name q -> i = j)
  /\ (forall p, In p ps -> exists i : nat, (i < length params)%nat
                                       /\ name p = "param" ++ pretty i)
  /\ (forall (i : nat) s,
        params !! i = Some (PString s) ->
        ps !! i = Some {| name := "param" ++ pretty i;
                          value := Some (stringValue s) |})
  /\ (forall i : nat,
        params !! i = Some POther ->
        ps !! i = Some {| name := "param" ++ pretty i; value := None |}).
Proof.
  intros ps. subst ps. repeat split.
  - apply length_imap.
  - unfold formatParameters.
    change (map name (imap (formatParameter isInteger) params))
      with (name <$> imap (formatParameter isInteger) params).
    rewrite fmap_imap.
    exact (imap_seq_0 params (fun i : nat => "param" ++ pretty i)).
  - intros i j p q Hp Hq Heq.
    rewrite formatParameters_lookup in Hp, Hq.
    destruct (params !! i); [|discriminate]. destruct (params !! j); [|discriminate].
    injection Hp as <-. injection Hq as <-. exact (param_name_inj _ _ Heq).
  - intros p Hp. apply formatParameters_In in Hp as (i & param & Hi & ->).
    exists i. split; [|reflexivity]. eapply lookup_lt_Some. exact Hi.
  - intros i s Hi. rewrite formatParameters_lookup, Hi. reflexivity.
  - intros i Hi. rewrite formatParameters_lookup, Hi. reflexivity.
Qed.

Lemma string_app_middle (a t b j c1 w c2 : string) :
  a ++ t ++ b ++ j ++ (c1 ++ w ++ c2) = (a ++ t ++ b ++ j ++ c1) ++ w ++ c2.
Proof. now rewrite !string_app_assoc. Qed.

(** X26: the placeholders of the three statements against the names of
    their parameters.  [insert] names its placeholders as
    [formatParameters] names the values.  [update] and [delete] select the
    row with the placeholder [:id], while the id travels as the last
    parameter, named [param] with its position like the others: no
    parameter of theirs is named [id]. *)
Theorem update_command_id_parameter (table id : string)
    (data : list (string * Param number)) :
  let u := update_command isInteger table id data in
  let d := delete_command isInteger table id in
  let i := insert_command isInteger table data in
  (exists before after, sql u = before ++ "WHERE id = :id" ++ after)
  /\ length (parameters u) = S (length data)
  /\ parameters u !! length data
     = Some {| name := "param" ++ pretty (length data);
               value := Some (stringValue id) |}
  /\ (forall p, In p (parameters u) -> name p <> "id")
  /\ sql d = "DELETE FROM " ++ table ++ " WHERE id = :id"
  /\ parameters d = [{| name := "param0"; value := Some (stringValue id) |}]
  /\ map (fun p => ":" ++ name p) (parameters i) = placeholders (map fst data).
Proof.
  intros u d i. subst u d i. unfold update_command, insert_command. cbn [sql parameters].
  repeat split.
  - exists ("
      UPDATE " ++ table ++ "
      SET " ++ join ", " (assignments (map fst data)) ++ ", updated_at = NOW()
      "), "
      RETURNING *
    ".
    exact (string_app_middle "
      UPDATE " table "
      SET " (join ", " (assignments (map fst data))) ", updated_at = NOW()
      " "WHERE id = :id" "
      RETURNING *
    ").
  - unfold formatParameters. rewrite length_imap, length_app, length_map.
    simpl. lia.
  - rewrite formatParameters_lookup.
    rewrite lookup_app_r by (rewrite length_map; lia).
    rewrite length_map, Nat.sub_diag. reflexivity.
  - intros p Hp. apply formatParameters_In in Hp as (n & param & _ & ->).
    apply param_name_not_id.
  - unfold placeholders, formatParameters.
    change (map (fun p : SqlParameter number => ":" ++ name p)
              (imap (formatParameter isInteger) (map snd data)))
      with ((fun p : SqlParameter number => ":" ++ name p)
              <$> imap (formatParameter isInteger) (snd <$> data)).
    change (map fst data) with (fst <$> data).
    rewrite fmap_imap, !imap_fmap. apply imap_ext. intros n x _. reflexivity.
Qed.

End DatabaseClientTheorems.

(* ================================================================== *)
(** * The resolver entry points *)
(* ================================================================== *)

Section MedicalRecordHandlerTheorems.
Import Lambda Backend Resolver MedicalRecordLambda.
Context {Filter Input Document Other : Type} (emptyFilter : Filter).
Context (listMedicalRecords :
           Filter -> Z -> option string -> CognitoIdentity -> M Other)
        (createMedicalRecord : Input -> CognitoIdentity -> M Other)
        (updateMedicalRecord : string -> Input -> CognitoIdentity -> M Other)
        (deleteMedicalRecord : string -> CognitoIdentity -> M Other)
        (uploadDocument : Document -> CognitoIdentity -> M Other).

Local Abbreviation run :=
  (handler Filter Input Document Other emptyFilter listMedicalRecords
           createMedicalRecord updateMedicalRecord deleteMedicalRecord
           uploadDocument).

(** X27: the entry point of medical-record-service, whatever its other
    resolvers do.  The event is written to the console in full, arguments
    and identity included, before anything is checked, and an error is
    written once more before it is rethrown unchanged.  A call without an
    identity, or with an empty [sub], is refused with ['Unauthorized'] and
    does not reach the backend.  A [getMedicalRecord] call with an id does
    to the backend what [getMedicalRecord] does and ends as it ends; a
    field that is none of the six is refused without effect. *)
Theorem medical_record_handler_outcome
    (event : Event Filter Input Document) (w : World)
    (console : list (LogLine (Event Filter Input Document))) :
  let w' := fst (fst (run event w console)) in
  let console' := snd (fst (run event w console)) in
  let out := snd (run event w console) in
  console' = (console ++ LoggedEvent event ::
                match out with
                | Threw error => [LoggedError error]
                | Returned _ => []
                end)%list
  /\ (identity event = None
      \/ (exists i, identity event = Some i /\ sub i = "") ->
      w' = w /\ out = Threw (mkError "Unauthorized"))
  /\ (forall i id,
        identity event = Some i -> sub i <> "" ->
        fieldName event = "getMedicalRecord" ->
        nonempty (arg_id (arguments event)) = Some id ->
        w' = fst (MedicalRecordService.getMedicalRecord id i w)
        /\ out = match snd (MedicalRecordService.getMedicalRecord id i w) with
                 | Returned record => Returned (OfGetMedicalRecord record)
                 | Threw error => Threw error
                 end)
  /\ (forall i,
        identity event = Some i -> sub i <> "" ->
        ~ In (fieldName event)
             ["getMedicalRecord"; "listMedicalRecords"; "createMedicalRecord";
              "updateMedicalRecord"; "deleteMedicalRecord"; "uploadDocument"] ->
        w' = w /\ out = Threw (mkError ("Unknown field: " ++ fieldName event))).
Proof.
  intros w' console' out. subst w' console' out. unfold handler.
  split; [|split; [|split]].
  - destruct (dispatch _ _ _ _ _ _ _ _ _ _ event w) as [w1 [r|e]]; cbn [fst snd].
    + reflexivity.
    + now rewrite <- app_assoc.
  - intros Hid. unfold dispatch.
    destruct Hid as [->|[i [-> Hsub]]].
    + split; reflexivity.
    + rewrite Hsub. split; reflexivity.
  - intros i id Hi Hsub Hfield Hid. unfold dispatch.
    rewrite Hi, (proj2 (String.eqb_neq _ _) Hsub), Hfield, Hid.
    cbn [String.eqb Ascii.eqb Bool.eqb]. cbv iota. unfold bind, ret.
    destruct (MedicalRecordService.getMedicalRecord id i w) as [w1 [r|e]];
      split; reflexivity.
  - intros i Hi Hsub Hfield. unfold dispatch.
    rewrite Hi, (proj2 (String.eqb_neq _ _) Hsub).
    repeat match goal with
           | |- context [String.eqb (fieldName event) ?s] =>
               destruct (String.eqb_spec (fieldName event) s) as [Heq|_];
               [exfalso; apply Hfield; rewrite Heq; simpl; tauto|]
           end.
    split; reflexivity.
Qed.

End MedicalRecordHandlerTheorems.

Section AppointmentHandlerTheorems.
Import Lambda Backend Resolver AppointmentLambda.
Context {Filter Input Other : Type} (emptyFilter : Filter).
Context (listAppointments :
           Filter -> Z -> option string -> CognitoIdentity -> M Other)
        (getAvailableSlots : string -> string -> CognitoIdentity -> M Other)
        (createAppointment : Input -> CognitoIdentity -> M Other)
        (updateAppointment : string -> Input -> CognitoIdentity -> M Other)
        (cancelAppointment : string -> string -> CognitoIdentity -> M Other)
        (confirmAppointment : string -> CognitoIdentity -> M Other).

Local Abbreviation run :=
  (handler Filter Input Other emptyFilter listAppointments getAvailableSlots
           createAppointment updateAppointment cancelAppointment
           confirmAppointment).

(** X28: the entry point of appointment-service, whatever its other
    resolvers do.  The event is written to the console in full before
    anything is checked, and an error once more before it is rethrown
    unchanged.  A call without an identity, or with an empty [sub], is
    refused with ['Unauthorized'] and does not reach the backend.  A
    cancellation needs an id and a reason that is not empty: without
    either the call is refused before [cancelAppointment] runs.  A
    [getAppointment] call with an id does what [getAppointment] does; a
    field that is none of the seven is refused without effect. *)
Theorem appointment_handler_outcome
    (event : Event Filter Input) (w : World)
    (console : list (LogLine (Event Filter Input))) :
  let w' := fst (fst (run event w console)) in
  let console' := snd (fst (run event w console)) in
  let out := snd (run event w console) in
  console' = (console ++ LoggedEvent event ::
                match out with
                | Threw error => [LoggedError error]
                | Returned _ => []
                end)%list
  /\ (identity event = None
      \/ (exists i, identity event = Some i /\ sub i = "") ->
      w' = w /\ out = Threw (mkError "Unauthorized"))
  /\ (forall i id,
        identity event = Some i -> sub i <> "" ->
        fieldName event = "getAppointment" ->
        nonempty (arg_id (arguments event)) = Some id ->
        w' = fst (AppointmentService.getAppointment id i w)
        /\ out = match snd (AppointmentService.getAppointment id i w) with
                 | Returned appointment => Returned (OfGetAppointment appointment)
                 | Threw error => Threw error
                 end)
  /\ (forall i,
        identity event = Some i -> sub i <> "" ->
        fieldName event = "cancelAppointment" ->
        nonempty (arg_id (arguments event)) = None
        \/ nonempty (arg_reason (arguments event)) = None ->
        w' = w /\ out = Threw (mkError "Appointment ID and reason are required"))
  /\ (forall i,
        identity event = Some i -> sub i <> "" ->
        ~ In (fieldName event)
             ["getAppointment"; "listAppointments"; "getAvailableSlots";
              "createAppointment"; "updateAppointment"; "cancelAppointment";
              "confirmAppointment"] ->
        w' = w /\ out = Threw (mkError ("Unknown field: " ++ fieldName event))).
Proof.
  intros w' console' out. subst w' console' out. unfold handler.
  split; [|split; [|split; [|split]]].
  - destruct (dispatch _ _ _ _ _ _ _ _ _ _ event w) as [w1 [r|e]]; cbn [fst snd].
    + reflexivity.
    + now rewrite <- app_assoc.
  - intros Hid. unfold dispatch.
    destruct Hid as [->|[i [-> Hsub]]].
    + split; reflexivity.
    + rewrite Hsub. split; reflexivity.
  - intros i id Hi Hsub Hfield Hid. unfold dispatch.
    rewrite Hi, (proj2 (String.eqb_neq _ _) Hsub), Hfield, Hid.
    cbn [String.eqb Ascii.eqb Bool.eqb]. cbv iota. unfold bind, ret.
    destruct (AppointmentService.getAppointment id i w) as [w1 [r|e]];
      split; reflexivity.
  - intros i Hi Hsub Hfield Hmissing. unfold dispatch.
    rewrite Hi, (proj2 (String.eqb_neq _ _) Hsub), Hfield.
    cbn [String.eqb Ascii.eqb Bool.eqb]. cbv iota.
    destruct Hmissing as [->| ->].
    + split; reflexivity.
    + destruct (nonempty (arg_id (arguments event))); split; reflexivity.
  - intros i Hi Hsub Hfield. unfold dispatch.
    rewrite Hi, (proj2 (String.eqb_neq _ _) Hsub).
    repeat match goal with
           | |- context [String.eqb (fieldName event) ?s] =>
               destruct (String.eqb_spec (fieldName event) s) as [Heq|_];
               [exfalso; apply Hfield; rewrite Heq; simpl; tauto|]
           end.
    split; reflexivity.
Qed.

End AppointmentHandlerTheorems.
